(** * pygeobox: the Elasticsearch API backend and the environment module

    A shallow embedding of [pygeobox/api/backend/elastic.py] (class
    [ElasticBackend]) and of the module-level code of [pygeobox/env.py],
    with the properties of the specification stated and proved over it.

    Conventions of the model.
    - A Python [str] is the [string] of the bytes of its UTF-8 encoding;
      [str.lower] is the lower-casing of Unicode 14.0 (CPython 3.11).
    - Python dict objects live in a heap and are referred to by location, so
      that two names for one dict see each other's writes.
    - Timestamps are integers (seconds).
    - The search engine and the [elasticsearch] client library are not part
      of the repository: the backend is written against an interface
      ([EsClient]) and, where a claim speaks about stored data, run against
      a reference in-memory engine ([RefEngine]); a scripted client
      ([Scripted]) stands for an engine that does not do as it is told. *)

From stdpp Require Import gmap strings list fin_maps pretty.
From Stdlib Require Import ZArith Ascii String.

Set Warnings "-register-all".

Local Open Scope string_scope.
Local Open Scope list_scope.
Local Open Scope Z_scope.

(** ** Strings

    A Python [str] is a sequence of Unicode characters; it is kept here as
    the [string] of the bytes of its UTF-8 encoding.  What works on bytes in
    the same way as on characters ([replace], [rstrip], [split] with ASCII
    arguments) is written on bytes; [lower] reads the characters. *)

Module PyStr.

Definition byte (c : ascii) : N := N_of_ascii c.

Definition between (lo hi : N) (c : ascii) : bool :=
  (lo <=? byte c)%N && (byte c <=? hi)%N.

(** The bytes of well-formed UTF-8: an ASCII byte, the first byte of a
    two-byte sequence, the first two bytes of a three-byte and of a
    four-byte sequence (surrogates and overlong forms left out), and a
    continuation byte. *)
Definition lead1 (a : ascii) : bool := between 0x00 0x7F a.

Definition cont (a : ascii) : bool := between 0x80 0xBF a.

Definition lead2 (a : ascii) : bool := between 0xC2 0xDF a.

Definition lead3 (a b : ascii) : bool :=
  (between 0xE0 0xE0 a && between 0xA0 0xBF b)
  || (between 0xE1 0xEC a && cont b)
  || (between 0xED 0xED a && between 0x80 0x9F b)
  || (between 0xEE 0xEF a && cont b).

Definition lead4 (a b : ascii) : bool :=
  (between 0xF0 0xF0 a && between 0x90 0xBF b)
  || (between 0xF1 0xF3 a && cont b)
  || (between 0xF4 0xF4 a && between 0x80 0x8F b).

(** The character a string starts with and what follows it; [None] when
    the string is empty or does not start with a well-formed sequence. *)
Definition first_char (s : string) : option (string * string) :=
  match s with
  | EmptyString => None
  | String a r0 =>
      if lead1 a then Some (String a EmptyString, r0)
      else match r0 with
           | String b r1 =>
               if lead2 a && cont b
               then Some (String a (String b EmptyString), r1)
               else match r1 with
                    | String c r2 =>
                        if lead3 a b && cont c
                        then Some (String a (String b (String c EmptyString)), r2)
                        else match r2 with
                             | String d r3 =>
                                 if lead4 a b && cont c && cont d
                                 then Some (String a (String b (String c
                                              (String d EmptyString))), r3)
                                 else None
                             | EmptyString => None
                             end
                    | EmptyString => None
                    end
           | EmptyString => None
           end
  end.

(** [list(s)]: the characters of [s], each as the string of its bytes;
    [None] when [s] is not the encoding of a [str]. *)
Fixpoint chars (s : string) : option (list string) :=
  match s with
  | EmptyString => Some []
  | String a r0 =>
      if lead1 a then cons (String a EmptyString) <$> chars r0
      else match r0 with
           | String b r1 =>
               if lead2 a && cont b
               then cons (String a (String b EmptyString)) <$> chars r1
               else match r1 with
                    | String c r2 =>
                        if lead3 a b && cont c
                        then cons (String a (String b (String c EmptyString)))
                               <$> chars r2
                        else match r2 with
                             | String d r3 =>
                                 if lead4 a b && cont c && cont d
                                 then cons (String a (String b (String c
                                              (String d EmptyString))))
                                        <$> chars r3
                                 else None
                             | EmptyString => None
                             end
                    | EmptyString => None
                    end
           | EmptyString => None
           end
  end.

(** [''.join(l)] *)
Definition join (l : list string) : string := foldr String.append EmptyString l.

(** [ord(c)] for a character [c]. *)
Definition ord (c : string) : N :=
  match byte <$> list_ascii_of_string c with
  | [a] => a
  | [a; b] => (a - 0xC0) * 0x40 + (b - 0x80)
  | [a; b; c] => (a - 0xE0) * 0x1000 + (b - 0x80) * 0x40 + (c - 0x80)
  | [a; b; c; d] =>
      (a - 0xF0) * 0x40000 + (b - 0x80) * 0x1000 + (c - 0x80) * 0x40 + (d - 0x80)
  | _ => 0
  end%N.

Definition of_bytes (l : list N) : string :=
  string_of_list_ascii (ascii_of_N <$> l).

(** [chr(n)] *)
Definition chr (n : N) : string :=
  (if n <? 0x80 then of_bytes [n]
   else if n <? 0x800 then of_bytes [0xC0 + n / 0x40; 0x80 + n mod 0x40]
   else if n <? 0x10000 then
     of_bytes [0xE0 + n / 0x1000; 0x80 + (n / 0x40) mod 0x40; 0x80 + n mod 0x40]
   else
     of_bytes [0xF0 + n / 0x40000; 0x80 + (n / 0x1000) mod 0x40;
               0x80 + (n / 0x40) mod 0x40; 0x80 + n mod 0x40])%N.

Definition in_ranges (n : N) (ranges : list (N * N)) : bool :=
  existsb (λ r, (r.1 <=? n)%N && (n <=? r.2)%N) ranges.

(** The characters with a one-character lower-case form other than
    themselves, with that form (Unicode 14.0, as in CPython 3.11). *)
Definition lowercase : list (N * N) :=
  [(0x41, 0x61); (0x42, 0x62); (0x43, 0x63); (0x44, 0x64); (0x45, 0x65);
   (0x46, 0x66); (0x47, 0x67); (0x48, 0x68); (0x49, 0x69); (0x4A, 0x6A);
   (0x4B, 0x6B); (0x4C, 0x6C); (0x4D, 0x6D); (0x4E, 0x6E); (0x4F, 0x6F);
   (0x50, 0x70); (0x51, 0x71); (0x52, 0x72); (0x53, 0x73); (0x54, 0x74);
   (0x55, 0x75); (0x56, 0x76); (0x57, 0x77); (0x58, 0x78); (0x59, 0x79);
   (0x5A, 0x7A); (0xC0, 0xE0); (0xC1, 0xE1); (0xC2, 0xE2); (0xC3, 0xE3);
   (0xC4, 0xE4); (0xC5, 0xE5); (0xC6, 0xE6); (0xC7, 0xE7); (0xC8, 0xE8);
   (0xC9, 0xE9); (0xCA, 0xEA); (0xCB, 0xEB); (0xCC, 0xEC); (0xCD, 0xED);
   (0xCE, 0xEE); (0xCF, 0xEF); (0xD0, 0xF0); (0xD1, 0xF1); (0xD2, 0xF2);
   (0xD3, 0xF3); (0xD4, 0xF4); (0xD5, 0xF5); (0xD6, 0xF6); (0xD8, 0xF8);
   (0xD9, 0xF9); (0xDA, 0xFA); (0xDB, 0xFB); (0xDC, 0xFC); (0xDD, 0xFD);
   (0xDE, 0xFE); (0x100, 0x101); (0x102, 0x103); (0x104, 0x105);
   (0x106, 0x107); (0x108, 0x109); (0x10A, 0x10B); (0x10C, 0x10D);
   (0x10E, 0x10F); (0x110, 0x111); (0x112, 0x113); (0x114, 0x115);
   (0x116, 0x117); (0x118, 0x119); (0x11A, 0x11B); (0x11C, 0x11D);
   (0x11E, 0x11F); (0x120, 0x121); (0x122, 0x123); (0x124, 0x125);
   (0x126, 0x127); (0x128, 0x129); (0x12A, 0x12B); (0x12C, 0x12D);
   (0x12E, 0x12F); (0x132, 0x133); (0x134, 0x135); (0x136, 0x137);
   (0x139, 0x13A); (0x13B, 0x13C); (0x13D, 0x13E); (0x13F, 0x140);
   (0x141, 0x142); (0x143, 0x144); (0x145, 0x146); (0x147, 0x148);
   (0x14A, 0x14B); (0x14C, 0x14D); (0x14E, 0x14F); (0x150, 0x151);
   (0x152, 0x153); (0x154, 0x155); (0x156, 0x157); (0x158, 0x159);
   (0x15A, 0x15B); (0x15C, 0x15D); (0x15E, 0x15F); (0x160, 0x161);
   (0x162, 0x163); (0x164, 0x165); (0x166, 0x167); (0x168, 0x169);
   (0x16A, 0x16B); (0x16C, 0x16D); (0x16E, 0x16F); (0x170, 0x171);
   (0x172, 0x173); (0x174, 0x175); (0x176, 0x177); (0x178, 0xFF);
   (0x179, 0x17A); (0x17B, 0x17C); (0x17D, 0x17E); (0x181, 0x253);
   (0x182, 0x183); (0x184, 0x185); (0x186, 0x254); (0x187, 0x188);
   (0x189, 0x256); (0x18A, 0x257); (0x18B, 0x18C); (0x18E, 0x1DD);
   (0x18F, 0x259); (0x190, 0x25B); (0x191, 0x192); (0x193, 0x260);
   (0x194, 0x263); (0x196, 0x269); (0x197, 0x268); (0x198, 0x199);
   (0x19C, 0x26F); (0x19D, 0x272); (0x19F, 0x275); (0x1A0, 0x1A1);
   (0x1A2, 0x1A3); (0x1A4, 0x1A5); (0x1A6, 0x280); (0x1A7, 0x1A8);
   (0x1A9, 0x283); (0x1AC, 0x1AD); (0x1AE, 0x288); (0x1AF, 0x1B0);
   (0x1B1, 0x28A); (0x1B2, 0x28B); (0x1B3, 0x1B4); (0x1B5, 0x1B6);
   (0x1B7, 0x292); (0x1B8, 0x1B9); (0x1BC, 0x1BD); (0x1C4, 0x1C6);
   (0x1C5, 0x1C6); (0x1C7, 0x1C9); (0x1C8, 0x1C9); (0x1CA, 0x1CC);
   (0x1CB, 0x1CC); (0x1CD, 0x1CE); (0x1CF, 0x1D0); (0x1D1, 0x1D2);
   (0x1D3, 0x1D4); (0x1D5, 0x1D6); (0x1D7, 0x1D8); (0x1D9, 0x1DA);
   (0x1DB, 0x1DC); (0x1DE, 0x1DF); (0x1E0, 0x1E1); (0x1E2, 0x1E3);
   (0x1E4, 0x1E5); (0x1E6, 0x1E7); (0x1E8, 0x1E9); (0x1EA, 0x1EB);
   (0x1EC, 0x1ED); (0x1EE, 0x1EF); (0x1F1, 0x1F3); (0x1F2, 0x1F3);
   (0x1F4, 0x1F5); (0x1F6, 0x195); (0x1F7, 0x1BF); (0x1F8, 0x1F9);
   (0x1FA, 0x1FB); (0x1FC, 0x1FD); (0x1FE, 0x1FF); (0x200, 0x201);
   (0x202, 0x203); (0x204, 0x205); (0x206, 0x207); (0x208, 0x209);
   (0x20A, 0x20B); (0x20C, 0x20D); (0x20E, 0x20F); (0x210, 0x211);
   (0x212, 0x213); (0x214, 0x215); (0x216, 0x217); (0x218, 0x219);
   (0x21A, 0x21B); (0x21C, 0x21D); (0x21E, 0x21F); (0x220, 0x19E);
   (0x222, 0x223); (0x224, 0x225); (0x226, 0x227); (0x228, 0x229);
   (0x22A, 0x22B); (0x22C, 0x22D); (0x22E, 0x22F); (0x230, 0x231);
   (0x232, 0x233); (0x23A, 0x2C65); (0x23B, 0x23C); (0x23D, 0x19A);
   (0x23E, 0x2C66); (0x241, 0x242); (0x243, 0x180); (0x244, 0x289);
   (0x245, 0x28C); (0x246, 0x247); (0x248, 0x249); (0x24A, 0x24B);
   (0x24C, 0x24D); (0x24E, 0x24F); (0x370, 0x371); (0x372, 0x373);
   (0x376, 0x377); (0x37F, 0x3F3); (0x386, 0x3AC); (0x388, 0x3AD);
   (0x389, 0x3AE); (0x38A, 0x3AF); (0x38C, 0x3CC); (0x38E, 0x3CD);
   (0x38F, 0x3CE); (0x391, 0x3B1); (0x392, 0x3B2); (0x393, 0x3B3);
   (0x394, 0x3B4); (0x395, 0x3B5); (0x396, 0x3B6); (0x397, 0x3B7);
   (0x398, 0x3B8); (0x399, 0x3B9); (0x39A, 0x3BA); (0x39B, 0x3BB);
   (0x39C, 0x3BC); (0x39D, 0x3BD); (0x39E, 0x3BE); (0x39F, 0x3BF);
   (0x3A0, 0x3C0); (0x3A1, 0x3C1); (0x3A4, 0x3C4); (0x3A5, 0x3C5);
   (0x3A6, 0x3C6); (0x3A7, 0x3C7); (0x3A8, 0x3C8); (0x3A9, 0x3C9);
   (0x3AA, 0x3CA); (0x3AB, 0x3CB); (0x3CF, 0x3D7); (0x3D8, 0x3D9);
   (0x3DA, 0x3DB); (0x3DC, 0x3DD); (0x3DE, 0x3DF); (0x3E0, 0x3E1);
   (0x3E2, 0x3E3); (0x3E4, 0x3E5); (0x3E6, 0x3E7); (0x3E8, 0x3E9);
   (0x3EA, 0x3EB); (0x3EC, 0x3ED); (0x3EE, 0x3EF); (0x3F4, 0x3B8);
   (0x3F7, 0x3F8); (0x3F9, 0x3F2); (0x3FA, 0x3FB); (0x3FD, 0x37B);
   (0x3FE, 0x37C); (0x3FF, 0x37D); (0x400, 0x450); (0x401, 0x451);
   (0x402, 0x452); (0x403, 0x453); (0x404, 0x454); (0x405, 0x455);
   (0x406, 0x456); (0x407, 0x457); (0x408, 0x458); (0x409, 0x459);
   (0x40A, 0x45A); (0x40B, 0x45B); (0x40C, 0x45C); (0x40D, 0x45D);
   (0x40E, 0x45E); (0x40F, 0x45F); (0x410, 0x430); (0x411, 0x431);
   (0x412, 0x432); (0x413, 0x433); (0x414, 0x434); (0x415, 0x435);
   (0x416, 0x436); (0x417, 0x437); (0x418, 0x438); (0x419, 0x439);
   (0x41A, 0x43A); (0x41B, 0x43B); (0x41C, 0x43C); (0x41D, 0x43D);
   (0x41E, 0x43E); (0x41F, 0x43F); (0x420, 0x440); (0x421, 0x441);
   (0x422, 0x442); (0x423, 0x443); (0x424, 0x444); (0x425, 0x445);
   (0x426, 0x446); (0x427, 0x447); (0x428, 0x448); (0x429, 0x449);
   (0x42A, 0x44A); (0x42B, 0x44B); (0x42C, 0x44C); (0x42D, 0x44D);
   (0x42E, 0x44E); (0x42F, 0x44F); (0x460, 0x461); (0x462, 0x463);
   (0x464, 0x465); (0x466, 0x467); (0x468, 0x469); (0x46A, 0x46B);
   (0x46C, 0x46D); (0x46E, 0x46F); (0x470, 0x471); (0x472, 0x473);
   (0x474, 0x475); (0x476, 0x477); (0x478, 0x479); (0x47A, 0x47B);
   (0x47C, 0x47D); (0x47E, 0x47F); (0x480, 0x481); (0x48A, 0x48B);
   (0x48C, 0x48D); (0x48E, 0x48F); (0x490, 0x491); (0x492, 0x493);
   (0x494, 0x495); (0x496, 0x497); (0x498, 0x499); (0x49A, 0x49B);
   (0x49C, 0x49D); (0x49E, 0x49F); (0x4A0, 0x4A1); (0x4A2, 0x4A3);
   (0x4A4, 0x4A5); (0x4A6, 0x4A7); (0x4A8, 0x4A9); (0x4AA, 0x4AB);
   (0x4AC, 0x4AD); (0x4AE, 0x4AF); (0x4B0, 0x4B1); (0x4B2, 0x4B3);
   (0x4B4, 0x4B5); (0x4B6, 0x4B7); (0x4B8, 0x4B9); (0x4BA, 0x4BB);
   (0x4BC, 0x4BD); (0x4BE, 0x4BF); (0x4C0, 0x4CF); (0x4C1, 0x4C2);
   (0x4C3, 0x4C4); (0x4C5, 0x4C6); (0x4C7, 0x4C8); (0x4C9, 0x4CA);
   (0x4CB, 0x4CC); (0x4CD, 0x4CE); (0x4D0, 0x4D1); (0x4D2, 0x4D3);
   (0x4D4, 0x4D5); (0x4D6, 0x4D7); (0x4D8, 0x4D9); (0x4DA, 0x4DB);
   (0x4DC, 0x4DD); (0x4DE, 0x4DF); (0x4E0, 0x4E1); (0x4E2, 0x4E3);
   (0x4E4, 0x4E5); (0x4E6, 0x4E7); (0x4E8, 0x4E9); (0x4EA, 0x4EB);
   (0x4EC, 0x4ED); (0x4EE, 0x4EF); (0x4F0, 0x4F1); (0x4F2, 0x4F3);
   (0x4F4, 0x4F5); (0x4F6, 0x4F7); (0x4F8, 0x4F9); (0x4FA, 0x4FB);
   (0x4FC, 0x4FD); (0x4FE, 0x4FF); (0x500, 0x501); (0x502, 0x503);
   (0x504, 0x505); (0x506, 0x507); (0x508, 0x509); (0x50A, 0x50B);
   (0x50C, 0x50D); (0x50E, 0x50F); (0x510, 0x511); (0x512, 0x513);
   (0x514, 0x515); (0x516, 0x517); (0x518, 0x519); (0x51A, 0x51B);
   (0x51C, 0x51D); (0x51E, 0x51F); (0x520, 0x521); (0x522, 0x523);
   (0x524, 0x525); (0x526, 0x527); (0x528, 0x529); (0x52A, 0x52B);
   (0x52C, 0x52D); (0x52E, 0x52F); (0x531, 0x561); (0x532, 0x562);
   (0x533, 0x563); (0x534, 0x564); (0x535, 0x565); (0x536, 0x566);
   (0x537, 0x567); (0x538, 0x568); (0x539, 0x569); (0x53A, 0x56A);
   (0x53B, 0x56B); (0x53C, 0x56C); (0x53D, 0x56D); (0x53E, 0x56E);
   (0x53F, 0x56F); (0x540, 0x570); (0x541, 0x571); (0x542, 0x572);
   (0x543, 0x573); (0x544, 0x574); (0x545, 0x575); (0x546, 0x576);
   (0x547, 0x577); (0x548, 0x578); (0x549, 0x579); (0x54A, 0x57A);
   (0x54B, 0x57B); (0x54C, 0x57C); (0x54D, 0x57D); (0x54E, 0x57E);
   (0x54F, 0x57F); (0x550, 0x580); (0x551, 0x581); (0x552, 0x582);
   (0x553, 0x583); (0x554, 0x584); (0x555, 0x585); (0x556, 0x586);
   (0x10A0, 0x2D00); (0x10A1, 0x2D01); (0x10A2, 0x2D02); (0x10A3, 0x2D03);
   (0x10A4, 0x2D04); (0x10A5, 0x2D05); (0x10A6, 0x2D06); (0x10A7, 0x2D07);
   (0x10A8, 0x2D08); (0x10A9, 0x2D09); (0x10AA, 0x2D0A); (0x10AB, 0x2D0B);
   (0x10AC, 0x2D0C); (0x10AD, 0x2D0D); (0x10AE, 0x2D0E); (0x10AF, 0x2D0F);
   (0x10B0, 0x2D10); (0x10B1, 0x2D11); (0x10B2, 0x2D12); (0x10B3, 0x2D13);
   (0x10B4, 0x2D14); (0x10B5, 0x2D15); (0x10B6, 0x2D16); (0x10B7, 0x2D17);
   (0x10B8, 0x2D18); (0x10B9, 0x2D19); (0x10BA, 0x2D1A); (0x10BB, 0x2D1B);
   (0x10BC, 0x2D1C); (0x10BD, 0x2D1D); (0x10BE, 0x2D1E); (0x10BF, 0x2D1F);
   (0x10C0, 0x2D20); (0x10C1, 0x2D21); (0x10C2, 0x2D22); (0x10C3, 0x2D23);
   (0x10C4, 0x2D24); (0x10C5, 0x2D25); (0x10C7, 0x2D27); (0x10CD, 0x2D2D);
   (0x13A0, 0xAB70); (0x13A1, 0xAB71); (0x13A2, 0xAB72); (0x13A3, 0xAB73);
   (0x13A4, 0xAB74); (0x13A5, 0xAB75); (0x13A6, 0xAB76); (0x13A7, 0xAB77);
   (0x13A8, 0xAB78); (0x13A9, 0xAB79); (0x13AA, 0xAB7A); (0x13AB, 0xAB7B);
   (0x13AC, 0xAB7C); (0x13AD, 0xAB7D); (0x13AE, 0xAB7E); (0x13AF, 0xAB7F);
   (0x13B0, 0xAB80); (0x13B1, 0xAB81); (0x13B2, 0xAB82); (0x13B3, 0xAB83);
   (0x13B4, 0xAB84); (0x13B5, 0xAB85); (0x13B6, 0xAB86); (0x13B7, 0xAB87);
   (0x13B8, 0xAB88); (0x13B9, 0xAB89); (0x13BA, 0xAB8A); (0x13BB, 0xAB8B);
   (0x13BC, 0xAB8C); (0x13BD, 0xAB8D); (0x13BE, 0xAB8E); (0x13BF, 0xAB8F);
   (0x13C0, 0xAB90); (0x13C1, 0xAB91); (0x13C2, 0xAB92); (0x13C3, 0xAB93);
   (0x13C4, 0xAB94); (0x13C5, 0xAB95); (0x13C6, 0xAB96); (0x13C7, 0xAB97);
   (0x13C8, 0xAB98); (0x13C9, 0xAB99); (0x13CA, 0xAB9A); (0x13CB, 0xAB9B);
   (0x13CC, 0xAB9C); (0x13CD, 0xAB9D); (0x13CE, 0xAB9E); (0x13CF, 0xAB9F);
   (0x13D0, 0xABA0); (0x13D1, 0xABA1); (0x13D2, 0xABA2); (0x13D3, 0xABA3);
   (0x13D4, 0xABA4); (0x13D5, 0xABA5); (0x13D6, 0xABA6); (0x13D7, 0xABA7);
   (0x13D8, 0xABA8); (0x13D9, 0xABA9); (0x13DA, 0xABAA); (0x13DB, 0xABAB);
   (0x13DC, 0xABAC); (0x13DD, 0xABAD); (0x13DE, 0xABAE); (0x13DF, 0xABAF);
   (0x13E0, 0xABB0); (0x13E1, 0xABB1); (0x13E2, 0xABB2); (0x13E3, 0xABB3);
   (0x13E4, 0xABB4); (0x13E5, 0xABB5); (0x13E6, 0xABB6); (0x13E7, 0xABB7);
   (0x13E8, 0xABB8); (0x13E9, 0xABB9); (0x13EA, 0xABBA); (0x13EB, 0xABBB);
   (0x13EC, 0xABBC); (0x13ED, 0xABBD); (0x13EE, 0xABBE); (0x13EF, 0xABBF);
   (0x13F0, 0x13F8); (0x13F1, 0x13F9); (0x13F2, 0x13FA); (0x13F3, 0x13FB);
   (0x13F4, 0x13FC); (0x13F5, 0x13FD); (0x1C90, 0x10D0); (0x1C91, 0x10D1);
   (0x1C92, 0x10D2); (0x1C93, 0x10D3); (0x1C94, 0x10D4); (0x1C95, 0x10D5);
   (0x1C96, 0x10D6); (0x1C97, 0x10D7); (0x1C98, 0x10D8); (0x1C99, 0x10D9);
   (0x1C9A, 0x10DA); (0x1C9B, 0x10DB); (0x1C9C, 0x10DC); (0x1C9D, 0x10DD);
   (0x1C9E, 0x10DE); (0x1C9F, 0x10DF); (0x1CA0, 0x10E0); (0x1CA1, 0x10E1);
   (0x1CA2, 0x10E2); (0x1CA3, 0x10E3); (0x1CA4, 0x10E4); (0x1CA5, 0x10E5);
   (0x1CA6, 0x10E6); (0x1CA7, 0x10E7); (0x1CA8, 0x10E8); (0x1CA9, 0x10E9);
   (0x1CAA, 0x10EA); (0x1CAB, 0x10EB); (0x1CAC, 0x10EC); (0x1CAD, 0x10ED);
   (0x1CAE, 0x10EE); (0x1CAF, 0x10EF); (0x1CB0, 0x10F0); (0x1CB1, 0x10F1);
   (0x1CB2, 0x10F2); (0x1CB3, 0x10F3); (0x1CB4, 0x10F4); (0x1CB5, 0x10F5);
   (0x1CB6, 0x10F6); (0x1CB7, 0x10F7); (0x1CB8, 0x10F8); (0x1CB9, 0x10F9);
   (0x1CBA, 0x10FA); (0x1CBD, 0x10FD); (0x1CBE, 0x10FE); (0x1CBF, 0x10FF);
   (0x1E00, 0x1E01); (0x1E02, 0x1E03); (0x1E04, 0x1E05); (0x1E06, 0x1E07);
   (0x1E08, 0x1E09); (0x1E0A, 0x1E0B); (0x1E0C, 0x1E0D); (0x1E0E, 0x1E0F);
   (0x1E10, 0x1E11); (0x1E12, 0x1E13); (0x1E14, 0x1E15); (0x1E16, 0x1E17);
   (0x1E18, 0x1E19); (0x1E1A, 0x1E1B); (0x1E1C, 0x1E1D); (0x1E1E, 0x1E1F);
   (0x1E20, 0x1E21); (0x1E22, 0x1E23); (0x1E24, 0x1E25); (0x1E26, 0x1E27);
   (0x1E28, 0x1E29); (0x1E2A, 0x1E2B); (0x1E2C, 0x1E2D); (0x1E2E, 0x1E2F);
   (0x1E30, 0x1E31); (0x1E32, 0x1E33); (0x1E34, 0x1E35); (0x1E36, 0x1E37);
   (0x1E38, 0x1E39); (0x1E3A, 0x1E3B); (0x1E3C, 0x1E3D); (0x1E3E, 0x1E3F);
   (0x1E40, 0x1E41); (0x1E42, 0x1E43); (0x1E44, 0x1E45); (0x1E46, 0x1E47);
   (0x1E48, 0x1E49); (0x1E4A, 0x1E4B); (0x1E4C, 0x1E4D); (0x1E4E, 0x1E4F);
   (0x1E50, 0x1E51); (0x1E52, 0x1E53); (0x1E54, 0x1E55); (0x1E56, 0x1E57);
   (0x1E58, 0x1E59); (0x1E5A, 0x1E5B); (0x1E5C, 0x1E5D); (0x1E5E, 0x1E5F);
   (0x1E60, 0x1E61); (0x1E62, 0x1E63); (0x1E64, 0x1E65); (0x1E66, 0x1E67);
   (0x1E68, 0x1E69); (0x1E6A, 0x1E6B); (0x1E6C, 0x1E6D); (0x1E6E, 0x1E6F);
   (0x1E70, 0x1E71); (0x1E72, 0x1E73); (0x1E74, 0x1E75); (0x1E76, 0x1E77);
   (0x1E78, 0x1E79); (0x1E7A, 0x1E7B); (0x1E7C, 0x1E7D); (0x1E7E, 0x1E7F);
   (0x1E80, 0x1E81); (0x1E82, 0x1E83); (0x1E84, 0x1E85); (0x1E86, 0x1E87);
   (0x1E88, 0x1E89); (0x1E8A, 0x1E8B); (0x1E8C, 0x1E8D); (0x1E8E, 0x1E8F);
   (0x1E90, 0x1E91); (0x1E92, 0x1E93); (0x1E94, 0x1E95); (0x1E9E, 0xDF);
   (0x1EA0, 0x1EA1); (0x1EA2, 0x1EA3); (0x1EA4, 0x1EA5); (0x1EA6, 0x1EA7);
   (0x1EA8, 0x1EA9); (0x1EAA, 0x1EAB); (0x1EAC, 0x1EAD); (0x1EAE, 0x1EAF);
   (0x1EB0, 0x1EB1); (0x1EB2, 0x1EB3); (0x1EB4, 0x1EB5); (0x1EB6, 0x1EB7);
   (0x1EB8, 0x1EB9); (0x1EBA, 0x1EBB); (0x1EBC, 0x1EBD); (0x1EBE, 0x1EBF);
   (0x1EC0, 0x1EC1); (0x1EC2, 0x1EC3); (0x1EC4, 0x1EC5); (0x1EC6, 0x1EC7);
   (0x1EC8, 0x1EC9); (0x1ECA, 0x1ECB); (0x1ECC, 0x1ECD); (0x1ECE, 0x1ECF);
   (0x1ED0, 0x1ED1); (0x1ED2, 0x1ED3); (0x1ED4, 0x1ED5); (0x1ED6, 0x1ED7);
   (0x1ED8, 0x1ED9); (0x1EDA, 0x1EDB); (0x1EDC, 0x1EDD); (0x1EDE, 0x1EDF);
   (0x1EE0, 0x1EE1); (0x1EE2, 0x1EE3); (0x1EE4, 0x1EE5); (0x1EE6, 0x1EE7);
   (0x1EE8, 0x1EE9); (0x1EEA, 0x1EEB); (0x1EEC, 0x1EED); (0x1EEE, 0x1EEF);
   (0x1EF0, 0x1EF1); (0x1EF2, 0x1EF3); (0x1EF4, 0x1EF5); (0x1EF6, 0x1EF7);
   (0x1EF8, 0x1EF9); (0x1EFA, 0x1EFB); (0x1EFC, 0x1EFD); (0x1EFE, 0x1EFF);
   (0x1F08, 0x1F00); (0x1F09, 0x1F01); (0x1F0A, 0x1F02); (0x1F0B, 0x1F03);
   (0x1F0C, 0x1F04); (0x1F0D, 0x1F05); (0x1F0E, 0x1F06); (0x1F0F, 0x1F07);
   (0x1F18, 0x1F10); (0x1F19, 0x1F11); (0x1F1A, 0x1F12); (0x1F1B, 0x1F13);
   (0x1F1C, 0x1F14); (0x1F1D, 0x1F15); (0x1F28, 0x1F20); (0x1F29, 0x1F21);
   (0x1F2A, 0x1F22); (0x1F2B, 0x1F23); (0x1F2C, 0x1F24); (0x1F2D, 0x1F25);
   (0x1F2E, 0x1F26); (0x1F2F, 0x1F27); (0x1F38, 0x1F30); (0x1F39, 0x1F31);
   (0x1F3A, 0x1F32); (0x1F3B, 0x1F33); (0x1F3C, 0x1F34); (0x1F3D, 0x1F35);
   (0x1F3E, 0x1F36); (0x1F3F, 0x1F37); (0x1F48, 0x1F40); (0x1F49, 0x1F41);
   (0x1F4A, 0x1F42); (0x1F4B, 0x1F43); (0x1F4C, 0x1F44); (0x1F4D, 0x1F45);
   (0x1F59, 0x1F51); (0x1F5B, 0x1F53); (0x1F5D, 0x1F55); (0x1F5F, 0x1F57);
   (0x1F68, 0x1F60); (0x1F69, 0x1F61); (0x1F6A, 0x1F62); (0x1F6B, 0x1F63);
   (0x1F6C, 0x1F64); (0x1F6D, 0x1F65); (0x1F6E, 0x1F66); (0x1F6F, 0x1F67);
   (0x1F88, 0x1F80); (0x1F89, 0x1F81); (0x1F8A, 0x1F82); (0x1F8B, 0x1F83);
   (0x1F8C, 0x1F84); (0x1F8D, 0x1F85); (0x1F8E, 0x1F86); (0x1F8F, 0x1F87);
   (0x1F98, 0x1F90); (0x1F99, 0x1F91); (0x1F9A, 0x1F92); (0x1F9B, 0x1F93);
   (0x1F9C, 0x1F94); (0x1F9D, 0x1F95); (0x1F9E, 0x1F96); (0x1F9F, 0x1F97);
   (0x1FA8, 0x1FA0); (0x1FA9, 0x1FA1); (0x1FAA, 0x1FA2); (0x1FAB, 0x1FA3);
   (0x1FAC, 0x1FA4); (0x1FAD, 0x1FA5); (0x1FAE, 0x1FA6); (0x1FAF, 0x1FA7);
   (0x1FB8, 0x1FB0); (0x1FB9, 0x1FB1); (0x1FBA, 0x1F70); (0x1FBB, 0x1F71);
   (0x1FBC, 0x1FB3); (0x1FC8, 0x1F72); (0x1FC9, 0x1F73); (0x1FCA, 0x1F74);
   (0x1FCB, 0x1F75); (0x1FCC, 0x1FC3); (0x1FD8, 0x1FD0); (0x1FD9, 0x1FD1);
   (0x1FDA, 0x1F76); (0x1FDB, 0x1F77); (0x1FE8, 0x1FE0); (0x1FE9, 0x1FE1);
   (0x1FEA, 0x1F7A); (0x1FEB, 0x1F7B); (0x1FEC, 0x1FE5); (0x1FF8, 0x1F78);
   (0x1FF9, 0x1F79); (0x1FFA, 0x1F7C); (0x1FFB, 0x1F7D); (0x1FFC, 0x1FF3);
   (0x2126, 0x3C9); (0x212A, 0x6B); (0x212B, 0xE5); (0x2132, 0x214E);
   (0x2160, 0x2170); (0x2161, 0x2171); (0x2162, 0x2172); (0x2163, 0x2173);
   (0x2164, 0x2174); (0x2165, 0x2175); (0x2166, 0x2176); (0x2167, 0x2177);
   (0x2168, 0x2178); (0x2169, 0x2179); (0x216A, 0x217A); (0x216B, 0x217B);
   (0x216C, 0x217C); (0x216D, 0x217D); (0x216E, 0x217E); (0x216F, 0x217F);
   (0x2183, 0x2184); (0x24B6, 0x24D0); (0x24B7, 0x24D1); (0x24B8, 0x24D2);
   (0x24B9, 0x24D3); (0x24BA, 0x24D4); (0x24BB, 0x24D5); (0x24BC, 0x24D6);
   (0x24BD, 0x24D7); (0x24BE, 0x24D8); (0x24BF, 0x24D9); (0x24C0, 0x24DA);
   (0x24C1, 0x24DB); (0x24C2, 0x24DC); (0x24C3, 0x24DD); (0x24C4, 0x24DE);
   (0x24C5, 0x24DF); (0x24C6, 0x24E0); (0x24C7, 0x24E1); (0x24C8, 0x24E2);
   (0x24C9, 0x24E3); (0x24CA, 0x24E4); (0x24CB, 0x24E5); (0x24CC, 0x24E6);
   (0x24CD, 0x24E7); (0x24CE, 0x24E8); (0x24CF, 0x24E9); (0x2C00, 0x2C30);
   (0x2C01, 0x2C31); (0x2C02, 0x2C32); (0x2C03, 0x2C33); (0x2C04, 0x2C34);
   (0x2C05, 0x2C35); (0x2C06, 0x2C36); (0x2C07, 0x2C37); (0x2C08, 0x2C38);
   (0x2C09, 0x2C39); (0x2C0A, 0x2C3A); (0x2C0B, 0x2C3B); (0x2C0C, 0x2C3C);
   (0x2C0D, 0x2C3D); (0x2C0E, 0x2C3E); (0x2C0F, 0x2C3F); (0x2C10, 0x2C40);
   (0x2C11, 0x2C41); (0x2C12, 0x2C42); (0x2C13, 0x2C43); (0x2C14, 0x2C44);
   (0x2C15, 0x2C45); (0x2C16, 0x2C46); (0x2C17, 0x2C47); (0x2C18, 0x2C48);
   (0x2C19, 0x2C49); (0x2C1A, 0x2C4A); (0x2C1B, 0x2C4B); (0x2C1C, 0x2C4C);
   (0x2C1D, 0x2C4D); (0x2C1E, 0x2C4E); (0x2C1F, 0x2C4F); (0x2C20, 0x2C50);
   (0x2C21, 0x2C51); (0x2C22, 0x2C52); (0x2C23, 0x2C53); (0x2C24, 0x2C54);
   (0x2C25, 0x2C55); (0x2C26, 0x2C56); (0x2C27, 0x2C57); (0x2C28, 0x2C58);
   (0x2C29, 0x2C59); (0x2C2A, 0x2C5A); (0x2C2B, 0x2C5B); (0x2C2C, 0x2C5C);
   (0x2C2D, 0x2C5D); (0x2C2E, 0x2C5E); (0x2C2F, 0x2C5F); (0x2C60, 0x2C61);
   (0x2C62, 0x26B); (0x2C63, 0x1D7D); (0x2C64, 0x27D); (0x2C67, 0x2C68);
   (0x2C69, 0x2C6A); (0x2C6B, 0x2C6C); (0x2C6D, 0x251); (0x2C6E, 0x271);
   (0x2C6F, 0x250); (0x2C70, 0x252); (0x2C72, 0x2C73); (0x2C75, 0x2C76);
   (0x2C7E, 0x23F); (0x2C7F, 0x240); (0x2C80, 0x2C81); (0x2C82, 0x2C83);
   (0x2C84, 0x2C85); (0x2C86, 0x2C87); (0x2C88, 0x2C89); (0x2C8A, 0x2C8B);
   (0x2C8C, 0x2C8D); (0x2C8E, 0x2C8F); (0x2C90, 0x2C91); (0x2C92, 0x2C93);
   (0x2C94, 0x2C95); (0x2C96, 0x2C97); (0x2C98, 0x2C99); (0x2C9A, 0x2C9B);
   (0x2C9C, 0x2C9D); (0x2C9E, 0x2C9F); (0x2CA0, 0x2CA1); (0x2CA2, 0x2CA3);
   (0x2CA4, 0x2CA5); (0x2CA6, 0x2CA7); (0x2CA8, 0x2CA9); (0x2CAA, 0x2CAB);
   (0x2CAC, 0x2CAD); (0x2CAE, 0x2CAF); (0x2CB0, 0x2CB1); (0x2CB2, 0x2CB3);
   (0x2CB4, 0x2CB5); (0x2CB6, 0x2CB7); (0x2CB8, 0x2CB9); (0x2CBA, 0x2CBB);
   (0x2CBC, 0x2CBD); (0x2CBE, 0x2CBF); (0x2CC0, 0x2CC1); (0x2CC2, 0x2CC3);
   (0x2CC4, 0x2CC5); (0x2CC6, 0x2CC7); (0x2CC8, 0x2CC9); (0x2CCA, 0x2CCB);
   (0x2CCC, 0x2CCD); (0x2CCE, 0x2CCF); (0x2CD0, 0x2CD1); (0x2CD2, 0x2CD3);
   (0x2CD4, 0x2CD5); (0x2CD6, 0x2CD7); (0x2CD8, 0x2CD9); (0x2CDA, 0x2CDB);
   (0x2CDC, 0x2CDD); (0x2CDE, 0x2CDF); (0x2CE0, 0x2CE1); (0x2CE2, 0x2CE3);
   (0x2CEB, 0x2CEC); (0x2CED, 0x2CEE); (0x2CF2, 0x2CF3); (0xA640, 0xA641);
   (0xA642, 0xA643); (0xA644, 0xA645); (0xA646, 0xA647); (0xA648, 0xA649);
   (0xA64A, 0xA64B); (0xA64C, 0xA64D); (0xA64E, 0xA64F); (0xA650, 0xA651);
   (0xA652, 0xA653); (0xA654, 0xA655); (0xA656, 0xA657); (0xA658, 0xA659);
   (0xA65A, 0xA65B); (0xA65C, 0xA65D); (0xA65E, 0xA65F); (0xA660, 0xA661);
   (0xA662, 0xA663); (0xA664, 0xA665); (0xA666, 0xA667); (0xA668, 0xA669);
   (0xA66A, 0xA66B); (0xA66C, 0xA66D); (0xA680, 0xA681); (0xA682, 0xA683);
   (0xA684, 0xA685); (0xA686, 0xA687); (0xA688, 0xA689); (0xA68A, 0xA68B);
   (0xA68C, 0xA68D); (0xA68E, 0xA68F); (0xA690, 0xA691); (0xA692, 0xA693);
   (0xA694, 0xA695); (0xA696, 0xA697); (0xA698, 0xA699); (0xA69A, 0xA69B);
   (0xA722, 0xA723); (0xA724, 0xA725); (0xA726, 0xA727); (0xA728, 0xA729);
   (0xA72A, 0xA72B); (0xA72C, 0xA72D); (0xA72E, 0xA72F); (0xA732, 0xA733);
   (0xA734, 0xA735); (0xA736, 0xA737); (0xA738, 0xA739); (0xA73A, 0xA73B);
   (0xA73C, 0xA73D); (0xA73E, 0xA73F); (0xA740, 0xA741); (0xA742, 0xA743);
   (0xA744, 0xA745); (0xA746, 0xA747); (0xA748, 0xA749); (0xA74A, 0xA74B);
   (0xA74C, 0xA74D); (0xA74E, 0xA74F); (0xA750, 0xA751); (0xA752, 0xA753);
   (0xA754, 0xA755); (0xA756, 0xA757); (0xA758, 0xA759); (0xA75A, 0xA75B);
   (0xA75C, 0xA75D); (0xA75E, 0xA75F); (0xA760, 0xA761); (0xA762, 0xA763);
   (0xA764, 0xA765); (0xA766, 0xA767); (0xA768, 0xA769); (0xA76A, 0xA76B);
   (0xA76C, 0xA76D); (0xA76E, 0xA76F); (0xA779, 0xA77A); (0xA77B, 0xA77C);
   (0xA77D, 0x1D79); (0xA77E, 0xA77F); (0xA780, 0xA781); (0xA782, 0xA783);
   (0xA784, 0xA785); (0xA786, 0xA787); (0xA78B, 0xA78C); (0xA78D, 0x265);
   (0xA790, 0xA791); (0xA792, 0xA793); (0xA796, 0xA797); (0xA798, 0xA799);
   (0xA79A, 0xA79B); (0xA79C, 0xA79D); (0xA79E, 0xA79F); (0xA7A0, 0xA7A1);
   (0xA7A2, 0xA7A3); (0xA7A4, 0xA7A5); (0xA7A6, 0xA7A7); (0xA7A8, 0xA7A9);
   (0xA7AA, 0x266); (0xA7AB, 0x25C); (0xA7AC, 0x261); (0xA7AD, 0x26C);
   (0xA7AE, 0x26A); (0xA7B0, 0x29E); (0xA7B1, 0x287); (0xA7B2, 0x29D);
   (0xA7B3, 0xAB53); (0xA7B4, 0xA7B5); (0xA7B6, 0xA7B7); (0xA7B8, 0xA7B9);
   (0xA7BA, 0xA7BB); (0xA7BC, 0xA7BD); (0xA7BE, 0xA7BF); (0xA7C0, 0xA7C1);
   (0xA7C2, 0xA7C3); (0xA7C4, 0xA794); (0xA7C5, 0x282); (0xA7C6, 0x1D8E);
   (0xA7C7, 0xA7C8); (0xA7C9, 0xA7CA); (0xA7D0, 0xA7D1); (0xA7D6, 0xA7D7);
   (0xA7D8, 0xA7D9); (0xA7F5, 0xA7F6); (0xFF21, 0xFF41); (0xFF22, 0xFF42);
   (0xFF23, 0xFF43); (0xFF24, 0xFF44); (0xFF25, 0xFF45); (0xFF26, 0xFF46);
   (0xFF27, 0xFF47); (0xFF28, 0xFF48); (0xFF29, 0xFF49); (0xFF2A, 0xFF4A);
   (0xFF2B, 0xFF4B); (0xFF2C, 0xFF4C); (0xFF2D, 0xFF4D); (0xFF2E, 0xFF4E);
   (0xFF2F, 0xFF4F); (0xFF30, 0xFF50); (0xFF31, 0xFF51); (0xFF32, 0xFF52);
   (0xFF33, 0xFF53); (0xFF34, 0xFF54); (0xFF35, 0xFF55); (0xFF36, 0xFF56);
   (0xFF37, 0xFF57); (0xFF38, 0xFF58); (0xFF39, 0xFF59); (0xFF3A, 0xFF5A);
   (0x10400, 0x10428); (0x10401, 0x10429); (0x10402, 0x1042A);
   (0x10403, 0x1042B); (0x10404, 0x1042C); (0x10405, 0x1042D);
   (0x10406, 0x1042E); (0x10407, 0x1042F); (0x10408, 0x10430);
   (0x10409, 0x10431); (0x1040A, 0x10432); (0x1040B, 0x10433);
   (0x1040C, 0x10434); (0x1040D, 0x10435); (0x1040E, 0x10436);
   (0x1040F, 0x10437); (0x10410, 0x10438); (0x10411, 0x10439);
   (0x10412, 0x1043A); (0x10413, 0x1043B); (0x10414, 0x1043C);
   (0x10415, 0x1043D); (0x10416, 0x1043E); (0x10417, 0x1043F);
   (0x10418, 0x10440); (0x10419, 0x10441); (0x1041A, 0x10442);
   (0x1041B, 0x10443); (0x1041C, 0x10444); (0x1041D, 0x10445);
   (0x1041E, 0x10446); (0x1041F, 0x10447); (0x10420, 0x10448);
   (0x10421, 0x10449); (0x10422, 0x1044A); (0x10423, 0x1044B);
   (0x10424, 0x1044C); (0x10425, 0x1044D); (0x10426, 0x1044E);
   (0x10427, 0x1044F); (0x104B0, 0x104D8); (0x104B1, 0x104D9);
   (0x104B2, 0x104DA); (0x104B3, 0x104DB); (0x104B4, 0x104DC);
   (0x104B5, 0x104DD); (0x104B6, 0x104DE); (0x104B7, 0x104DF);
   (0x104B8, 0x104E0); (0x104B9, 0x104E1); (0x104BA, 0x104E2);
   (0x104BB, 0x104E3); (0x104BC, 0x104E4); (0x104BD, 0x104E5);
   (0x104BE, 0x104E6); (0x104BF, 0x104E7); (0x104C0, 0x104E8);
   (0x104C1, 0x104E9); (0x104C2, 0x104EA); (0x104C3, 0x104EB);
   (0x104C4, 0x104EC); (0x104C5, 0x104ED); (0x104C6, 0x104EE);
   (0x104C7, 0x104EF); (0x104C8, 0x104F0); (0x104C9, 0x104F1);
   (0x104CA, 0x104F2); (0x104CB, 0x104F3); (0x104CC, 0x104F4);
   (0x104CD, 0x104F5); (0x104CE, 0x104F6); (0x104CF, 0x104F7);
   (0x104D0, 0x104F8); (0x104D1, 0x104F9); (0x104D2, 0x104FA);
   (0x104D3, 0x104FB); (0x10570, 0x10597); (0x10571, 0x10598);
   (0x10572, 0x10599); (0x10573, 0x1059A); (0x10574, 0x1059B);
   (0x10575, 0x1059C); (0x10576, 0x1059D); (0x10577, 0x1059E);
   (0x10578, 0x1059F); (0x10579, 0x105A0); (0x1057A, 0x105A1);
   (0x1057C, 0x105A3); (0x1057D, 0x105A4); (0x1057E, 0x105A5);
   (0x1057F, 0x105A6); (0x10580, 0x105A7); (0x10581, 0x105A8);
   (0x10582, 0x105A9); (0x10583, 0x105AA); (0x10584, 0x105AB);
   (0x10585, 0x105AC); (0x10586, 0x105AD); (0x10587, 0x105AE);
   (0x10588, 0x105AF); (0x10589, 0x105B0); (0x1058A, 0x105B1);
   (0x1058C, 0x105B3); (0x1058D, 0x105B4); (0x1058E, 0x105B5);
   (0x1058F, 0x105B6); (0x10590, 0x105B7); (0x10591, 0x105B8);
   (0x10592, 0x105B9); (0x10594, 0x105BB); (0x10595, 0x105BC);
   (0x10C80, 0x10CC0); (0x10C81, 0x10CC1); (0x10C82, 0x10CC2);
   (0x10C83, 0x10CC3); (0x10C84, 0x10CC4); (0x10C85, 0x10CC5);
   (0x10C86, 0x10CC6); (0x10C87, 0x10CC7); (0x10C88, 0x10CC8);
   (0x10C89, 0x10CC9); (0x10C8A, 0x10CCA); (0x10C8B, 0x10CCB);
   (0x10C8C, 0x10CCC); (0x10C8D, 0x10CCD); (0x10C8E, 0x10CCE);
   (0x10C8F, 0x10CCF); (0x10C90, 0x10CD0); (0x10C91, 0x10CD1);
   (0x10C92, 0x10CD2); (0x10C93, 0x10CD3); (0x10C94, 0x10CD4);
   (0x10C95, 0x10CD5); (0x10C96, 0x10CD6); (0x10C97, 0x10CD7);
   (0x10C98, 0x10CD8); (0x10C99, 0x10CD9); (0x10C9A, 0x10CDA);
   (0x10C9B, 0x10CDB); (0x10C9C, 0x10CDC); (0x10C9D, 0x10CDD);
   (0x10C9E, 0x10CDE); (0x10C9F, 0x10CDF); (0x10CA0, 0x10CE0);
   (0x10CA1, 0x10CE1); (0x10CA2, 0x10CE2); (0x10CA3, 0x10CE3);
   (0x10CA4, 0x10CE4); (0x10CA5, 0x10CE5); (0x10CA6, 0x10CE6);
   (0x10CA7, 0x10CE7); (0x10CA8, 0x10CE8); (0x10CA9, 0x10CE9);
   (0x10CAA, 0x10CEA); (0x10CAB, 0x10CEB); (0x10CAC, 0x10CEC);
   (0x10CAD, 0x10CED); (0x10CAE, 0x10CEE); (0x10CAF, 0x10CEF);
   (0x10CB0, 0x10CF0); (0x10CB1, 0x10CF1); (0x10CB2, 0x10CF2);
   (0x118A0, 0x118C0); (0x118A1, 0x118C1); (0x118A2, 0x118C2);
   (0x118A3, 0x118C3); (0x118A4, 0x118C4); (0x118A5, 0x118C5);
   (0x118A6, 0x118C6); (0x118A7, 0x118C7); (0x118A8, 0x118C8);
   (0x118A9, 0x118C9); (0x118AA, 0x118CA); (0x118AB, 0x118CB);
   (0x118AC, 0x118CC); (0x118AD, 0x118CD); (0x118AE, 0x118CE);
   (0x118AF, 0x118CF); (0x118B0, 0x118D0); (0x118B1, 0x118D1);
   (0x118B2, 0x118D2); (0x118B3, 0x118D3); (0x118B4, 0x118D4);
   (0x118B5, 0x118D5); (0x118B6, 0x118D6); (0x118B7, 0x118D7);
   (0x118B8, 0x118D8); (0x118B9, 0x118D9); (0x118BA, 0x118DA);
   (0x118BB, 0x118DB); (0x118BC, 0x118DC); (0x118BD, 0x118DD);
   (0x118BE, 0x118DE); (0x118BF, 0x118DF); (0x16E40, 0x16E60);
   (0x16E41, 0x16E61); (0x16E42, 0x16E62); (0x16E43, 0x16E63);
   (0x16E44, 0x16E64); (0x16E45, 0x16E65); (0x16E46, 0x16E66);
   (0x16E47, 0x16E67); (0x16E48, 0x16E68); (0x16E49, 0x16E69);
   (0x16E4A, 0x16E6A); (0x16E4B, 0x16E6B); (0x16E4C, 0x16E6C);
   (0x16E4D, 0x16E6D); (0x16E4E, 0x16E6E); (0x16E4F, 0x16E6F);
   (0x16E50, 0x16E70); (0x16E51, 0x16E71); (0x16E52, 0x16E72);
   (0x16E53, 0x16E73); (0x16E54, 0x16E74); (0x16E55, 0x16E75);
   (0x16E56, 0x16E76); (0x16E57, 0x16E77); (0x16E58, 0x16E78);
   (0x16E59, 0x16E79); (0x16E5A, 0x16E7A); (0x16E5B, 0x16E7B);
   (0x16E5C, 0x16E7C); (0x16E5D, 0x16E7D); (0x16E5E, 0x16E7E);
   (0x16E5F, 0x16E7F); (0x1E900, 0x1E922); (0x1E901, 0x1E923);
   (0x1E902, 0x1E924); (0x1E903, 0x1E925); (0x1E904, 0x1E926);
   (0x1E905, 0x1E927); (0x1E906, 0x1E928); (0x1E907, 0x1E929);
   (0x1E908, 0x1E92A); (0x1E909, 0x1E92B); (0x1E90A, 0x1E92C);
   (0x1E90B, 0x1E92D); (0x1E90C, 0x1E92E); (0x1E90D, 0x1E92F);
   (0x1E90E, 0x1E930); (0x1E90F, 0x1E931); (0x1E910, 0x1E932);
   (0x1E911, 0x1E933); (0x1E912, 0x1E934); (0x1E913, 0x1E935);
   (0x1E914, 0x1E936); (0x1E915, 0x1E937); (0x1E916, 0x1E938);
   (0x1E917, 0x1E939); (0x1E918, 0x1E93A); (0x1E919, 0x1E93B);
   (0x1E91A, 0x1E93C); (0x1E91B, 0x1E93D); (0x1E91C, 0x1E93E);
   (0x1E91D, 0x1E93F); (0x1E91E, 0x1E940); (0x1E91F, 0x1E941);
   (0x1E920, 0x1E942); (0x1E921, 0x1E943) ]%N.
(** The characters with the property [Case_Ignorable], as ranges. *)
Definition case_ignorable_ranges : list (N * N) :=
  [(0x27, 0x27); (0x2E, 0x2E); (0x3A, 0x3A); (0x5E, 0x5E); (0x60, 0x60);
   (0xA8, 0xA8); (0xAD, 0xAD); (0xAF, 0xAF); (0xB4, 0xB4); (0xB7, 0xB8);
   (0x2B0, 0x36F); (0x374, 0x375); (0x37A, 0x37A); (0x384, 0x385);
   (0x387, 0x387); (0x483, 0x489); (0x559, 0x559); (0x55F, 0x55F);
   (0x591, 0x5BD); (0x5BF, 0x5BF); (0x5C1, 0x5C2); (0x5C4, 0x5C5);
   (0x5C7, 0x5C7); (0x5F4, 0x5F4); (0x600, 0x605); (0x610, 0x61A);
   (0x61C, 0x61C); (0x640, 0x640); (0x64B, 0x65F); (0x670, 0x670);
   (0x6D6, 0x6DD); (0x6DF, 0x6E8); (0x6EA, 0x6ED); (0x70F, 0x70F);
   (0x711, 0x711); (0x730, 0x74A); (0x7A6, 0x7B0); (0x7EB, 0x7F5);
   (0x7FA, 0x7FA); (0x7FD, 0x7FD); (0x816, 0x82D); (0x859, 0x85B);
   (0x888, 0x888); (0x890, 0x891); (0x898, 0x89F); (0x8C9, 0x902);
   (0x93A, 0x93A); (0x93C, 0x93C); (0x941, 0x948); (0x94D, 0x94D);
   (0x951, 0x957); (0x962, 0x963); (0x971, 0x971); (0x981, 0x981);
   (0x9BC, 0x9BC); (0x9C1, 0x9C4); (0x9CD, 0x9CD); (0x9E2, 0x9E3);
   (0x9FE, 0x9FE); (0xA01, 0xA02); (0xA3C, 0xA3C); (0xA41, 0xA42);
   (0xA47, 0xA48); (0xA4B, 0xA4D); (0xA51, 0xA51); (0xA70, 0xA71);
   (0xA75, 0xA75); (0xA81, 0xA82); (0xABC, 0xABC); (0xAC1, 0xAC5);
   (0xAC7, 0xAC8); (0xACD, 0xACD); (0xAE2, 0xAE3); (0xAFA, 0xAFF);
   (0xB01, 0xB01); (0xB3C, 0xB3C); (0xB3F, 0xB3F); (0xB41, 0xB44);
   (0xB4D, 0xB4D); (0xB55, 0xB56); (0xB62, 0xB63); (0xB82, 0xB82);
   (0xBC0, 0xBC0); (0xBCD, 0xBCD); (0xC00, 0xC00); (0xC04, 0xC04);
   (0xC3C, 0xC3C); (0xC3E, 0xC40); (0xC46, 0xC48); (0xC4A, 0xC4D);
   (0xC55, 0xC56); (0xC62, 0xC63); (0xC81, 0xC81); (0xCBC, 0xCBC);
   (0xCBF, 0xCBF); (0xCC6, 0xCC6); (0xCCC, 0xCCD); (0xCE2, 0xCE3);
   (0xD00, 0xD01); (0xD3B, 0xD3C); (0xD41, 0xD44); (0xD4D, 0xD4D);
   (0xD62, 0xD63); (0xD81, 0xD81); (0xDCA, 0xDCA); (0xDD2, 0xDD4);
   (0xDD6, 0xDD6); (0xE31, 0xE31); (0xE34, 0xE3A); (0xE46, 0xE4E);
   (0xEB1, 0xEB1); (0xEB4, 0xEBC); (0xEC6, 0xEC6); (0xEC8, 0xECD);
   (0xF18, 0xF19); (0xF35, 0xF35); (0xF37, 0xF37); (0xF39, 0xF39);
   (0xF71, 0xF7E); (0xF80, 0xF84); (0xF86, 0xF87); (0xF8D, 0xF97);
   (0xF99, 0xFBC); (0xFC6, 0xFC6); (0x102D, 0x1030); (0x1032, 0x1037);
   (0x1039, 0x103A); (0x103D, 0x103E); (0x1058, 0x1059); (0x105E, 0x1060);
   (0x1071, 0x1074); (0x1082, 0x1082); (0x1085, 0x1086); (0x108D, 0x108D);
   (0x109D, 0x109D); (0x10FC, 0x10FC); (0x135D, 0x135F); (0x1712, 0x1714);
   (0x1732, 0x1733); (0x1752, 0x1753); (0x1772, 0x1773); (0x17B4, 0x17B5);
   (0x17B7, 0x17BD); (0x17C6, 0x17C6); (0x17C9, 0x17D3); (0x17D7, 0x17D7);
   (0x17DD, 0x17DD); (0x180B, 0x180F); (0x1843, 0x1843); (0x1885, 0x1886);
   (0x18A9, 0x18A9); (0x1920, 0x1922); (0x1927, 0x1928); (0x1932, 0x1932);
   (0x1939, 0x193B); (0x1A17, 0x1A18); (0x1A1B, 0x1A1B); (0x1A56, 0x1A56);
   (0x1A58, 0x1A5E); (0x1A60, 0x1A60); (0x1A62, 0x1A62); (0x1A65, 0x1A6C);
   (0x1A73, 0x1A7C); (0x1A7F, 0x1A7F); (0x1AA7, 0x1AA7); (0x1AB0, 0x1ACE);
   (0x1B00, 0x1B03); (0x1B34, 0x1B34); (0x1B36, 0x1B3A); (0x1B3C, 0x1B3C);
   (0x1B42, 0x1B42); (0x1B6B, 0x1B73); (0x1B80, 0x1B81); (0x1BA2, 0x1BA5);
   (0x1BA8, 0x1BA9); (0x1BAB, 0x1BAD); (0x1BE6, 0x1BE6); (0x1BE8, 0x1BE9);
   (0x1BED, 0x1BED); (0x1BEF, 0x1BF1); (0x1C2C, 0x1C33); (0x1C36, 0x1C37);
   (0x1C78, 0x1C7D); (0x1CD0, 0x1CD2); (0x1CD4, 0x1CE0); (0x1CE2, 0x1CE8);
   (0x1CED, 0x1CED); (0x1CF4, 0x1CF4); (0x1CF8, 0x1CF9); (0x1D2C, 0x1D6A);
   (0x1D78, 0x1D78); (0x1D9B, 0x1DFF); (0x1FBD, 0x1FBD); (0x1FBF, 0x1FC1);
   (0x1FCD, 0x1FCF); (0x1FDD, 0x1FDF); (0x1FED, 0x1FEF); (0x1FFD, 0x1FFE);
   (0x200B, 0x200F); (0x2018, 0x2019); (0x2024, 0x2024); (0x2027, 0x2027);
   (0x202A, 0x202E); (0x2060, 0x2064); (0x2066, 0x206F); (0x2071, 0x2071);
   (0x207F, 0x207F); (0x2090, 0x209C); (0x20D0, 0x20F0); (0x2C7C, 0x2C7D);
   (0x2CEF, 0x2CF1); (0x2D6F, 0x2D6F); (0x2D7F, 0x2D7F); (0x2DE0, 0x2DFF);
   (0x2E2F, 0x2E2F); (0x3005, 0x3005); (0x302A, 0x302D); (0x3031, 0x3035);
   (0x303B, 0x303B); (0x3099, 0x309E); (0x30FC, 0x30FE); (0xA015, 0xA015);
   (0xA4F8, 0xA4FD); (0xA60C, 0xA60C); (0xA66F, 0xA672); (0xA674, 0xA67D);
   (0xA67F, 0xA67F); (0xA69C, 0xA69F); (0xA6F0, 0xA6F1); (0xA700, 0xA721);
   (0xA770, 0xA770); (0xA788, 0xA78A); (0xA7F2, 0xA7F4); (0xA7F8, 0xA7F9);
   (0xA802, 0xA802); (0xA806, 0xA806); (0xA80B, 0xA80B); (0xA825, 0xA826);
   (0xA82C, 0xA82C); (0xA8C4, 0xA8C5); (0xA8E0, 0xA8F1); (0xA8FF, 0xA8FF);
   (0xA926, 0xA92D); (0xA947, 0xA951); (0xA980, 0xA982); (0xA9B3, 0xA9B3);
   (0xA9B6, 0xA9B9); (0xA9BC, 0xA9BD); (0xA9CF, 0xA9CF); (0xA9E5, 0xA9E6);
   (0xAA29, 0xAA2E); (0xAA31, 0xAA32); (0xAA35, 0xAA36); (0xAA43, 0xAA43);
   (0xAA4C, 0xAA4C); (0xAA70, 0xAA70); (0xAA7C, 0xAA7C); (0xAAB0, 0xAAB0);
   (0xAAB2, 0xAAB4); (0xAAB7, 0xAAB8); (0xAABE, 0xAABF); (0xAAC1, 0xAAC1);
   (0xAADD, 0xAADD); (0xAAEC, 0xAAED); (0xAAF3, 0xAAF4); (0xAAF6, 0xAAF6);
   (0xAB5B, 0xAB5F); (0xAB69, 0xAB6B); (0xABE5, 0xABE5); (0xABE8, 0xABE8);
   (0xABED, 0xABED); (0xFB1E, 0xFB1E); (0xFBB2, 0xFBC2); (0xFE00, 0xFE0F);
   (0xFE13, 0xFE13); (0xFE20, 0xFE2F); (0xFE52, 0xFE52); (0xFE55, 0xFE55);
   (0xFEFF, 0xFEFF); (0xFF07, 0xFF07); (0xFF0E, 0xFF0E); (0xFF1A, 0xFF1A);
   (0xFF3E, 0xFF3E); (0xFF40, 0xFF40); (0xFF70, 0xFF70); (0xFF9E, 0xFF9F);
   (0xFFE3, 0xFFE3); (0xFFF9, 0xFFFB); (0x101FD, 0x101FD);
   (0x102E0, 0x102E0); (0x10376, 0x1037A); (0x10780, 0x10785);
   (0x10787, 0x107B0); (0x107B2, 0x107BA); (0x10A01, 0x10A03);
   (0x10A05, 0x10A06); (0x10A0C, 0x10A0F); (0x10A38, 0x10A3A);
   (0x10A3F, 0x10A3F); (0x10AE5, 0x10AE6); (0x10D24, 0x10D27);
   (0x10EAB, 0x10EAC); (0x10F46, 0x10F50); (0x10F82, 0x10F85);
   (0x11001, 0x11001); (0x11038, 0x11046); (0x11070, 0x11070);
   (0x11073, 0x11074); (0x1107F, 0x11081); (0x110B3, 0x110B6);
   (0x110B9, 0x110BA); (0x110BD, 0x110BD); (0x110C2, 0x110C2);
   (0x110CD, 0x110CD); (0x11100, 0x11102); (0x11127, 0x1112B);
   (0x1112D, 0x11134); (0x11173, 0x11173); (0x11180, 0x11181);
   (0x111B6, 0x111BE); (0x111C9, 0x111CC); (0x111CF, 0x111CF);
   (0x1122F, 0x11231); (0x11234, 0x11234); (0x11236, 0x11237);
   (0x1123E, 0x1123E); (0x112DF, 0x112DF); (0x112E3, 0x112EA);
   (0x11300, 0x11301); (0x1133B, 0x1133C); (0x11340, 0x11340);
   (0x11366, 0x1136C); (0x11370, 0x11374); (0x11438, 0x1143F);
   (0x11442, 0x11444); (0x11446, 0x11446); (0x1145E, 0x1145E);
   (0x114B3, 0x114B8); (0x114BA, 0x114BA); (0x114BF, 0x114C0);
   (0x114C2, 0x114C3); (0x115B2, 0x115B5); (0x115BC, 0x115BD);
   (0x115BF, 0x115C0); (0x115DC, 0x115DD); (0x11633, 0x1163A);
   (0x1163D, 0x1163D); (0x1163F, 0x11640); (0x116AB, 0x116AB);
   (0x116AD, 0x116AD); (0x116B0, 0x116B5); (0x116B7, 0x116B7);
   (0x1171D, 0x1171F); (0x11722, 0x11725); (0x11727, 0x1172B);
   (0x1182F, 0x11837); (0x11839, 0x1183A); (0x1193B, 0x1193C);
   (0x1193E, 0x1193E); (0x11943, 0x11943); (0x119D4, 0x119D7);
   (0x119DA, 0x119DB); (0x119E0, 0x119E0); (0x11A01, 0x11A0A);
   (0x11A33, 0x11A38); (0x11A3B, 0x11A3E); (0x11A47, 0x11A47);
   (0x11A51, 0x11A56); (0x11A59, 0x11A5B); (0x11A8A, 0x11A96);
   (0x11A98, 0x11A99); (0x11C30, 0x11C36); (0x11C38, 0x11C3D);
   (0x11C3F, 0x11C3F); (0x11C92, 0x11CA7); (0x11CAA, 0x11CB0);
   (0x11CB2, 0x11CB3); (0x11CB5, 0x11CB6); (0x11D31, 0x11D36);
   (0x11D3A, 0x11D3A); (0x11D3C, 0x11D3D); (0x11D3F, 0x11D45);
   (0x11D47, 0x11D47); (0x11D90, 0x11D91); (0x11D95, 0x11D95);
   (0x11D97, 0x11D97); (0x11EF3, 0x11EF4); (0x13430, 0x13438);
   (0x16AF0, 0x16AF4); (0x16B30, 0x16B36); (0x16B40, 0x16B43);
   (0x16F4F, 0x16F4F); (0x16F8F, 0x16F9F); (0x16FE0, 0x16FE1);
   (0x16FE3, 0x16FE4); (0x1AFF0, 0x1AFF3); (0x1AFF5, 0x1AFFB);
   (0x1AFFD, 0x1AFFE); (0x1BC9D, 0x1BC9E); (0x1BCA0, 0x1BCA3);
   (0x1CF00, 0x1CF2D); (0x1CF30, 0x1CF46); (0x1D167, 0x1D169);
   (0x1D173, 0x1D182); (0x1D185, 0x1D18B); (0x1D1AA, 0x1D1AD);
   (0x1D242, 0x1D244); (0x1DA00, 0x1DA36); (0x1DA3B, 0x1DA6C);
   (0x1DA75, 0x1DA75); (0x1DA84, 0x1DA84); (0x1DA9B, 0x1DA9F);
   (0x1DAA1, 0x1DAAF); (0x1E000, 0x1E006); (0x1E008, 0x1E018);
   (0x1E01B, 0x1E021); (0x1E023, 0x1E024); (0x1E026, 0x1E02A);
   (0x1E130, 0x1E13D); (0x1E2AE, 0x1E2AE); (0x1E2EC, 0x1E2EF);
   (0x1E8D0, 0x1E8D6); (0x1E944, 0x1E94B); (0x1F3FB, 0x1F3FF);
   (0xE0001, 0xE0001); (0xE0020, 0xE007F); (0xE0100, 0xE01EF) ]%N.
(** The characters with the property [Cased], as ranges. *)
Definition cased_ranges : list (N * N) :=
  [(0x41, 0x5A); (0x61, 0x7A); (0xAA, 0xAA); (0xB5, 0xB5); (0xBA, 0xBA);
   (0xC0, 0xD6); (0xD8, 0xF6); (0xF8, 0x1BA); (0x1BC, 0x1BF); (0x1C4, 0x293);
   (0x295, 0x2B8); (0x2C0, 0x2C1); (0x2E0, 0x2E4); (0x345, 0x345);
   (0x370, 0x373); (0x376, 0x377); (0x37A, 0x37D); (0x37F, 0x37F);
   (0x386, 0x386); (0x388, 0x38A); (0x38C, 0x38C); (0x38E, 0x3A1);
   (0x3A3, 0x3F5); (0x3F7, 0x481); (0x48A, 0x52F); (0x531, 0x556);
   (0x560, 0x588); (0x10A0, 0x10C5); (0x10C7, 0x10C7); (0x10CD, 0x10CD);
   (0x10D0, 0x10FA); (0x10FD, 0x10FF); (0x13A0, 0x13F5); (0x13F8, 0x13FD);
   (0x1C80, 0x1C88); (0x1C90, 0x1CBA); (0x1CBD, 0x1CBF); (0x1D00, 0x1DBF);
   (0x1E00, 0x1F15); (0x1F18, 0x1F1D); (0x1F20, 0x1F45); (0x1F48, 0x1F4D);
   (0x1F50, 0x1F57); (0x1F59, 0x1F59); (0x1F5B, 0x1F5B); (0x1F5D, 0x1F5D);
   (0x1F5F, 0x1F7D); (0x1F80, 0x1FB4); (0x1FB6, 0x1FBC); (0x1FBE, 0x1FBE);
   (0x1FC2, 0x1FC4); (0x1FC6, 0x1FCC); (0x1FD0, 0x1FD3); (0x1FD6, 0x1FDB);
   (0x1FE0, 0x1FEC); (0x1FF2, 0x1FF4); (0x1FF6, 0x1FFC); (0x2071, 0x2071);
   (0x207F, 0x207F); (0x2090, 0x209C); (0x2102, 0x2102); (0x2107, 0x2107);
   (0x210A, 0x2113); (0x2115, 0x2115); (0x2119, 0x211D); (0x2124, 0x2124);
   (0x2126, 0x2126); (0x2128, 0x2128); (0x212A, 0x212D); (0x212F, 0x2134);
   (0x2139, 0x2139); (0x213C, 0x213F); (0x2145, 0x2149); (0x214E, 0x214E);
   (0x2160, 0x217F); (0x2183, 0x2184); (0x24B6, 0x24E9); (0x2C00, 0x2CE4);
   (0x2CEB, 0x2CEE); (0x2CF2, 0x2CF3); (0x2D00, 0x2D25); (0x2D27, 0x2D27);
   (0x2D2D, 0x2D2D); (0xA640, 0xA66D); (0xA680, 0xA69D); (0xA722, 0xA787);
   (0xA78B, 0xA78E); (0xA790, 0xA7CA); (0xA7D0, 0xA7D1); (0xA7D3, 0xA7D3);
   (0xA7D5, 0xA7D9); (0xA7F5, 0xA7F6); (0xA7F8, 0xA7FA); (0xAB30, 0xAB5A);
   (0xAB5C, 0xAB68); (0xAB70, 0xABBF); (0xFB00, 0xFB06); (0xFB13, 0xFB17);
   (0xFF21, 0xFF3A); (0xFF41, 0xFF5A); (0x10400, 0x1044F);
   (0x104B0, 0x104D3); (0x104D8, 0x104FB); (0x10570, 0x1057A);
   (0x1057C, 0x1058A); (0x1058C, 0x10592); (0x10594, 0x10595);
   (0x10597, 0x105A1); (0x105A3, 0x105B1); (0x105B3, 0x105B9);
   (0x105BB, 0x105BC); (0x10780, 0x10780); (0x10783, 0x10785);
   (0x10787, 0x107B0); (0x107B2, 0x107BA); (0x10C80, 0x10CB2);
   (0x10CC0, 0x10CF2); (0x118A0, 0x118DF); (0x16E40, 0x16E7F);
   (0x1D400, 0x1D454); (0x1D456, 0x1D49C); (0x1D49E, 0x1D49F);
   (0x1D4A2, 0x1D4A2); (0x1D4A5, 0x1D4A6); (0x1D4A9, 0x1D4AC);
   (0x1D4AE, 0x1D4B9); (0x1D4BB, 0x1D4BB); (0x1D4BD, 0x1D4C3);
   (0x1D4C5, 0x1D505); (0x1D507, 0x1D50A); (0x1D50D, 0x1D514);
   (0x1D516, 0x1D51C); (0x1D51E, 0x1D539); (0x1D53B, 0x1D53E);
   (0x1D540, 0x1D544); (0x1D546, 0x1D546); (0x1D54A, 0x1D550);
   (0x1D552, 0x1D6A5); (0x1D6A8, 0x1D6C0); (0x1D6C2, 0x1D6DA);
   (0x1D6DC, 0x1D6FA); (0x1D6FC, 0x1D714); (0x1D716, 0x1D734);
   (0x1D736, 0x1D74E); (0x1D750, 0x1D76E); (0x1D770, 0x1D788);
   (0x1D78A, 0x1D7A8); (0x1D7AA, 0x1D7C2); (0x1D7C4, 0x1D7CB);
   (0x1DF00, 0x1DF09); (0x1DF0B, 0x1DF1E); (0x1E900, 0x1E943);
   (0x1F130, 0x1F149); (0x1F150, 0x1F169); (0x1F170, 0x1F189) ]%N.
Definition case_ignorable (c : string) : bool :=
  in_ranges (ord c) case_ignorable_ranges.

Definition cased (c : string) : bool := in_ranges (ord c) cased_ranges.

Fixpoint assoc (n : N) (table : list (N * N)) : option N :=
  match table with
  | [] => None
  | (k, v) :: rest => if (k =? n)%N then Some v else assoc n rest
  end.

(** The lower-case form of one character, without regard to what is around
    it: U+0130 gives two characters, the others at most one. *)
Definition to_lower_full (c : string) : string :=
  if (ord c =? 0x130)%N then chr 0x69 +:+ chr 0x307
  else match assoc (ord c) lowercase with
       | Some m => chr m
       | None => c
       end.

(** Whether no cased letter follows, case-ignorable characters skipped. *)
Fixpoint final_after (cs : list string) : bool :=
  match cs with
  | [] => true
  | c :: rest => if case_ignorable c then final_after rest else negb (cased c)
  end.

(** The characters of [s.lower()], given whether the last character before
    them that is not case-ignorable is cased.  The capital sigma (U+03A3)
    becomes the final sigma (U+03C2) at the end of a word and the small
    sigma (U+03C3) elsewhere. *)
Fixpoint lower_chars (after_cased : bool) (cs : list string) : list string :=
  match cs with
  | [] => []
  | c :: rest =>
      (if (ord c =? 0x3A3)%N
       then chr (if after_cased && final_after rest then 0x3C2 else 0x3C3)
       else to_lower_full c)
      :: lower_chars (if case_ignorable c then after_cased else cased c) rest
  end.

(** [s.lower()] *)
Definition lower (s : string) : string :=
  match chars s with
  | Some cs => join (lower_chars false cs)
  | None => s
  end.

(** [s.replace(old, new)] for one-character [old] and [new]: every
    occurrence is replaced. *)
Fixpoint replace (old new : ascii) (s : string) : string :=
  match s with
  | EmptyString => EmptyString
  | String c rest =>
      String (if Ascii.eqb c old then new else c) (replace old new rest)
  end.

(** [c in s] *)
Fixpoint contains (c : ascii) (s : string) : bool :=
  match s with
  | EmptyString => false
  | String d rest => Ascii.eqb d c || contains c rest
  end.

(** [s.rstrip(c)] for a one-character argument. *)
Fixpoint rstrip (c : ascii) (s : string) : string :=
  match s with
  | EmptyString => EmptyString
  | String d rest =>
      match rstrip c rest with
      | EmptyString => if Ascii.eqb d c then EmptyString else String d EmptyString
      | r => String d r
      end
  end.

(** [s.split(sep)] for a one-character separator. *)
Fixpoint split (sep : ascii) (s : string) : list string :=
  match s with
  | EmptyString => [EmptyString]
  | String c rest =>
      if Ascii.eqb c sep then EmptyString :: split sep rest
      else match split sep rest with
           | [] => [String c EmptyString]
           | w :: ws => String c w :: ws
           end
  end.

(** A character that lower-casing leaves as it is, wherever it stands. *)
Definition lower_fixed (c : string) : bool :=
  negb (ord c =? 0x3A3)%N && String.eqb (to_lower_full c) c.

(** A string whose characters lower-casing leaves as they are (or that is
    no encoding of a [str], and is left alone altogether). *)
Definition lowered (s : string) : Prop :=
  match chars s with
  | Some cs => Forall (λ c, lower_fixed c = true) cs
  | None => True
  end.

(** The lower-case form [m] of a table entry is one character, which
    lower-casing leaves as it is. *)
Definition well_lowered (m : N) : bool :=
  match chars (chr m) with
  | Some [c] => String.eqb c (chr m) && lower_fixed c
  | _ => false
  end.

End PyStr.

(** ** [ElasticBackend.es_id] *)

(** [return collection_id.lower().replace(':', '-')] *)
Definition es_id (collection_id : string) : string :=
  PyStr.replace ":" "-" (PyStr.lower collection_id).

(** An identifier that is already in normal form: lower-casing leaves it
    as it is, and it has no colon. *)
Definition es_friendly (s : string) : bool :=
  String.eqb (PyStr.lower s) s && negb (PyStr.contains ":" s).

(** ** JSON values

    What the client library puts on the wire and what the engine stores:
    request bodies, index settings and document sources. *)

Inductive json : Type :=
| JNull
| JBool (b : bool)
| JInt (z : Z)
| JStr (s : string)
| JDate (t : Z)
| JArr (items : list json)
| JObj (fields : gmap string json).

Definition json_get (k : string) (j : json) : option json :=
  match j with
  | JObj fields => fields !! k
  | _ => None
  end.

(** The value at a path of keys, e.g. [["properties"; "id"]]. *)
Fixpoint json_path (path : list string) (j : json) : option json :=
  match path with
  | [] => Some j
  | k :: rest =>
      match json_get k j with
      | Some j' => json_path rest j'
      | None => None
      end
  end.

(** ** Python values and the heap of dict objects

    A feature is a dict object; [feature['properties']] is a reference to
    another dict object.  Item assignment writes to the object a reference
    points to, whoever else holds a reference to it. *)

Inductive pyval : Type :=
| VNone
| VBool (b : bool)
| VInt (z : Z)
| VStr (s : string)
| VDate (t : Z)
| VRef (l : positive).

Abbreviation Heap := (gmap positive (gmap string pyval)).

(** Exceptions of the [elasticsearch] client ([TransportError] and its
    subclasses, [ConnectionError], ...): the class and [str(err)]. *)
Inductive EsException : Type :=
| EsError (class_name : string) (text : string).

Inductive PyExn : Type :=
| RuntimeError (msg : string) (context : option PyExn)
| KeyError (key : string)
| TypeError (msg : string)
| ValueError (msg : string)
| BulkIndexError (errors : list string)
| ClientException (e : EsException).

(** [str(err)] *)
Definition exc_str (err : PyExn) : string :=
  match err with
  | RuntimeError msg _ => msg
  | KeyError key => "'" +:+ key +:+ "'"
  | TypeError msg => msg
  | ValueError msg => msg
  | BulkIndexError errors =>
      pretty (List.length errors) +:+ " document(s) failed to index."
  | ClientException (EsError _ text) => text
  end.

(** [obj[key]] *)
Definition getitem (h : Heap) (obj : pyval) (key : string) : PyExn + pyval :=
  match obj with
  | VRef l =>
      match h !! l with
      | Some d =>
          match d !! key with
          | Some v => inr v
          | None => inl (KeyError key)
          end
      | None => inl (TypeError "object is not subscriptable")
      end
  | _ => inl (TypeError "object is not subscriptable")
  end.

(** [obj[key] = v] *)
Definition setitem (h : Heap) (obj : pyval) (key : string) (v : pyval)
  : PyExn + Heap :=
  match obj with
  | VRef l =>
      match h !! l with
      | Some d => inr (<[l := <[key := v]> d]> h)
      | None => inl (TypeError "object does not support item assignment")
      end
  | _ => inl (TypeError "object does not support item assignment")
  end.

(** JSON serialisation of a Python value, as the client's serializer does
    when a request body is built.  [depth] bounds the nesting; a dict
    reachable from itself exhausts every bound. *)
Fixpoint dumps_depth (depth : nat) (h : Heap) (v : pyval) : option json :=
  match v with
  | VNone => Some JNull
  | VBool b => Some (JBool b)
  | VInt z => Some (JInt z)
  | VStr s => Some (JStr s)
  | VDate t => Some (JDate t)
  | VRef l =>
      match depth with
      | O => None
      | S depth' =>
          match h !! l with
          | Some d =>
              let fields := dumps_depth depth' h <$> d in
              if bool_decide (map_Forall (λ _ (o : option json), is_Some o) fields)
              then Some (JObj (omap id fields))
              else None
          | None => None
          end
      end
  end.

(** [serializer.dumps(v)]: a chain of nested dicts longer than the number of
    objects in the heap goes through one of them twice, which is Python's
    circular reference [ValueError]. *)
Definition dumps (h : Heap) (v : pyval) : PyExn + json :=
  match dumps_depth (S (size h)) h v with
  | Some j => inr j
  | None => inl (ValueError "Circular reference detected")
  end.

(** ** Requests to the engine *)

(** One bulk write instruction after [expand_action] and serialisation. *)
Record Action : Type := mkAction {
  _index : string;
  _id : json;
  _source : json
}.

Inductive Req : Type :=
| ReqIndicesExists (index : string)
| ReqIndicesCreate (index : string) (body : json)
| ReqIndicesDelete (index : string)
| ReqIndicesGet (pattern : string)
| ReqBulk (actions : list Action)
| ReqDelete (index : string) (id : string)
| ReqDeleteByQuery (index : string) (body : json).

(** The index a request addresses ([None] for a bulk request, whose
    instructions each name their own, see [req_actions]). *)
Definition req_index (r : Req) : option string :=
  match r with
  | ReqIndicesExists index => Some index
  | ReqIndicesCreate index _ => Some index
  | ReqIndicesDelete index => Some index
  | ReqIndicesGet pattern => Some pattern
  | ReqBulk _ => None
  | ReqDelete index _ => Some index
  | ReqDeleteByQuery index _ => Some index
  end.

Definition req_actions (r : Req) : list Action :=
  match r with
  | ReqBulk actions => actions
  | _ => []
  end.

(** All indices a request names. *)
Definition req_indices (r : Req) : list string :=
  match req_index r with
  | Some index => [index]
  | None => _index <$> req_actions r
  end.

(** Every request among [rs] names the index [index] and no other. *)
Definition all_address (index : string) (rs : list Req) : Prop :=
  Forall (λ q, Forall (λ i, i = index) (req_indices q)) rs.

(** The interface of the connection [self.conn]: each call answers with a
    value or raises, and moves the engine to a new state.  [conn_elapsed]
    is the wall-clock time a request takes. *)
Class EsClient (E : Type) : Type := {
  conn_indices_exists : string → E → (EsException + bool) * E;
  conn_indices_create : string → json → E → (EsException + unit) * E;
  conn_indices_delete : string → E → (EsException + unit) * E;
  conn_indices_get : string → E → (EsException + list string) * E;
  conn_bulk : list Action → E → (EsException + list (option string)) * E;
  conn_delete : string → string → E → (EsException + json) * E;
  conn_delete_by_query : string → json → E → (EsException + json) * E;
  conn_elapsed : Req → E → Z
}.

(** ** The world the backend runs in *)

Inductive Level : Type := WARNING | ERROR.

(** State threaded through the backend's methods: the engine behind
    [self.conn], the heap of the caller's dict objects, the wall clock, the
    requests sent so far and the records of the module's [LOGGER] (at
    WARNING and above; DEBUG records are not kept). *)
Record World (E : Type) : Type := mkWorld {
  conn : E;
  heap : Heap;
  clock : Z;
  trace : list Req;
  LOGGER : list (Level * string)
}.
Arguments mkWorld {E}.
Arguments conn {E}.
Arguments heap {E}.
Arguments clock {E}.
Arguments trace {E}.
Arguments LOGGER {E}.

Definition set_heap {E} (w : World E) (h : Heap) : World E :=
  mkWorld (conn w) h (clock w) (trace w) (LOGGER w).

(** A computation that returns a value or raises. *)
Definition M (E A : Type) : Type := World E → (PyExn + A) * World E.

Definition ret {E A} (a : A) : M E A := λ w, (inr a, w).

Definition bind {E A B} (m : M E A) (k : A → M E B) : M E B :=
  λ w, match m w with
       | (inl e, w') => (inl e, w')
       | (inr a, w') => k a w'
       end.

Notation "'let*' x ':=' c 'in' k" := (bind c (λ x, k))
  (at level 10, x pattern, c at level 200, k at level 200).

(** [raise e] *)
Definition raise {E A} (e : PyExn) : M E A := λ w, (inl e, w).

(** [try: body / except Exception as err: handler(err)] *)
Definition try_except {E A} (body : M E A) (handler : PyExn → M E A) : M E A :=
  λ w, match body w with
       | (inl err, w') => handler err w'
       | (inr a, w') => (inr a, w')
       end.

(** Lifting of a pure operation that may raise. *)
Definition lift {E A} (r : PyExn + A) : M E A := λ w, (r, w).

Definition log {E} (level : Level) (msg : string) : M E unit :=
  λ w, (inr tt, mkWorld (conn w) (heap w) (clock w) (trace w)
                        (LOGGER w ++ [(level, msg)])).

Definition py_getitem {E} (obj : pyval) (key : string) : M E pyval :=
  λ w, (getitem (heap w) obj key, w).

Definition py_setitem {E} (obj : pyval) (key : string) (v : pyval) : M E unit :=
  λ w, match setitem (heap w) obj key v with
       | inr h' => (inr tt, mkWorld (conn w) h' (clock w) (trace w) (LOGGER w))
       | inl e => (inl e, w)
       end.

Definition py_dumps {E} (v : pyval) : M E json :=
  λ w, (dumps (heap w) v, w).

(** [for x in xs: body(x)] *)
Fixpoint for_each {E A} (xs : list A) (body : A → M E unit) : M E unit :=
  match xs with
  | [] => ret tt
  | x :: rest => let* _ := body x in for_each rest body
  end.

(** Modelled from the spec: [pygeobox.util.datetime_days_ago] is not among
    the sources; the specification gives the threshold as the current time
    minus [days].  The clock is read at the call. *)
Definition datetime_days_ago {E} (days : Z) : M E Z :=
  λ w, (inr (clock w - days * 86400), w).

(** ** The index settings *)

Definition keyword_raw : json :=
  JObj {[ "raw" := JObj {[ "type" := JStr "keyword" ]} ]}.

Definition coerced_float : json :=
  JObj {[ "type" := JStr "float"; "coerce" := JBool true ]}.

(** [SETTINGS], the default index settings. *)
Definition SETTINGS : json :=
  JObj {[
    "settings" := JObj {[ "number_of_shards" := JInt 1;
                          "number_of_replicas" := JInt 0 ]};
    "mappings" := JObj {[
      "properties" := JObj {[
        "geometry" := JObj {[ "type" := JStr "geo_shape" ]};
        "reportId" := JObj {[ "type" := JStr "text"; "fields" := keyword_raw ]};
        "properties" := JObj {[
          "properties" := JObj {[
            "resultTime" := JObj {[ "type" := JStr "date"; "fields" := keyword_raw ]};
            "pubTime" := JObj {[ "type" := JStr "date"; "fields" := keyword_raw ]};
            "phenomenonTime" := JObj {[ "type" := JStr "text" ]};
            "wigos_station_identifier" :=
              JObj {[ "type" := JStr "text"; "fields" := keyword_raw ]};
            "value" := coerced_float;
            "metadata" := JObj {[
              "properties" := JObj {[ "value" := coerced_float ]} ]}
          ]}
        ]}
      ]}
    ]}
  ]}.

(** ** [ElasticBackend] *)

(** The failures of the backend are [RuntimeError]s told apart by their
    message; these are the three the specification names. *)
Definition CollectionExistsError (es_index : string) : PyExn :=
  RuntimeError ("index " +:+ es_index +:+ " exists") None.

Definition CollectionNotFoundError (es_index : string) : PyExn :=
  RuntimeError ("index " +:+ es_index +:+ " does not exist") None.

Definition ItemDeletionError (cause : PyExn) : PyExn :=
  RuntimeError ("Item deletion failed: " +:+ exc_str cause) (Some cause).

(** What the client raises when a required argument is empty. *)
Definition EmptyIndex : PyExn :=
  ValueError "Empty value passed for a required argument 'index'.".

Definition EmptyArgument : PyExn :=
  ValueError "Empty value passed for a required argument.".

Section Backend.

Context {E : Type} `{!EsClient E}.

(** A call on [self.conn]: the request is sent (and recorded), the engine
    moves, time passes, and the answer is returned or its exception raised. *)
Definition after_request (r : Req) (e' : E) (w : World E) : World E :=
  mkWorld e' (heap w) (clock w + conn_elapsed r (conn w)) (trace w ++ [r])
          (LOGGER w).

Definition request {A} (r : Req) (call : E → (EsException + A) * E) : M E A :=
  λ w, let '(answer, e') := call (conn w) in
       match answer with
       | inl err => (inl (ClientException err), after_request r e' w)
       | inr a => (inr a, after_request r e' w)
       end.

(** The methods of the [elasticsearch] client refuse an empty value for a
    required argument (the library's [SKIP_IN_PATH]) with a [ValueError],
    before anything is sent.  (The retention sweep passes the constant
    ["*"] and the names the engine itself has listed.) *)
Definition required {A} (arguments : list string) (refusal : PyExn)
    (call : M E A) : M E A :=
  if existsb (String.eqb "") arguments then raise refusal else call.

(** [self.conn.indices.exists(index)] *)
Definition client_indices_exists (index : string) : M E bool :=
  required [index] EmptyIndex
    (request (ReqIndicesExists index) (conn_indices_exists index)).

(** [self.conn.indices.create(index=index, body=body)] *)
Definition client_indices_create (index : string) (body : json) : M E unit :=
  required [index] EmptyIndex
    (request (ReqIndicesCreate index body) (conn_indices_create index body)).

(** [self.conn.indices.delete(index=index)] *)
Definition client_indices_delete (index : string) : M E unit :=
  required [index] EmptyIndex
    (request (ReqIndicesDelete index) (conn_indices_delete index)).

(** [self.conn.delete(index=index, id=id)] *)
Definition client_delete (index id : string) : M E json :=
  required [index; id] EmptyArgument
    (request (ReqDelete index id) (conn_delete index id)).

Definition has_collection (collection_id : string) : M E bool :=
  let es_index := es_id collection_id in
  client_indices_exists es_index.

Definition add_collection (collection_id : string) : M E bool :=
  let es_index := es_id collection_id in
  let* present := has_collection collection_id in
  if (present : bool) then
    let msg := "index " +:+ es_index +:+ " exists" in
    let* _ := log ERROR msg in
    raise (RuntimeError msg None)
  else
    let settings := SETTINGS in
    let* _ := client_indices_create es_index settings in
    has_collection collection_id.

Definition delete_collection (collection_id : string) : M E bool :=
  let es_index := es_id collection_id in
  let* present := has_collection collection_id in
  if negb present then
    let msg := "index " +:+ es_index +:+ " does not exist" in
    let* _ := log ERROR msg in
    raise (RuntimeError msg None)
  else
    let* still := client_indices_exists es_index in
    let* _ := if (still : bool)
              then client_indices_delete es_index
              else ret tt in
    let* present' := has_collection collection_id in
    ret (negb present').

(** One turn of the generator [gendata]: the loop body up to and including
    the [yield].  The yielded dict refers to the feature object itself. *)
Definition gendata_step (es_index : string) (feature : pyval)
  : M E (string * pyval * pyval) :=
  let* id := py_getitem feature "id" in
  let* properties := py_getitem feature "properties" in
  let* _ := py_setitem properties "id" id in
  let* _id := py_getitem feature "id" in
  ret (es_index, _id, feature).

(** The generator [gendata(features)]: a suspended turn per feature, run
    only when the consumer asks for the next value. *)
Definition gendata (es_index : string) (features : list pyval)
  : list (M E (string * pyval * pyval)) :=
  gendata_step es_index <$> features.

(** [expand_action] and the serialisation in [_chunk_actions] of the client
    library: the metadata line, then the document, are turned into JSON as
    soon as the action has been pulled from the generator. *)
Definition expand_action (a : string * pyval * pyval) : M E Action :=
  let '(index, id, source) := a in
  let* jid := py_dumps id in
  let* jsource := py_dumps source in
  ret (mkAction index jid jsource).

(** [_process_bulk_chunk] with [raise_on_error=True]. *)
Definition process_bulk_chunk (bulk_actions : list Action) : M E unit :=
  let* results := request (ReqBulk bulk_actions) (conn_bulk bulk_actions) in
  match omap id (results : list (option string)) with
  | [] => ret tt
  | errors => raise (BulkIndexError errors)
  end.

(** [streaming_bulk] over [_chunk_actions]: an action is pulled, serialised
    and appended to the pending chunk; a chunk that already holds
    [chunk_size] actions is sent before the new action is appended, and
    what is pending at the end of the generator is sent last.  (The byte
    limit [max_chunk_bytes] is not modelled.) *)
Fixpoint streaming_bulk (chunk_size : nat)
    (actions : list (M E (string * pyval * pyval)))
    (bulk_actions : list Action) : M E unit :=
  match actions with
  | [] =>
      match bulk_actions with
      | [] => ret tt
      | _ => process_bulk_chunk bulk_actions
      end
  | next :: rest =>
      let* raw := next in
      let* action := expand_action raw in
      match bulk_actions with
      | _ :: _ =>
          if (List.length bulk_actions =? chunk_size)%nat then
            let* _ := process_bulk_chunk bulk_actions in
            streaming_bulk chunk_size rest [action]
          else streaming_bulk chunk_size rest (bulk_actions ++ [action])
      | [] => streaming_bulk chunk_size rest [action]
      end
  end.

(** [helpers.bulk(conn, actions)] with the library's default chunk size. *)
Definition helpers_bulk (actions : list (M E (string * pyval * pyval)))
  : M E unit :=
  streaming_bulk 500 actions [].

Definition upsert_collection_items (collection_id : string)
    (items : list pyval) : M E unit :=
  let es_index := es_id collection_id in
  let* present := has_collection collection_id in
  let* _ := if negb present then
              let* _ := log WARNING
                ("Index " +:+ es_index +:+ " does not exist.  Creating") in
              let* _ := add_collection es_index in
              ret tt
            else ret tt in
  helpers_bulk (gendata es_index items).

Definition delete_collection_item (collection_id item_id : string) : M E bool :=
  let* _ :=
    try_except
      (let* _ := client_delete collection_id item_id in
       ret tt)
      (λ err,
         let msg := "Item deletion failed: " +:+ exc_str err in
         let* _ := log ERROR msg in
         raise (RuntimeError msg (Some err))) in
  ret true.

Definition range_lte (field : string) (before : Z) : json :=
  JObj {[ "range" := JObj {[ field := JObj {[ "lte" := JDate before ]} ]} ]}.

(** The dict [query_by_date]. *)
Definition query_by_date (before : Z) : json :=
  JObj {[ "query" := JObj {[ "bool" := JObj {[ "should" := JArr [
    range_lte "properties.resultTime" before;
    range_lte "properties.pubTime" before ] ]} ]} ]}.

Definition delete_collections_by_retention (days : Z) : M E unit :=
  let* indices := request (ReqIndicesGet "*") (conn_indices_get "*") in
  let* before := datetime_days_ago days in
  let query_by_date := query_by_date before in
  let* _ := for_each indices (λ index,
              let* _ := request (ReqDeleteByQuery index query_by_date)
                                (conn_delete_by_query index query_by_date) in
              ret tt) in
  ret tt.

End Backend.

(** ** A reference engine

    An in-memory engine with the documented behaviour of the calls the
    backend makes: an index has a creation body and documents keyed by id;
    creating an index that exists and deleting what does not exist are
    errors; a bulk index instruction creates or replaces the document (and
    the index, when absent); delete-by-query removes the matching documents.
    An index is created only under a name the engine accepts
    ([valid_index_name]).  A name stands for itself: index expressions
    (wild cards, lists of names) are resolved only by [indices.get], where
    the backend uses one.  No request is lost. *)

Record EsIndex : Type := mkIndex {
  ix_body : json;
  ix_docs : gmap string json
}.

Record RefEngine : Type := mkEngine {
  indices : gmap string EsIndex;
  request_seconds : Z
}.

Definition set_indices (e : RefEngine) (ixs : gmap string EsIndex) : RefEngine :=
  mkEngine ixs (request_seconds e).

Definition not_found (what : string) : EsException :=
  EsError "NotFoundError" what.

Definition index_exists (e : RefEngine) (index : string) : bool :=
  match indices e !! index with
  | Some _ => true
  | None => false
  end.

Definition ref_indices_exists (index : string) (e : RefEngine)
  : (EsException + bool) * RefEngine :=
  (inr (index_exists e index), e).

(** The characters an index name may not hold. *)
Definition forbidden_chars : list ascii :=
  ["\"; "/"; "*"; "?"; "034"; "<"; ">"; "|"; " "; ","; "#"; ":"]%char.

(** The first character of a string, if any. *)
Definition head_char (s : string) : option ascii :=
  match s with
  | String c _ => Some c
  | EmptyString => None
  end.

(** The names the engine accepts for an index: not empty, at most 255
    bytes, lower case, without the forbidden characters, not starting with
    [_], [-] or [+], and neither [.] nor [..]. *)
Definition valid_index_name (name : string) : bool :=
  negb (String.eqb name "")
  && (String.length name <=? 255)%nat
  && String.eqb (PyStr.lower name) name
  && forallb (λ c, negb (PyStr.contains c name)) forbidden_chars
  && match head_char name with
     | Some c => negb (bool_decide (c ∈ ["_"; "-"; "+"]%char))
     | None => false
     end
  && negb (String.eqb name ".") && negb (String.eqb name "..").

Definition invalid_index_name : EsException :=
  EsError "RequestError" "invalid_index_name_exception".

Definition ref_indices_create (index : string) (body : json) (e : RefEngine)
  : (EsException + unit) * RefEngine :=
  match indices e !! index with
  | Some _ => (inl (EsError "RequestError" "resource_already_exists_exception"), e)
  | None =>
      if valid_index_name index
      then (inr tt, set_indices e (<[index := mkIndex body ∅]> (indices e)))
      else (inl invalid_index_name, e)
  end.

Definition ref_indices_delete (index : string) (e : RefEngine)
  : (EsException + unit) * RefEngine :=
  match indices e !! index with
  | Some _ => (inr tt, set_indices e (delete index (indices e)))
  | None => (inl (not_found "index_not_found_exception"), e)
  end.

(** [indices.get(pattern)]: the names matched; ["*"] matches every index,
    any other pattern is taken as a name. *)
Definition ref_indices_get (pattern : string) (e : RefEngine)
  : (EsException + list string) * RefEngine :=
  if String.eqb pattern "*" then (inr (map_to_list (indices e)).*1, e)
  else match indices e !! pattern with
       | Some _ => (inr [pattern], e)
       | None => (inl (not_found "index_not_found_exception"), e)
       end.

(** The document key of a bulk instruction. *)
Definition doc_key (id : json) : option string :=
  match id with
  | JStr s => Some s
  | JInt z => Some (pretty z)
  | _ => None
  end.

(** One [index] instruction of a bulk request: the error of the item, if
    any, and the indices after it.  An index that is absent is created,
    when its name is one the engine accepts. *)
Definition index_doc (a : Action) (ixs : gmap string EsIndex)
  : option string * gmap string EsIndex :=
  match doc_key (_id a), _source a with
  | Some key, JObj _ =>
      if bool_decide (is_Some (ixs !! _index a)) || valid_index_name (_index a)
      then
        let ix := default (mkIndex (JObj ∅) ∅) (ixs !! _index a) in
        (None, <[_index a := mkIndex (ix_body ix) (<[key := _source a]> (ix_docs ix))]> ixs)
      else (Some "invalid_index_name_exception", ixs)
  | None, _ => (Some "illegal_argument_exception", ixs)
  | _, _ => (Some "mapper_parsing_exception", ixs)
  end.

Fixpoint index_docs (actions : list Action) (ixs : gmap string EsIndex)
  : list (option string) * gmap string EsIndex :=
  match actions with
  | [] => ([], ixs)
  | a :: rest =>
      let '(r, ixs') := index_doc a ixs in
      let '(rs, ixs'') := index_docs rest ixs' in
      (r :: rs, ixs'')
  end.

Definition ref_bulk (actions : list Action) (e : RefEngine)
  : (EsException + list (option string)) * RefEngine :=
  let '(results, ixs) := index_docs actions (indices e) in
  (inr results, set_indices e ixs).

Definition ref_delete (index id : string) (e : RefEngine)
  : (EsException + json) * RefEngine :=
  match indices e !! index with
  | Some ix =>
      match ix_docs ix !! id with
      | Some _ =>
          (inr (JObj {[ "result" := JStr "deleted" ]}),
           set_indices e (<[index := mkIndex (ix_body ix) (delete id (ix_docs ix))]> (indices e)))
      | None => (inl (not_found "not_found"), e)
      end
  | None => (inl (not_found "index_not_found_exception"), e)
  end.

(** The part of the query language the backend uses: a [bool] query whose
    [should] clauses are [range] clauses with an [lte] bound on a date
    field, the field given as a dotted path. *)
Definition parse_range (clause : json) : option (list string * Z) :=
  match json_get "range" clause with
  | Some (JObj r) =>
      match map_to_list r with
      | [(field, cond)] =>
          match json_get "lte" cond with
          | Some (JDate t) => Some (PyStr.split "." field, t)
          | _ => None
          end
      | _ => None
      end
  | _ => None
  end.

Definition parse_query (body : json) : option (list (list string * Z)) :=
  match json_path ["query"; "bool"; "should"] body with
  | Some (JArr clauses) => mapM parse_range clauses
  | _ => None
  end.

(** A document matches [lte] when it has a date at the path and the date is
    at or before the bound. *)
Definition range_matches (doc : json) (r : list string * Z) : bool :=
  match json_path r.1 doc with
  | Some (JDate d) => (d <=? r.2)%Z
  | _ => false
  end.

(** With [should] clauses only, at least one of them has to match. *)
Definition query_matches (ranges : list (list string * Z)) (doc : json) : bool :=
  match ranges with
  | [] => true
  | _ => existsb (range_matches doc) ranges
  end.

Definition ref_delete_by_query (index : string) (body : json) (e : RefEngine)
  : (EsException + json) * RefEngine :=
  match indices e !! index with
  | Some ix =>
      match parse_query body with
      | Some ranges =>
          let kept := filter (λ kv, query_matches ranges kv.2 = false) (ix_docs ix) in
          (inr (JObj {[ "deleted" := JInt (Z.of_nat (size (ix_docs ix) - size kept)) ]}),
           set_indices e (<[index := mkIndex (ix_body ix) kept]> (indices e)))
      | None => (inl (EsError "RequestError" "parsing_exception"), e)
      end
  | None => (inl (not_found "index_not_found_exception"), e)
  end.

#[export] Instance RefEngine_client : EsClient RefEngine := {|
  conn_indices_exists := ref_indices_exists;
  conn_indices_create := ref_indices_create;
  conn_indices_delete := ref_indices_delete;
  conn_indices_get := ref_indices_get;
  conn_bulk := ref_bulk;
  conn_delete := ref_delete;
  conn_delete_by_query := ref_delete_by_query;
  conn_elapsed := λ _ e, request_seconds e
|}.

(** The world of a fresh process talking to engine [e] at time [t], with
    the caller's objects in [h]. *)
Definition world (e : RefEngine) (h : Heap) (t : Z) : World RefEngine :=
  mkWorld e h t [] [].

(** ** A scripted client

    A test double: the answers to the existence checks are given in
    advance ([False] once they are used up), every other request is
    acknowledged, and nothing is stored. *)

Record Scripted : Type := mkScripted {
  script : list bool
}.

Definition scripted_exists (index : string) (e : Scripted)
  : (EsException + bool) * Scripted :=
  match script e with
  | answer :: rest => (inr answer, mkScripted rest)
  | [] => (inr false, e)
  end.

#[export] Instance Scripted_client : EsClient Scripted := {|
  conn_indices_exists := scripted_exists;
  conn_indices_create := λ _ _ e, (inr tt, e);
  conn_indices_delete := λ _ e, (inr tt, e);
  conn_indices_get := λ _ e, (inr [], e);
  conn_bulk := λ actions e, (inr ((λ _, None) <$> actions), e);
  conn_delete := λ _ _ e, (inr (JObj ∅), e);
  conn_delete_by_query := λ _ _ e, (inr (JObj ∅), e);
  conn_elapsed := λ _ _, 0
|}.


(** ** What the claims about [upsert_collection_items] speak of *)

(** A written document whose [properties.id] is its top-level [id], which
    is also the key it is written under. *)
Definition enriched (a : Action) : Prop :=
  json_path ["id"] (_source a) = Some (_id a)
  ∧ json_path ["properties"; "id"] (_source a) = Some (_id a).

(** The bulk instructions among a list of requests, in order. *)
Definition written (rs : list Req) : list Action :=
  rs ≫= req_actions.

(** The heap after one turn of [gendata] on [feature]: the assignment
    [feature['properties']['id'] = feature['id']], when it goes through. *)
Definition enrich (h : Heap) (feature : pyval) : Heap :=
  match getitem h feature "id", getitem h feature "properties" with
  | inr id, inr properties =>
      match setitem h properties "id" id with
      | inr h' => h'
      | inl _ => h
      end
  | _, _ => h
  end.

(** A field of a dict object. *)
Definition field (h : Heap) (l : positive) (key : string) : option pyval :=
  match h !! l with
  | Some d => d !! key
  | None => None
  end.

(** [a] is the bulk instruction for [item] as the heap [h] has it: it goes
    to [es_index], its key is the item's top-level [id] and its source is
    the item, both serialised. *)
Definition instruction (es_index : string) (h : Heap) (item : pyval)
    (a : Action) : Prop :=
  ∃ id, getitem h item "id" = inr id
        ∧ dumps h id = inr (_id a)
        ∧ dumps h item = inr (_source a)
        ∧ _index a = es_index.

(** [acts] are the bulk instructions for the first of the [items], in
    order: each is the instruction for its item in the heap as the turn
    of that item has left it, and is enriched. *)
Fixpoint instructions (es_index : string) (h : Heap) (items : list pyval)
    (acts : list Action) : Prop :=
  match acts, items with
  | [], _ => True
  | a :: acts', item :: rest =>
      instruction es_index (enrich h item) item a ∧ enriched a
      ∧ instructions es_index (enrich h item) rest acts'
  | _ :: _, [] => False
  end.

#[global] Instance pyval_eq_dec : EqDecision pyval.
Proof. solve_decision. Defined.

(** [feature] read as a feature of the heap: the location of its dict, the
    location of its [properties] dict and its top-level [id]. *)
Definition as_feature (h : Heap) (feature : pyval)
  : option (positive * positive * pyval) :=
  match feature with
  | VRef lf =>
      match field h lf "id", field h lf "properties" with
      | Some v, Some (VRef lp) =>
          match h !! lp with
          | Some _ => Some (lf, lp, v)
          | None => None
          end
      | _, _ => None
      end
  | _ => None
  end.

(** The location of [feature['properties']]. *)
Definition props_loc (h : Heap) (feature : pyval) : option positive :=
  match as_feature h feature with
  | Some (_, lp, _) => Some lp
  | None => None
  end.

(** The items are features that keep their [properties] apart: no
    [properties] dict is itself one of the features, and two features that
    share one [properties] dict have the same [id]. *)
Definition separated (h : Heap) (items : list pyval) : Prop :=
  Forall (λ f, is_Some (as_feature h f)) items
  ∧ ∀ f g lf lp v lg lq u,
      f ∈ items → g ∈ items →
      as_feature h f = Some (lf, lp, v) → as_feature h g = Some (lg, lq, u) →
      lp ≠ lg ∧ (lp = lq → v = u).

(** [separated], computed. *)
Definition separate_features (h : Heap) (items : list pyval) : bool :=
  forallb (λ f,
    match as_feature h f with
    | Some (lf, lp, v) =>
        forallb (λ g,
          match as_feature h g with
          | Some (lg, lq, u) =>
              negb (Pos.eqb lp lg)
              && (negb (Pos.eqb lp lq) || bool_decide (v = u))
          | None => false
          end) items
    | None => false
    end) items.





(** Two features that share one [properties] dict (object 3), as when
    the caller builds its features from one template. *)
Definition shared_heap : Heap :=
  {[ 1%positive := {[ "id" := VStr "a"; "properties" := VRef 3 ]};
     2%positive := {[ "id" := VStr "b"; "properties" := VRef 3 ]};
     3%positive := {[ "resultTime" := VDate 100 ]} ]}.

(** Two features, each with a [properties] dict of its own. *)
Definition plain_heap : Heap :=
  {[ 1%positive := {[ "id" := VStr "a"; "properties" := VRef 3;
                      "type" := VStr "Feature" ]};
     2%positive := {[ "id" := VStr "b"; "properties" := VRef 4 ]};
     3%positive := {[ "resultTime" := VDate 100; "id" := VStr "old" ]};
     4%positive := {[ "pubTime" := VDate 200 ]} ]}.

(** ** The retention rule, in the words of the specification

    An item is purged when its [resultTime] or its [pubTime] is older than
    or equal to the threshold. *)

Definition date_at (path : list string) (doc : json) : option Z :=
  match json_path path doc with
  | Some (JDate t) => Some t
  | _ => None
  end.

Definition older_or_equal (t : option Z) (threshold : Z) : bool :=
  match t with
  | Some t => (t <=? threshold)%Z
  | None => false
  end.

Definition expired (threshold : Z) (doc : json) : bool :=
  older_or_equal (date_at ["properties"; "resultTime"] doc) threshold
  || older_or_equal (date_at ["properties"; "pubTime"] doc) threshold.

(** An index without its expired items. *)
Definition purge (threshold : Z) (ix : EsIndex) : EsIndex :=
  mkIndex (ix_body ix)
          (filter (λ kv, expired threshold kv.2 = false) (ix_docs ix)).


(** The indices after the loop has gone through the names [l]. *)
Definition purge_each (before : Z) (l : list string)
    (ixs : gmap string EsIndex) : gmap string EsIndex :=
  foldl (λ m index, alter (purge before) index m) ixs l.

(** ** Construction and description of the backend *)








(** ** What an index holds *)

(** The document stored under [key] in the index [index]. *)
Definition stored (ixs : gmap string EsIndex) (index key : string)
  : option json :=
  match ixs !! index with
  | Some ix => ix_docs ix !! key
  | None => None
  end.


(** ** The environment module, [pygeobox/env.py]

    The statements the module runs when it is imported, up to the check of
    the required environment variables. *)

Module Env.

(** Values bound at module level. *)
Inductive value : Type :=
| PyNone
| Str (s : string)
| Int (z : Z)
| PathOf (p : string)
| ListOf (names : list string)
| Object (what : string).

Inductive ImportExn : Type :=
| EnvironmentError (msg : string)
| AttributeError (msg : string)
| ValueError (msg : string).

(** [os.environ] *)
Abbreviation Environ := (gmap string string).

(** The module's globals, in insertion order. *)
Abbreviation Namespace := (list (string * value)).

(** [name = v] at module level. *)
Fixpoint assign (name : string) (v : value) (ns : Namespace) : Namespace :=
  match ns with
  | [] => [(name, v)]
  | (k, x) :: rest =>
      if String.eqb k name then (k, v) :: rest else (k, x) :: assign name v rest
  end.

Fixpoint lookup_name (name : string) (ns : Namespace) : value :=
  match ns with
  | [] => PyNone
  | (k, x) :: rest => if String.eqb k name then x else lookup_name name rest
  end.

(** [os.environ.get(key)] *)
Definition environ_get (environ : Environ) (key : string) : value :=
  match environ !! key with
  | Some s => Str s
  | None => PyNone
  end.

(** [os.environ.get(key, default)] *)
Definition environ_get_default (environ : Environ) (key default : string) : value :=
  match environ !! key with
  | Some s => Str s
  | None => Str default
  end.

(** [NAME = os.environ.get('PYGEOBOX_NAME')] for each pair, in order. *)
Fixpoint assign_from_environ (environ : Environ) (names : list (string * string))
    (ns : Namespace) : Namespace :=
  match names with
  | [] => ns
  | (name, key) :: rest =>
      assign_from_environ environ rest (assign name (environ_get environ key) ns)
  end.

Definition is_space (c : ascii) : bool :=
  let n := nat_of_ascii c in (n =? 32)%nat || ((9 <=? n)%nat && (n <=? 13)%nat).

Definition digit_of (c : ascii) : option Z :=
  let n := nat_of_ascii c in
  if (48 <=? n)%nat && (n <=? 57)%nat then Some (Z.of_nat (n - 48)) else None.

Fixpoint lstrip (l : list ascii) : list ascii :=
  match l with
  | c :: rest => if is_space c then lstrip rest else l
  | [] => []
  end.

Fixpoint parse_digits (l : list ascii) (acc : Z) (after_digit : bool) : option Z :=
  match l with
  | [] => if after_digit then Some acc else None
  | c :: rest =>
      match digit_of c with
      | Some d => parse_digits rest (10 * acc + d) true
      | None =>
          if Ascii.eqb c "_" && after_digit then parse_digits rest acc false
          else None
      end
  end.

(** [int(s)] for an ASCII string: surrounding white space, an optional
    sign, decimal digits with single underscores between them; [None] is
    Python's [ValueError]. *)
Definition py_int (s : string) : option Z :=
  match rev (lstrip (rev (lstrip (list_ascii_of_string s)))) with
  | "-"%char :: digits => Z.opp <$> parse_digits digits 0 false
  | "+"%char :: digits => parse_digits digits 0 false
  | digits => parse_digits digits 0 false
  end.

(** What is bound when the module's own statements start: the module
    attributes (the file has no docstring, so [__doc__] is [None]) and the
    imported names. *)
Definition initial_namespace : Namespace :=
  [ ("__name__", Str "pygeobox.env"); ("__doc__", PyNone);
    ("__package__", Str "pygeobox"); ("__loader__", Object "loader");
    ("__spec__", Object "spec"); ("__file__", Str "pygeobox/env.py");
    ("__cached__", Str "pygeobox/__pycache__/env.pyc");
    ("__builtins__", Object "builtins");
    ("click", Object "module"); ("logging", Object "module");
    ("os", Object "module"); ("Path", Object "class");
    ("cli_helpers", Object "module"); ("setup_logger", Object "function");
    ("load_plugin", Object "function"); ("PLUGINS", Object "dict");
    ("LOGGER", Object "logger") ].

(** [x == k] for a string [k]: only a string is equal to a string. *)
Definition eq_str (x : value) (k : string) : bool :=
  match x with
  | Str s => String.eqb s k
  | _ => false
  end.

(** [k in required_environment_variables] *)
Definition str_in (k : string) (xs : list value) : bool :=
  existsb (λ x, eq_str x k) xs.

(** [v is None] *)
Definition is_None (v : value) : bool :=
  match v with
  | PyNone => true
  | _ => false
  end.

(** [repr] of a list of identifiers. *)
Definition repr_names (names : list string) : string :=
  "[" +:+ String.concat ", " ((λ n, "'" +:+ n +:+ "'") <$> names) +:+ "]".

(** The state of the check: the globals, the list
    [missing_environment_variables] and the warnings logged. *)
Record CheckState : Type := mkCheck {
  globals : Namespace;
  missing_environment_variables : list string;
  warnings : list string
}.

(** The body of [for rev in required_environment_variables]. *)
Definition check_one (required_environment_variables : list value)
    (st : CheckState) (rev : value) : CheckState :=
  let ns := assign "rev" rev (globals st) in
  if is_None rev then
    let env_var :=
      (filter (λ kv, is_None kv.2 = true ∧
                     str_in kv.1 required_environment_variables = true) ns).*1 in
    let ns := assign "env_var" (ListOf env_var) ns in
    match env_var with
    | envvar_name :: _ =>
        let missing := missing_environment_variables st ++ [envvar_name] in
        mkCheck
          (assign "missing_environment_variables" (ListOf missing)
             (assign "envvar_name" (Str envvar_name) ns))
          missing
          (warnings st ++ ["Missing environment variable " +:+ envvar_name])
    | [] => mkCheck ns (missing_environment_variables st) (warnings st)
    end
  else mkCheck ns (missing_environment_variables st) (warnings st).

(** The names read from the environment before and after
    [API_BACKEND_URL]. *)
Definition first_names : list (string * string) :=
  [ ("API_TYPE", "PYGEOBOX_API_TYPE"); ("API_URL", "PYGEOBOX_API_URL");
    ("API_BACKEND_TYPE", "PYGEOBOX_API_BACKEND_TYPE") ].

Definition later_names : list (string * string) :=
  [ ("DOCKER_API_URL", "PYGEOBOX_DOCKER_API_URL");
    ("AUTH_URL", "PYGEOBOX_AUTH_URL"); ("URL", "PYGEOBOX_URL");
    ("BROKER_USERNAME", "PYGEOBOX_BROKER_USERNAME");
    ("BROKER_PASSWORD", "PYGEOBOX_BROKER_PASSWORD");
    ("BROKER_HOST", "PYGEOBOX_BROKER_HOST");
    ("BROKER_PORT", "PYGEOBOX_BROKER_PORT");
    ("BROKER_PUBLIC", "PYGEOBOX_BROKER_PUBLIC");
    ("STORAGE_TYPE", "PYGEOBOX_STORAGE_TYPE");
    ("STORAGE_SOURCE", "PYGEOBOX_STORAGE_SOURCE");
    ("STORAGE_USERNAME", "PYGEOBOX_STORAGE_USERNAME");
    ("STORAGE_PASSWORD", "PYGEOBOX_STORAGE_PASSWORD");
    ("STORAGE_INCOMING", "PYGEOBOX_STORAGE_INCOMING");
    ("STORAGE_ARCHIVE", "PYGEOBOX_STORAGE_ARCHIVE");
    ("STORAGE_PUBLIC", "PYGEOBOX_STORAGE_PUBLIC") ].

(** The check of the required variables, from
    [missing_environment_variables = []] to the final [raise]. *)
Definition check_required (ns : Namespace) : ImportExn + CheckState :=
  let ns := assign "missing_environment_variables" (ListOf []) ns in
  let required_environment_variables :=
    [ lookup_name "DATADIR" ns; lookup_name "DOCKER_API_URL" ns;
      lookup_name "API_TYPE" ns; lookup_name "URL" ns ] in
  let ns := assign "required_environment_variables" (Object "list") ns in
  let st := foldl (check_one required_environment_variables)
                  (mkCheck ns [] []) required_environment_variables in
  match missing_environment_variables st with
  | [] => inr st
  | missing =>
      inl (EnvironmentError
             ("Environment variables not set! = " +:+ repr_names missing))
  end.

(** Importing the module in the environment [environ]. *)
Definition import_module (environ : Environ) : ImportExn + CheckState :=
  match environ !! "PYGEOBOX_DATADIR" with
  | None => inl (EnvironmentError "Configuration filepaths do not exist!")
  | Some datadir =>
      let ns := assign "DATADIR" (PathOf datadir) initial_namespace in
      let ns := assign "DATADIR_CONFIG" (PathOf (datadir +:+ "/config")) ns in
      let ns := assign_from_environ environ first_names ns in
      match environ !! "PYGEOBOX_API_BACKEND_URL" with
      | None =>
          inl (AttributeError "'NoneType' object has no attribute 'rstrip'")
      | Some url =>
          let ns := assign "API_BACKEND_URL" (Str (PyStr.rstrip "/" url)) ns in
          let ns := assign_from_environ environ later_names ns in
          match environ !! "PYGEOBOX_STORAGE_DATA_RETENTION_DAYS" with
          | Some s =>
              match py_int s with
              | Some days =>
                  check_required
                    (assign "LOGFILE" (environ_get_default environ "PYGEOBOX_LOGGING_LOGFILE" "stdout")
                    (assign "LOGLEVEL" (environ_get_default environ "PYGEOBOX_LOGGING_LOGLEVEL" "ERROR")
                    (assign "STORAGE_DATA_RETENTION_DAYS" (Int days) ns)))
              | None => inl (ValueError "invalid literal for int() with base 10")
              end
          | None =>
              check_required
                (assign "LOGFILE" (environ_get_default environ "PYGEOBOX_LOGGING_LOGFILE" "stdout")
                (assign "LOGLEVEL" (environ_get_default environ "PYGEOBOX_LOGGING_LOGLEVEL" "ERROR")
                (assign "STORAGE_DATA_RETENTION_DAYS" PyNone ns)))
          end
      end
  end.

(** The error of the final check. *)
Definition is_not_set_error (r : ImportExn + CheckState) : bool :=
  match r with
  | inl (EnvironmentError msg) =>
      String.prefix "Environment variables not set!" msg
  | _ => false
  end.

(** Every name the module binds at its top level before the check ends. *)
Definition module_names : list string :=
  initial_namespace.*1
  ++ ["DATADIR"; "DATADIR_CONFIG"] ++ first_names.*1 ++ ["API_BACKEND_URL"]
  ++ later_names.*1
  ++ ["STORAGE_DATA_RETENTION_DAYS"; "LOGLEVEL"; "LOGFILE";
      "missing_environment_variables"; "required_environment_variables";
      "rev"; "env_var"; "envvar_name"].

Definition is_module_name (s : string) : bool :=
  existsb (String.eqb s) module_names.

(** Every global is one of the module's names. *)
Definition names_ok (ns : Namespace) : Prop :=
  Forall (λ k, is_module_name k = true) ns.*1.

(** The environment variables behind [DOCKER_API_URL], [API_TYPE] and
    [URL]. *)
Definition required_keys : list string :=
  ["PYGEOBOX_DOCKER_API_URL"; "PYGEOBOX_API_TYPE"; "PYGEOBOX_URL"].

(** None of the three variables is set to the name of a module-level
    variable. *)
Definition no_value_names_a_variable (environ : Environ) : bool :=
  forallb (λ key, match environ !! key with
                  | Some s => negb (is_module_name s)
                  | None => true
                  end) required_keys.


End Env.

(** The environment in which the check does fire: everything the module
    needs is set, [PYGEOBOX_URL] is not, and [PYGEOBOX_API_TYPE] happens to
    be the string ["URL"]. *)
Definition environ_with_a_name : gmap string string :=
  {[ "PYGEOBOX_DATADIR" := "/data";
     "PYGEOBOX_API_BACKEND_URL" := "http://localhost:9200/";
     "PYGEOBOX_DOCKER_API_URL" := "http://api:80";
     "PYGEOBOX_API_TYPE" := "URL" ]}.



(** ** The authorisation client, [pygeobox/auth.py]

    The functions talk to the authorisation service over HTTP and to the
    user through the terminal.  The service is any state machine answering
    requests ([AuthService]); the terminal is the list of lines echoed and
    the answers the user will give to confirmation prompts; [secrets] is
    the list of tokens it will hand out. *)

Module Auth.

Inductive Method : Type := GET | POST.

(** A value of the [data] dict: a string, or a tuple of strings (what
    [click] passes for an argument declared with [nargs=-1]). *)
Inductive FormValue : Type :=
| One (s : string)
| Many (l : list string).

Record Request : Type := mkRequest {
  method : Method;
  target : string;
  data : list (string * FormValue);
  headers : list (string * string)
}.

(** A response: its status and its body read as JSON ([None] when the body
    is not JSON), of which only the [description] matters. *)
Record Response : Type := mkResponse {
  status_code : Z;
  json : option (gmap string string)
}.

(** [r.ok] *)
Definition ok (r : Response) : bool := (status_code r <? 400)%Z.

Inductive Exn : Type :=
| ConnectionError (msg : string)
| JSONDecodeError
| ClickException (msg : string)
| Abort.

Class AuthService (S : Type) : Type := {
  serve : Request → S → (Exn + Response) * S
}.

Record World (S : Type) : Type := mkWorld {
  service : S;
  sent : list Request;
  echoed : list string;
  info : list (option string);
  answers : list bool;
  tokens : list string
}.
Arguments mkWorld {S}.
Arguments service {S}.
Arguments sent {S}.
Arguments echoed {S}.
Arguments info {S}.
Arguments answers {S}.
Arguments tokens {S}.

Definition M (S A : Type) : Type := World S → (Exn + A) * World S.

Definition ret {S A} (a : A) : M S A := λ w, (inr a, w).

Definition bind {S A B} (m : M S A) (k : A → M S B) : M S B :=
  λ w, match m w with
       | (inl e, w') => (inl e, w')
       | (inr a, w') => k a w'
       end.

#[local, warnings="-notation-overridden"]
Notation "'let*' x ':=' c 'in' k" := (bind c (λ x, k))
  (at level 10, x pattern, c at level 200, k at level 200).

Definition raise {S A} (e : Exn) : M S A := λ w, (inl e, w).

(** [click.echo(message)] *)
Definition echo {S} (message : string) : M S unit :=
  λ w, (inr tt, mkWorld (service w) (sent w) (echoed w ++ [message]) (info w)
                        (answers w) (tokens w)).

(** [LOGGER.info(message)] *)
Definition log_info {S} (message : option string) : M S unit :=
  λ w, (inr tt, mkWorld (service w) (sent w) (echoed w) (info w ++ [message])
                        (answers w) (tokens w)).

(** [click.confirm(text)]: the user's next answer; with no answer to be
    had the prompt aborts. *)
Definition confirm {S} (text : string) : M S bool :=
  λ w, match answers w with
       | answer :: rest =>
           (inr answer, mkWorld (service w) (sent w) (echoed w) (info w)
                                rest (tokens w))
       | [] => (inl Abort, w)
       end.

(** [token_hex(nbytes)]: the next token of the source. *)
Definition token_hex {S} (nbytes : nat) : M S string :=
  λ w, match tokens w with
       | t :: rest =>
           (inr t, mkWorld (service w) (sent w) (echoed w) (info w)
                           (answers w) rest)
       | [] => (inr "", w)
       end.

(** The token [add_token] works with: the one given, or the next one of
    the source. *)
Definition chosen_token {S} (token : option string) (w : World S) : string :=
  match token with
  | Some t => t
  | None => hd "" (tokens w)
  end.

(** [str(x)] for a value that may be [None], as an f-string renders it. *)
Definition fstr (x : option string) : string :=
  match x with
  | Some s => s
  | None => "None"
  end.

(** [str(b)] *)
Definition str_bool (b : bool) : string := if b then "True" else "False".


Section Client.

Context {S : Type} `{!AuthService S}.

(** [AUTH_URL], as read from the environment at import. *)
Variable AUTH_URL : option string.

(** [requests.get] / [requests.post] *)
Definition request (r : Request) : M S Response :=
  λ w, let '(answer, s') := serve r (service w) in
       (answer, mkWorld s' (sent w ++ [r]) (echoed w) (info w) (answers w)
                        (tokens w)).

(** [r.json().get('description')] *)
Definition description (r : Response) : M S (option string) :=
  match json r with
  | Some body => ret (body !! "description")
  | None => raise JSONDecodeError
  end.

Definition create_token (topic token : string) : M S bool :=
  let data := [("topic", One topic); ("token", One token)] in
  let* r := request (mkRequest POST (fstr AUTH_URL +:+ "/add_token") data []) in
  let* d := description r in
  let* _ := log_info d in
  ret (ok r).



Definition is_resource_open (topic : string) : M S bool :=
  let headers := [("X-Original-URI", topic)] in
  let* r := request (mkRequest GET (fstr AUTH_URL +:+ "/authorize") [] headers) in
  ret (ok r).

Definition is_token_authorized (topic token : string) : M S bool :=
  let headers := [("X-Original-URI", topic);
                  ("Authorization", "Bearer " +:+ token)] in
  let* r := request (mkRequest GET (fstr AUTH_URL +:+ "/authorize") [] headers) in
  ret (ok r).

(** The command [is_restricted]. *)
Definition is_restricted (path : string) : M S unit :=
  let* open := is_resource_open path in
  echo (str_bool (negb open)).

(** The command [has_access]. *)
Definition has_access (path : option string) (token : string) : M S unit :=
  match path with
  | None => raise (ClickException "Missing path or topic hierarchy")
  | Some path =>
      let* authorized := is_token_authorized path token in
      echo (str_bool authorized)
  end.

(** The command [add_token]. *)
Definition add_token (path : string) (yes : bool) (token : option string)
  : M S unit :=
  let* token := match token with
                | None => token_hex 32
                | Some t => ret t
                end in
  let* go := if yes then
               let* _ := echo ("Using token: " +:+ token) in ret true
             else confirm ("Continue with token: " +:+ token) in
  if (go : bool) then
    let* created := create_token path token in
    if (created : bool) then echo "Token successfully created" else ret tt
  else ret tt.


End Client.

(** A service that accepts everything and answers with a description. *)
Record Accepting : Type := mkAccepting { handled : nat }.

#[global] Instance Accepting_service : AuthService Accepting := {|
  serve := λ _ s,
    (inr (mkResponse 200 (Some {[ "description" := "done" ]})),
     mkAccepting (Datatypes.S (handled s)))
|}.

End Auth.


(** * Properties *)

(** ** Characters *)

Lemma append_nil (x : string) : "" +:+ x = x.
Proof. reflexivity. Qed.

Lemma append_cons d (s x : string) : String d s +:+ x = String d (s +:+ x).
Proof. reflexivity. Qed.

Lemma append_nil_r (x : string) : x +:+ "" = x.
Proof. induction x as [|c x IH]; [done|]. by rewrite append_cons, IH. Qed.

Lemma append_assoc (x y z : string) : (x +:+ y) +:+ z = x +:+ (y +:+ z).
Proof. induction x as [|c x IH]; [done|]. by rewrite !append_cons, IH. Qed.

Lemma length_append (x y : string) :
  String.length (x +:+ y) = (String.length x + String.length y)%nat.
Proof. induction x as [|c x IH]; [done|]. rewrite append_cons. simpl. lia. Qed.

Lemma join_app (l1 l2 : list string) :
  PyStr.join (l1 ++ l2) = PyStr.join l1 +:+ PyStr.join l2.
Proof.
  induction l1 as [|c l1 IH]; [done|]. simpl. by rewrite IH, append_assoc.
Qed.

Lemma chars_unfold s :
  PyStr.chars s
  = match s with
    | EmptyString => Some []
    | _ => match PyStr.first_char s with
           | Some (c, r) => cons c <$> PyStr.chars r
           | None => None
           end
    end.
Proof.
  destruct s as [|a [|b [|c [|d r]]]]; simpl; try done.
  - by destruct (PyStr.lead1 a).
  - destruct (PyStr.lead1 a); [done|].
    by destruct (PyStr.lead2 a && PyStr.cont b).
  - destruct (PyStr.lead1 a); [done|].
    destruct (PyStr.lead2 a && PyStr.cont b); [done|].
    by destruct (PyStr.lead3 a b && PyStr.cont c).
  - destruct (PyStr.lead1 a); [done|].
    destruct (PyStr.lead2 a && PyStr.cont b); [done|].
    destruct (PyStr.lead3 a b && PyStr.cont c); [done|].
    by destruct (PyStr.lead4 a b && PyStr.cont c && PyStr.cont d).
Qed.

(** What [first_char] splits off is a character wherever it stands, and
    the string is that character followed by the rest. *)
Lemma first_char_Some s c r :
  PyStr.first_char s = Some (c, r) →
  s = c +:+ r ∧ c ≠ "" ∧ ∀ t, PyStr.first_char (c +:+ t) = Some (c, t).
Proof.
  destruct s as [|a r0]; [done|]. cbn [PyStr.first_char].
  destruct (PyStr.lead1 a) eqn:H1.
  { intros [= <- <-]. split; [done|]. split; [done|]. intros t.
    rewrite ?append_cons, append_nil. cbn [PyStr.first_char]. by rewrite H1. }
  destruct r0 as [|b r1]; [done|].
  destruct (PyStr.lead2 a && PyStr.cont b) eqn:H2.
  { intros [= <- <-]. split; [done|]. split; [done|]. intros t.
    rewrite ?append_cons, append_nil. cbn [PyStr.first_char].
    by rewrite H1, H2. }
  destruct r1 as [|c' r2]; [done|].
  destruct (PyStr.lead3 a b && PyStr.cont c') eqn:H3.
  { intros [= <- <-]. split; [done|]. split; [done|]. intros t.
    rewrite ?append_cons, append_nil. cbn [PyStr.first_char].
    by rewrite H1, H2, H3. }
  destruct r2 as [|d r3]; [done|].
  destruct (PyStr.lead4 a b && PyStr.cont c' && PyStr.cont d) eqn:H4; [|done].
  intros [= <- <-]. split; [done|]. split; [done|]. intros t.
  rewrite ?append_cons, append_nil. cbn [PyStr.first_char].
  by rewrite H1, H2, H3, H4.
Qed.

Lemma chars_step c r :
  PyStr.first_char (c +:+ r) = Some (c, r) →
  PyStr.chars (c +:+ r) = cons c <$> PyStr.chars r.
Proof.
  intros H. rewrite chars_unfold, H. by destruct (c +:+ r).
Qed.

Lemma chars_ind (P : string → Prop) :
  P "" →
  (∀ c r, (∀ t, PyStr.first_char (c +:+ t) = Some (c, t)) → P r → P (c +:+ r)) →
  (∀ s, s ≠ "" → PyStr.first_char s = None → P s) →
  ∀ s, P s.
Proof.
  intros Hnil Hstep Hstuck s.
  remember (String.length s) as n eqn:Hn. revert s Hn.
  induction (lt_wf n) as [n _ IH]. intros s ->.
  destruct s as [|a s']; [done|].
  destruct (PyStr.first_char (String a s')) as [[c r]|] eqn:Hf.
  - destruct (first_char_Some _ _ _ Hf) as (Hs & Hc & Hall).
    rewrite Hs. apply Hstep; [done|].
    apply (IH (String.length r)); [|done].
    rewrite Hs, length_append. destruct c; [done|]. simpl. lia.
  - by apply Hstuck.
Qed.

Lemma chars_stuck s :
  s ≠ "" → PyStr.first_char s = None → PyStr.chars s = None.
Proof. intros Hs Hf. rewrite chars_unfold, Hf. by destruct s. Qed.

(** The characters of a string are characters, and the string is made of
    them. *)
Lemma chars_Some s : ∀ cs,
  PyStr.chars s = Some cs →
  PyStr.join cs = s
  ∧ Forall (λ c, ∀ t, PyStr.first_char (c +:+ t) = Some (c, t)) cs.
Proof.
  induction s as [|c r Hc IH|s Hs Hf] using chars_ind; intros cs.
  - by intros [= <-].
  - rewrite chars_step by done.
    destruct (PyStr.chars r) as [cr|]; [|done]. intros [= <-].
    destruct (IH cr eq_refl) as [Hj Hall]. split; [by rewrite <- Hj|].
    by constructor.
  - by rewrite chars_stuck.
Qed.

Lemma chars_join cs :
  Forall (λ c, ∀ t, PyStr.first_char (c +:+ t) = Some (c, t)) cs →
  PyStr.chars (PyStr.join cs) = Some cs.
Proof.
  induction 1 as [|c cs Hc _ IH]; [done|].
  cbn [PyStr.join foldr]. rewrite chars_step by done.
  fold (PyStr.join cs). by rewrite IH.
Qed.

Lemma chars_app s t cs ct :
  PyStr.chars s = Some cs → PyStr.chars t = Some ct →
  PyStr.chars (s +:+ t) = Some (cs ++ ct).
Proof.
  intros [<- Hs]%chars_Some [<- Ht]%chars_Some.
  rewrite <- join_app. apply chars_join. by apply Forall_app.
Qed.

Lemma chars_char c :
  (∀ t, PyStr.first_char (c +:+ t) = Some (c, t)) → PyStr.chars c = Some [c].
Proof.
  intros Hc. rewrite <- (append_nil_r c) at 1. by rewrite chars_step.
Qed.

(** ** Lower-casing *)

Lemma lowercase_well_lowered :
  forallb (λ kv, PyStr.well_lowered kv.2) PyStr.lowercase = true.
Proof. vm_compute. reflexivity. Qed.

Lemma assoc_In n m table : PyStr.assoc n table = Some m → In (n, m) table.
Proof.
  induction table as [|[k v] table IH]; [done|]. simpl.
  destruct (N.eqb_spec k n) as [->|_]; [intros [= ->]; by left|].
  intros H. right. by apply IH.
Qed.

Lemma well_lowered_spec m :
  PyStr.well_lowered m = true →
  PyStr.chars (PyStr.chr m) = Some [PyStr.chr m]
  ∧ PyStr.lower_fixed (PyStr.chr m) = true.
Proof.
  unfold PyStr.well_lowered.
  destruct (PyStr.chars (PyStr.chr m)) as [[|c [|]]|]; try done.
  intros [Hc Hf]%andb_true_iff. apply String.eqb_eq in Hc. by subst c.
Qed.

Lemma lower_fixed_spec c :
  PyStr.lower_fixed c = true →
  (PyStr.ord c =? 0x3A3)%N = false ∧ PyStr.to_lower_full c = c.
Proof.
  unfold PyStr.lower_fixed. intros [H1 H2]%andb_true_iff.
  apply negb_true_iff in H1. by apply String.eqb_eq in H2.
Qed.

(** What lower-casing puts in the place of a character is made of
    characters that lower-casing leaves alone. *)
Lemma lower_piece c (b : bool) :
  (∀ t, PyStr.first_char (c +:+ t) = Some (c, t)) →
  ∃ p, PyStr.chars
         (if (PyStr.ord c =? 0x3A3)%N
          then PyStr.chr (if b then 0x3C2 else 0x3C3)
          else PyStr.to_lower_full c) = Some p
       ∧ Forall (λ d, PyStr.lower_fixed d = true) p.
Proof.
  intros Hc. destruct (PyStr.ord c =? 0x3A3)%N eqn:Hsigma.
  { destruct b; eexists; (split; [vm_compute; reflexivity|]);
      repeat constructor. }
  unfold PyStr.to_lower_full.
  destruct (PyStr.ord c =? 0x130)%N eqn:Hdot.
  { eexists. split; [vm_compute; reflexivity|]. repeat constructor. }
  destruct (PyStr.assoc (PyStr.ord c) PyStr.lowercase) as [m|] eqn:Hm.
  - apply assoc_In in Hm.
    pose proof lowercase_well_lowered as Hall.
    rewrite forallb_forall in Hall. specialize (Hall _ Hm).
    apply well_lowered_spec in Hall as [Hchars Hfixed].
    exists [PyStr.chr m]. split; [done|]. by constructor.
  - exists [c]. split; [by apply chars_char|].
    constructor; [|done]. unfold PyStr.lower_fixed, PyStr.to_lower_full.
    rewrite Hsigma, Hdot, Hm. simpl. apply String.eqb_refl.
Qed.

Lemma lower_chars_fixed (b : bool) cs :
  Forall (λ d, PyStr.lower_fixed d = true) cs → PyStr.lower_chars b cs = cs.
Proof.
  intros Hall. revert b. induction Hall as [|c cs Hc _ IH]; intros b; [done|].
  apply lower_fixed_spec in Hc as [Hs Hf].
  cbn [PyStr.lower_chars]. by rewrite Hs, Hf, IH.
Qed.

Lemma lower_chars_pieces cs :
  Forall (λ c, ∀ t, PyStr.first_char (c +:+ t) = Some (c, t)) cs →
  ∀ b, ∃ ps, PyStr.chars (PyStr.join (PyStr.lower_chars b cs)) = Some ps
             ∧ Forall (λ d, PyStr.lower_fixed d = true) ps.
Proof.
  induction 1 as [|c cs Hc _ IH]; intros b.
  - exists []. by split.
  - cbn [PyStr.lower_chars PyStr.join foldr].
    destruct (lower_piece c (b && PyStr.final_after cs) Hc) as (p & Hp & Hfp).
    destruct (IH (if PyStr.case_ignorable c then b else PyStr.cased c))
      as (ps & Hps & Hfps).
    exists (p ++ ps). split; [by apply chars_app|by apply Forall_app].
Qed.

(** A string that lower-casing leaves as it is. *)
Lemma lowered_fixed t : PyStr.lowered t → PyStr.lower t = t.
Proof.
  unfold PyStr.lowered, PyStr.lower.
  destruct (PyStr.chars t) as [ps|] eqn:Ht; [|done].
  intros Hall. rewrite lower_chars_fixed by done. by apply chars_Some.
Qed.

Lemma lower_lowered s : PyStr.lowered (PyStr.lower s).
Proof.
  unfold PyStr.lowered, PyStr.lower at 1.
  destruct (PyStr.chars s) as [cs|] eqn:Hs.
  - destruct (chars_Some _ _ Hs) as [_ Hall].
    destruct (lower_chars_pieces cs Hall false) as (ps & -> & Hps). done.
  - by rewrite Hs.
Qed.


(** ** Replacing the colon *)

Lemma replace_fixed old new s :
  PyStr.contains old s = false → PyStr.replace old new s = s.
Proof.
  induction s as [|c s IH]; simpl; [done|].
  intros [Hc Hs]%orb_false_iff. by rewrite Hc, IH.
Qed.

Lemma replace_app old new s t :
  PyStr.replace old new (s +:+ t)
  = PyStr.replace old new s +:+ PyStr.replace old new t.
Proof. induction s as [|c s IH]; [done|]. simpl. by rewrite IH. Qed.

Lemma replace_join old new l :
  PyStr.replace old new (PyStr.join l)
  = PyStr.join (PyStr.replace old new <$> l).
Proof.
  induction l as [|c l IH]; [done|]. simpl. by rewrite replace_app, IH.
Qed.

Lemma contains_replace s : PyStr.contains ":" (PyStr.replace ":" "-" s) = false.
Proof.
  induction s as [|c s IH]; simpl; [done|]. rewrite IH, orb_false_r.
  by destruct (Ascii.eqb_spec c ":") as [->|Hc]; [|apply Ascii.eqb_neq].
Qed.

Lemma replace_idem s :
  PyStr.replace ":" "-" (PyStr.replace ":" "-" s) = PyStr.replace ":" "-" s.
Proof. apply replace_fixed, contains_replace. Qed.

(** The colon and the hyphen are bytes of the same kind. *)
Lemma lead1_colon a :
  PyStr.lead1 (if Ascii.eqb a ":" then "-"%char else a) = PyStr.lead1 a.
Proof. by destruct (Ascii.eqb_spec a ":") as [->|]. Qed.

Lemma cont_colon a :
  PyStr.cont (if Ascii.eqb a ":" then "-"%char else a) = PyStr.cont a.
Proof. by destruct (Ascii.eqb_spec a ":") as [->|]. Qed.

Lemma lead2_colon a :
  PyStr.lead2 (if Ascii.eqb a ":" then "-"%char else a) = PyStr.lead2 a.
Proof. by destruct (Ascii.eqb_spec a ":") as [->|]. Qed.

Lemma lead3_colon a b :
  PyStr.lead3 (if Ascii.eqb a ":" then "-"%char else a)
              (if Ascii.eqb b ":" then "-"%char else b)
  = PyStr.lead3 a b.
Proof.
  by destruct (Ascii.eqb_spec a ":") as [->|], (Ascii.eqb_spec b ":") as [->|].
Qed.

Lemma lead4_colon a b :
  PyStr.lead4 (if Ascii.eqb a ":" then "-"%char else a)
              (if Ascii.eqb b ":" then "-"%char else b)
  = PyStr.lead4 a b.
Proof.
  by destruct (Ascii.eqb_spec a ":") as [->|], (Ascii.eqb_spec b ":") as [->|].
Qed.

Lemma first_char_replace s :
  PyStr.first_char (PyStr.replace ":" "-" s)
  = (λ cr, (PyStr.replace ":" "-" cr.1, PyStr.replace ":" "-" cr.2))
      <$> PyStr.first_char s.
Proof.
  destruct s as [|a r0]; [done|].
  cbn [PyStr.replace PyStr.first_char]. rewrite lead1_colon.
  destruct (PyStr.lead1 a); [done|].
  destruct r0 as [|b r1]; [done|].
  cbn [PyStr.replace]. rewrite lead2_colon, cont_colon.
  destruct (PyStr.lead2 a && PyStr.cont b); [done|].
  destruct r1 as [|c r2]; [done|].
  cbn [PyStr.replace]. rewrite lead3_colon, cont_colon.
  destruct (PyStr.lead3 a b && PyStr.cont c); [done|].
  destruct r2 as [|d r3]; [done|].
  cbn [PyStr.replace]. rewrite lead4_colon, cont_colon.
  by destruct (PyStr.lead4 a b && PyStr.cont c && PyStr.cont d).
Qed.

Lemma chars_replace s :
  PyStr.chars (PyStr.replace ":" "-" s)
  = (λ cs : list string, PyStr.replace ":" "-" <$> cs) <$> PyStr.chars s.
Proof.
  induction s as [|c r Hc IH|s Hs Hf] using chars_ind.
  - done.
  - rewrite (chars_step c r) by done. rewrite replace_app, chars_step.
    + rewrite IH. by destruct (PyStr.chars r).
    + rewrite <- replace_app, first_char_replace. by rewrite Hc.
  - rewrite (chars_stuck s) by done. apply chars_stuck.
    + by destruct s.
    + by rewrite first_char_replace, Hf.
Qed.

Lemma lead1_not_cont a : PyStr.cont a = true → Ascii.eqb a ":" = false.
Proof. by destruct (Ascii.eqb_spec a ":") as [->|]. Qed.

Lemma lead2_not_colon a : PyStr.lead2 a = true → Ascii.eqb a ":" = false.
Proof. by destruct (Ascii.eqb_spec a ":") as [->|]. Qed.

Lemma not_lead1_colon a : PyStr.lead1 a = false → Ascii.eqb a ":" = false.
Proof. by destruct (Ascii.eqb_spec a ":") as [->|]. Qed.

(** The only character that holds the byte of the colon is the colon. *)
Lemma char_colon c :
  (∀ t, PyStr.first_char (c +:+ t) = Some (c, t)) →
  c = ":" ∨ PyStr.replace ":" "-" c = c.
Proof.
  intros Hc. specialize (Hc ""). rewrite append_nil_r in Hc.
  pose proof (first_char_replace c) as Hr. rewrite Hc in Hr. simpl in Hr.
  destruct c as [|a r0]; [done|]. cbn [PyStr.first_char] in Hc.
  destruct (PyStr.lead1 a) eqn:H1.
  { injection Hc as <-. simpl.
    destruct (Ascii.eqb_spec a ":") as [->|]; [by left|by right]. }
  right. cbn [PyStr.replace]. rewrite (not_lead1_colon a H1). f_equal.
  apply replace_fixed.
  destruct r0 as [|b r1]; [done|].
  destruct (PyStr.lead2 a && PyStr.cont b) eqn:H2.
  { injection Hc as <-. apply andb_true_iff in H2 as [_ Hb].
    simpl. by rewrite (lead1_not_cont b Hb). }
  destruct r1 as [|c r2]; [done|].
  destruct (PyStr.lead3 a b && PyStr.cont c) eqn:H3.
  { injection Hc as <-. apply andb_true_iff in H3 as [Hab Hc'].
    simpl. rewrite (lead1_not_cont c Hc'), orb_false_r.
    revert Hab. unfold PyStr.lead3, PyStr.cont, PyStr.between.
    destruct (Ascii.eqb_spec b ":") as [->|]; [|done].
    change (PyStr.byte ":") with 58%N. simpl.
    by rewrite !andb_false_r. }
  destruct r2 as [|d r3]; [done|].
  destruct (PyStr.lead4 a b && PyStr.cont c && PyStr.cont d) eqn:H4; [|done].
  injection Hc as <-.
  apply andb_true_iff in H4 as [[Hab Hc']%andb_true_iff Hd].
  simpl. rewrite (lead1_not_cont c Hc'), (lead1_not_cont d Hd), !orb_false_r.
  revert Hab. unfold PyStr.lead4, PyStr.cont, PyStr.between.
  destruct (Ascii.eqb_spec b ":") as [->|]; [|done].
  change (PyStr.byte ":") with 58%N. simpl.
  by rewrite !andb_false_r.
Qed.

Lemma lowered_replace t :
  PyStr.lowered t → PyStr.lowered (PyStr.replace ":" "-" t).
Proof.
  unfold PyStr.lowered. rewrite chars_replace.
  destruct (PyStr.chars t) as [cs|] eqn:Ht; [|done]. simpl.
  destruct (chars_Some _ _ Ht) as [_ Hchars]. clear Ht.
  intros Hall. apply Forall_fmap.
  induction Hchars as [|c cs Hc _ IH]; [done|].
  apply Forall_cons in Hall as [Hfc Hall].
  constructor; [|by apply IH]. unfold compose.
  destruct (char_colon c Hc) as [->| ->]; [by vm_compute|done].
Qed.

(** ** Normalisation of collection identifiers *)

Lemma es_id_lowered s : PyStr.lowered (es_id s).
Proof. apply lowered_replace, lower_lowered. Qed.

Lemma es_id_no_colon s : PyStr.contains ":" (es_id s) = false.
Proof. apply contains_replace. Qed.

Lemma es_id_friendly s : es_friendly (es_id s) = true.
Proof.
  unfold es_friendly.
  rewrite (lowered_fixed _ (es_id_lowered s)), es_id_no_colon.
  by rewrite String.eqb_refl.
Qed.

Lemma es_id_fixed s : es_friendly s = true → es_id s = s.
Proof.
  unfold es_friendly. intros [Hl Hc]%andb_true_iff.
  apply String.eqb_eq in Hl. apply negb_true_iff in Hc.
  unfold es_id. rewrite Hl. by apply replace_fixed.
Qed.

Lemma es_id_idem s : es_id (es_id s) = es_id s.
Proof. apply es_id_fixed, es_id_friendly. Qed.

Lemma valid_index_name_spec name :
  valid_index_name name = true → name ≠ "" ∧ es_id name = name.
Proof.
  unfold valid_index_name. rewrite !andb_true_iff.
  intros ((((((Hne & _) & Hl) & Hc) & _) & _) & _). split.
  - intros ->. done.
  - apply es_id_fixed. unfold es_friendly. rewrite Hl. simpl.
    cbn [forallb forbidden_chars] in Hc. rewrite !andb_true_iff in Hc.
    tauto.
Qed.

(** C7. [es_id] is a function of its argument alone: it sends ["A:B:C"] to
    ["a-b-c"], gives equal results on equal arguments, and leaves its own
    results, and every identifier that is already lower-case without a
    colon, unchanged (so it is idempotent). *)
Theorem es_id_pure_idempotent (x : string) :
  es_id "A:B:C" = "a-b-c"
  ∧ (∀ y, x = y → es_id x = es_id y)
  ∧ es_id (es_id x) = es_id x
  ∧ (es_friendly x = true → es_id x = x ∧ es_id (es_id x) = es_id x).
Proof.
  split; [by vm_compute|]. split; [by intros y ->|].
  split; [apply es_id_idem|].
  intros Hx. split; [by apply es_id_fixed|apply es_id_idem].
Qed.

Lemma es_id_pure_idempotent_witness :
  es_friendly "a-b-c" = true ∧ es_id (es_id "a-b-c") = es_id "a-b-c".
Proof.
  split; [by vm_compute|].
  apply (proj2 (proj2 (proj2 (es_id_pure_idempotent "a-b-c")))).
  by vm_compute.
Defined.

(** ** Single requests *)

Section Generic.

Context {E : Type} `{!EsClient E}.

Lemma request_ok {A} r (call : E → (EsException + A) * E) w a e' :
  call (conn w) = (inr a, e') →
  request r call w = (inr a, after_request r e' w).
Proof. unfold request. by intros ->. Qed.

Lemma request_raises {A} r (call : E → (EsException + A) * E) w err e' :
  call (conn w) = (inl err, e') →
  request r call w = (inl (ClientException err), after_request r e' w).
Proof. unfold request. by intros ->. Qed.

Lemma request_trace {A} r (call : E → (EsException + A) * E) w :
  trace (request r call w).2 = trace w ++ [r]
  ∧ heap (request r call w).2 = heap w
  ∧ LOGGER (request r call w).2 = LOGGER w.
Proof. unfold request. by destruct (call (conn w)) as [[?|?] ?]. Qed.

Lemma required_given {A} index refusal (call : M E A) :
  index ≠ "" → required [index] refusal call = call.
Proof. unfold required. simpl. by destruct index. Qed.

Lemma required_missing {A} refusal (call : M E A) w :
  required [""] refusal call w = (inl refusal, w).
Proof. reflexivity. Qed.

Lemma client_indices_exists_given index :
  index ≠ "" →
  client_indices_exists index
  = request (ReqIndicesExists index) (conn_indices_exists index).
Proof. apply required_given. Qed.

Lemma client_indices_create_given index body :
  index ≠ "" →
  client_indices_create index body
  = request (ReqIndicesCreate index body) (conn_indices_create index body).
Proof. apply required_given. Qed.

Lemma client_indices_delete_given index :
  index ≠ "" →
  client_indices_delete index
  = request (ReqIndicesDelete index) (conn_indices_delete index).
Proof. apply required_given. Qed.

Lemma client_delete_given index id :
  index ≠ "" → id ≠ "" →
  client_delete index id = request (ReqDelete index id) (conn_delete index id).
Proof.
  intros Hindex Hid. unfold client_delete, required. simpl.
  by destruct index, id.
Qed.

Lemma client_delete_missing index id w :
  index = "" ∨ id = "" → client_delete index id w = (inl EmptyArgument, w).
Proof.
  intros Hempty. unfold client_delete, required. simpl.
  destruct index; [done|]. destruct id; [done|]. by destruct Hempty.
Qed.

Lemma has_collection_given collection_id :
  es_id collection_id ≠ "" →
  has_collection collection_id
  = request (ReqIndicesExists (es_id collection_id))
            (conn_indices_exists (es_id collection_id)).
Proof. apply client_indices_exists_given. Qed.

Lemma has_collection_missing collection_id w :
  es_id collection_id = "" → has_collection collection_id w = (inl EmptyIndex, w).
Proof. unfold has_collection, client_indices_exists. by intros ->. Qed.

(** A call on the client sends at most the one request, which names the
    index it was given, and leaves heap and log alone. *)
Lemma required_frame {A} index refusal r (call : E → (EsException + A) * E) w :
  req_index r = Some index →
  ∃ rs, trace (required [index] refusal (request r call) w).2 = trace w ++ rs
        ∧ Forall (λ q, req_index q = Some index) rs
        ∧ heap (required [index] refusal (request r call) w).2 = heap w
        ∧ LOGGER (required [index] refusal (request r call) w).2 = LOGGER w.
Proof.
  intros Hr. destruct (decide (index = "")) as [->|Hne].
  - exists []. rewrite required_missing. simpl. by rewrite app_nil_r.
  - rewrite required_given by done.
    destruct (request_trace r call w) as (Ht & Hh & Hl).
    exists [r]. split; [done|]. split; [by constructor|]. by split.
Qed.

(** What [delete_collection_item] does, by the outcome of the client's
    delete call. *)
Lemma delete_collection_item_run (collection_id item_id : string) (w : World E) :
  let r := ReqDelete collection_id item_id in
  delete_collection_item collection_id item_id w
  = if decide (collection_id = "" ∨ item_id = "") then
      (inl (ItemDeletionError EmptyArgument),
       mkWorld (conn w) (heap w) (clock w) (trace w)
         (LOGGER w ++ [(ERROR, "Item deletion failed: "
                                +:+ exc_str EmptyArgument)]))
    else
      match conn_delete collection_id item_id (conn w) with
      | (inl err, e') =>
          (inl (ItemDeletionError (ClientException err)),
           mkWorld e' (heap w) (clock w + conn_elapsed r (conn w))
             (trace w ++ [r])
             (LOGGER w ++ [(ERROR, "Item deletion failed: "
                                    +:+ exc_str (ClientException err))]))
      | (inr answer, e') => (inr true, after_request r e' w)
      end.
Proof.
  intros r. unfold delete_collection_item, try_except, bind.
  case_decide as Hempty.
  - by rewrite client_delete_missing.
  - rewrite client_delete_given by tauto. unfold request.
    by destruct (conn_delete collection_id item_id (conn w)) as [[?|?] ?].
Qed.

End Generic.

(** C8 as stated fails on an absent item: the engine answers the delete
    request for a document it does not hold with its not-found error, the
    client raises it, and the caller gets the [RuntimeError] where, for
    the document the index holds, it gets [True]. *)
Lemma delete_collection_item_tells_absent :
  let e := mkEngine {[ "a-b" := mkIndex SETTINGS {[ "x" := JObj ∅ ]} ]} 1 in
  let w := world e ∅ 0 in
  (delete_collection_item "a-b" "x" w).1 = inr true
  ∧ (delete_collection_item "a-b" "y" w).1
    = inl (ItemDeletionError (ClientException (not_found "not_found")))
  ∧ conn (delete_collection_item "a-b" "y" w).2 = e.
Proof. vm_compute. repeat split. Qed.

(** C8, amended.  For every client: [delete_collection_item] returns
    [True], and nothing else, exactly when the delete call of the client
    returns; whatever the call raises (an error of the engine or of the
    transport, or the client's refusal of an empty argument, for which
    nothing is sent) reaches the caller as the one [RuntimeError] built
    from it, its text in the message and the exception itself as context,
    and is logged.  On the reference engine: the call returns [True]
    exactly when the index named [collection_id] holds the item, which is
    then gone while every other document stays; for an item or index that
    is absent the caller gets the error with the engine's not-found error
    as its cause, and the engine is as it was. *)
Theorem delete_collection_item_outcome (collection_id item_id : string) :
  (∀ (E : Type) (C : EsClient E) (w : World E),
     let res := delete_collection_item collection_id item_id w in
     match res.1 with
     | inr b =>
         b = true ∧ collection_id ≠ "" ∧ item_id ≠ ""
         ∧ (∃ answer, (conn_delete collection_id item_id (conn w)).1 = inr answer)
         ∧ conn res.2 = (conn_delete collection_id item_id (conn w)).2
         ∧ trace res.2 = trace w ++ [ReqDelete collection_id item_id]
         ∧ LOGGER res.2 = LOGGER w
     | inl e =>
         ∃ cause,
           e = ItemDeletionError cause
           ∧ LOGGER res.2
             = LOGGER w ++ [(ERROR, "Item deletion failed: " +:+ exc_str cause)]
           ∧ (cause = EmptyArgument ∧ (collection_id = "" ∨ item_id = "")
              ∧ trace res.2 = trace w ∧ conn res.2 = conn w
              ∨ ∃ err, cause = ClientException err
                       ∧ collection_id ≠ "" ∧ item_id ≠ ""
                       ∧ conn_delete collection_id item_id (conn w)
                         = (inl err, conn res.2)
                       ∧ trace res.2
                         = trace w ++ [ReqDelete collection_id item_id])
     end)
  ∧ (∀ w : World RefEngine,
       collection_id ≠ "" → item_id ≠ "" →
       let res := delete_collection_item collection_id item_id w in
       match stored (indices (conn w)) collection_id item_id with
       | Some doc =>
           res.1 = inr true
           ∧ stored (indices (conn res.2)) collection_id item_id = None
           ∧ ∀ index id, (index, id) ≠ (collection_id, item_id) →
               stored (indices (conn res.2)) index id
               = stored (indices (conn w)) index id
       | None =>
           (∃ what, res.1 = inl (ItemDeletionError
                                   (ClientException (not_found what))))
           ∧ conn res.2 = conn w
       end).
Proof.
  split.
  - intros E C w res. unfold res. rewrite delete_collection_item_run.
    case_decide as Hempty.
    + simpl. exists EmptyArgument. split; [done|]. split; [done|]. by left.
    + assert (Hc : collection_id ≠ "") by tauto.
      assert (Hi : item_id ≠ "") by tauto.
      destruct (conn_delete collection_id item_id (conn w)) as [[err|answer] e'].
      * simpl. exists (ClientException err). split; [done|]. split; [done|].
        right. by exists err.
      * simpl. split; [done|]. split; [done|]. split; [done|].
        split; [by eexists|]. done.
  - intros w Hc Hi res. unfold res. rewrite delete_collection_item_run.
    rewrite decide_False by tauto. simpl.
    unfold ref_delete, stored.
    destruct (indices (conn w) !! collection_id) as [ix|] eqn:Hix.
    + destruct (ix_docs ix !! item_id) as [doc|] eqn:Hdoc; simpl.
      * split; [done|]. rewrite lookup_insert_eq. simpl.
        split; [by rewrite lookup_delete_eq|].
        intros index id Hne.
        destruct (decide (index = collection_id)) as [->|Hindex].
        -- rewrite lookup_insert_eq, Hix. simpl.
           rewrite lookup_delete_ne; [done|]. congruence.
        -- by rewrite lookup_insert_ne.
      * split; [by eexists|done].
    + simpl. split; [by eexists|done].
Qed.

(** ** Collections *)

Lemma has_collection_ref (collection_id : string) (w : World RefEngine) :
  es_id collection_id ≠ "" →
  has_collection collection_id w
  = (inr (index_exists (conn w) (es_id collection_id)),
     after_request (ReqIndicesExists (es_id collection_id)) (conn w) w).
Proof. intros Hne. by rewrite has_collection_given. Qed.

Section Collections.

Context {E : Type} `{!EsClient E}.

(** [add_collection] when its own check has answered. *)
Lemma add_collection_run (collection_id : string) (w : World E) present e1 :
  let es_index := es_id collection_id in
  let check := ReqIndicesExists es_index in
  let create := ReqIndicesCreate es_index SETTINGS in
  es_index ≠ "" →
  conn_indices_exists es_index (conn w) = (inr present, e1) →
  let w1 := after_request check e1 w in
  add_collection collection_id w
  = if (present : bool) then
      (inl (CollectionExistsError es_index),
       mkWorld e1 (heap w) (clock w1) (trace w ++ [check])
         (LOGGER w ++ [(ERROR, "index " +:+ es_index +:+ " exists")]))
    else
      match conn_indices_create es_index SETTINGS e1 with
      | (inl err, e2) => (inl (ClientException err), after_request create e2 w1)
      | (inr _, e2) =>
          let w2 := after_request create e2 w1 in
          match conn_indices_exists es_index e2 with
          | (inl err, e3) => (inl (ClientException err), after_request check e3 w2)
          | (inr b, e3) => (inr b, after_request check e3 w2)
          end
      end.
Proof.
  intros es_index check create Hne Hcheck w1.
  unfold add_collection, bind. fold es_index.
  rewrite has_collection_given, client_indices_create_given by done.
  fold es_index. unfold request at 1. rewrite Hcheck.
  destruct present; [done|]. unfold request at 1. simpl.
  destruct (conn_indices_create es_index SETTINGS e1) as [[err|[]] e2]; [done|].
  unfold request. simpl.
  by destruct (conn_indices_exists es_index e2) as [[err|b] e3].
Qed.

(** [delete_collection] when its own check has answered. *)
Lemma delete_collection_run (collection_id : string) (w : World E) present e1 :
  let es_index := es_id collection_id in
  let check := ReqIndicesExists es_index in
  let remove := ReqIndicesDelete es_index in
  es_index ≠ "" →
  conn_indices_exists es_index (conn w) = (inr present, e1) →
  let w1 := after_request check e1 w in
  delete_collection collection_id w
  = if (present : bool) then
      match conn_indices_exists es_index e1 with
      | (inl err, e2) => (inl (ClientException err), after_request check e2 w1)
      | (inr still, e2) =>
          let w2 := after_request check e2 w1 in
          match (if (still : bool) then conn_indices_delete es_index e2
                 else (inr tt, e2)) with
          | (inl err, e3) => (inl (ClientException err), after_request remove e3 w2)
          | (inr _, e3) =>
              let w3 := if still then after_request remove e3 w2 else w2 in
              match conn_indices_exists es_index e3 with
              | (inl err, e4) =>
                  (inl (ClientException err), after_request check e4 w3)
              | (inr present', e4) =>
                  (inr (negb present'), after_request check e4 w3)
              end
          end
      end
    else
      (inl (CollectionNotFoundError es_index),
       mkWorld e1 (heap w) (clock w1) (trace w ++ [check])
         (LOGGER w ++ [(ERROR, "index " +:+ es_index +:+ " does not exist")])).
Proof.
  intros es_index check remove Hne Hcheck w1.
  unfold delete_collection, bind. fold es_index.
  rewrite has_collection_given, client_indices_exists_given,
    client_indices_delete_given by done.
  fold es_index. unfold request at 1. rewrite Hcheck.
  destruct present; [|done]. simpl. unfold request at 1. simpl.
  destruct (conn_indices_exists es_index e1) as [[err|still] e2]; [done|].
  destruct still.
  - unfold request at 1. simpl.
    destruct (conn_indices_delete es_index e2) as [[err|[]] e3]; [done|].
    unfold request, ret. simpl.
    by destruct (conn_indices_exists es_index e3) as [[err|present'] e4].
  - unfold ret at 1. unfold request, ret. simpl.
    by destruct (conn_indices_exists es_index e2) as [[err|present'] e4].
Qed.

End Collections.

(** C3. [add_collection] decides by its own existence check.  For every
    client: when the check answers that the normalised index exists, it
    logs and raises the exists-error, and the check is the only request
    that has been sent; when the check answers that it does not, the call
    returns a value exactly when the creation with [SETTINGS] and a second
    existence check both go through, and the value is the answer of that
    second check, whatever it is.  On the reference engine, for a name the
    engine accepts: an existing index leaves the engine as it was; an
    absent one is created with [SETTINGS] and no documents, the call
    returns [True], and [has_collection] then answers [True]. *)
Theorem add_collection_precheck (collection_id : string) :
  let es_index := es_id collection_id in
  let check := ReqIndicesExists es_index in
  let create := ReqIndicesCreate es_index SETTINGS in
  es_index ≠ "" →
  (∀ (E : Type) (C : EsClient E) (w : World E) (present : bool) (e1 : E),
     conn_indices_exists es_index (conn w) = (inr present, e1) →
     let w1 := after_request check e1 w in
     if present then
       add_collection collection_id w
       = (inl (CollectionExistsError es_index),
          mkWorld e1 (heap w) (clock w1) (trace w ++ [check])
            (LOGGER w ++ [(ERROR, "index " +:+ es_index +:+ " exists")]))
     else
       ∀ b w', add_collection collection_id w = (inr b, w') ↔
         ∃ e2 e3, conn_indices_create es_index SETTINGS e1 = (inr tt, e2)
                  ∧ conn_indices_exists es_index e2 = (inr b, e3)
                  ∧ w' = after_request check e3 (after_request create e2 w1))
  ∧ (valid_index_name es_index = true →
     ∀ w : World RefEngine,
       match indices (conn w) !! es_index with
       | Some ix =>
           (add_collection collection_id w).1
           = inl (CollectionExistsError es_index)
           ∧ conn (add_collection collection_id w).2 = conn w
       | None =>
           (add_collection collection_id w).1 = inr true
           ∧ indices (conn (add_collection collection_id w).2)
             = <[es_index := mkIndex SETTINGS ∅]> (indices (conn w))
           ∧ (has_collection collection_id
                (add_collection collection_id w).2).1 = inr true
       end).
Proof.
  intros es_index check create Hne. split.
  - intros E C w present e1 Hcheck w1.
    rewrite (add_collection_run collection_id w present e1 Hne Hcheck).
    fold es_index check create w1. destruct present; [done|].
    intros b w'. split.
    + destruct (conn_indices_create es_index SETTINGS e1) as [[err|[]] e2];
        [done|].
      destruct (conn_indices_exists es_index e2) as [[err|b'] e3] eqn:H2;
        [done|].
      cbv zeta. intros [= <- <-]. by exists e2, e3.
    + intros (e2 & e3 & -> & Hb & ->). simpl. by rewrite Hb.
  - intros Hvalid w.
    assert (Hcheck : conn_indices_exists es_index (conn w)
                     = (inr (index_exists (conn w) es_index), conn w))
      by reflexivity.
    rewrite (add_collection_run collection_id w _ _ Hne Hcheck).
    fold es_index check create. unfold index_exists.
    destruct (indices (conn w) !! es_index) as [ix|] eqn:Hix; [done|].
    cbn [conn_indices_create RefEngine_client]. unfold ref_indices_create.
    rewrite Hix, Hvalid.
    cbn [conn_indices_exists RefEngine_client]. unfold ref_indices_exists.
    unfold index_exists, set_indices. cbn [indices].
    rewrite lookup_insert_eq. split; [done|]. split; [done|].
    rewrite has_collection_ref by done. fold es_index.
    unfold index_exists, after_request. simpl.
    by rewrite lookup_insert_eq.
Qed.

Lemma add_collection_precheck_witness :
  let lossy := mkWorld (mkScripted [false; false]) ∅ 0 [] [] in
  let absent := world (mkEngine ∅ 1) ∅ 0 in
  es_id "A:B" ≠ ""
  ∧ (add_collection "A:B" lossy).1 = inr false
  ∧ (add_collection "A:B" absent).1 = inr true
  ∧ indices (conn (add_collection "A:B" absent).2)
    = {[ "a-b" := mkIndex SETTINGS ∅ ]}.
Proof.
  intros lossy absent.
  assert (Hne : es_id "A:B" ≠ "") by (by vm_compute).
  destruct (add_collection_precheck "A:B" Hne) as [Hany Href].
  split; [exact Hne|]. split.
  - pose proof (Hany Scripted _ lossy false (mkScripted [false]) eq_refl)
      as Hrun.
    cbv zeta in Hrun.
    eassert (Hadd : add_collection "A:B" lossy = (inr false, _)).
    { eapply (proj2 (Hrun false _)).
      exists (mkScripted [false]), (mkScripted []).
      split; [reflexivity|]. split; reflexivity. }
    by rewrite Hadd.
  - specialize (Href eq_refl absent).
    change (indices (conn absent) !! es_id "A:B") with (@None EsIndex) in Href.
    destruct Href as (Hr & Hi & _). split; [exact Hr|]. rewrite Hi.
    by vm_compute.
Defined.

(** C4. [delete_collection] decides by its own existence check.  For
    every client: when the check answers that the collection is absent, it
    logs and raises the not-found error, and the check is the only request
    that has been sent; when the check answers that it is present, the
    call asks again, deletes the index if it is still there, asks a last
    time, and returns the negation of that last answer: [True] only when
    the engine itself says that the index is gone.  On the reference
    engine, for a name the engine accepts: an absent collection leaves the
    engine as it was; a present one is removed, the call returns [True],
    and [has_collection] then answers [False]. *)
Theorem delete_collection_confirmed (collection_id : string) :
  let es_index := es_id collection_id in
  let check := ReqIndicesExists es_index in
  let remove := ReqIndicesDelete es_index in
  es_index ≠ "" →
  (∀ (E : Type) (C : EsClient E) (w : World E) (present : bool) (e1 : E),
     conn_indices_exists es_index (conn w) = (inr present, e1) →
     let w1 := after_request check e1 w in
     if present then
       ∀ b w', delete_collection collection_id w = (inr b, w') ↔
         ∃ (still present' : bool) e2 e3 e4,
           conn_indices_exists es_index e1 = (inr still, e2)
           ∧ (if still then conn_indices_delete es_index e2 = (inr tt, e3)
              else e3 = e2)
           ∧ conn_indices_exists es_index e3 = (inr present', e4)
           ∧ b = negb present'
           ∧ w' = after_request check e4
                    (let w2 := after_request check e2 w1 in
                     if still then after_request remove e3 w2 else w2)
     else
       delete_collection collection_id w
       = (inl (CollectionNotFoundError es_index),
          mkWorld e1 (heap w) (clock w1) (trace w ++ [check])
            (LOGGER w ++ [(ERROR, "index " +:+ es_index
                                   +:+ " does not exist")])))
  ∧ (valid_index_name es_index = true →
     ∀ w : World RefEngine,
       match indices (conn w) !! es_index with
       | None =>
           (delete_collection collection_id w).1
           = inl (CollectionNotFoundError es_index)
           ∧ conn (delete_collection collection_id w).2 = conn w
       | Some ix =>
           (delete_collection collection_id w).1 = inr true
           ∧ indices (conn (delete_collection collection_id w).2)
             = delete es_index (indices (conn w))
           ∧ (has_collection collection_id
                (delete_collection collection_id w).2).1 = inr false
       end).
Proof.
  intros es_index check remove Hne. split.
  - intros E C w present e1 Hcheck w1.
    rewrite (delete_collection_run collection_id w present e1 Hne Hcheck).
    fold es_index check remove w1. destruct present; [|done].
    intros b w'. split.
    + destruct (conn_indices_exists es_index e1) as [[err|still] e2]; [done|].
      destruct still.
      * destruct (conn_indices_delete es_index e2) as [[err|[]] e3] eqn:H2;
          [done|].
        destruct (conn_indices_exists es_index e3) as [[err|present'] e4] eqn:H3;
          [done|].
        cbv zeta. intros [= <- <-]. by exists true, present', e2, e3, e4.
      * destruct (conn_indices_exists es_index e2) as [[err|present'] e4] eqn:H3;
          [done|].
        cbv zeta. intros [= <- <-]. by exists false, present', e2, e2, e4.
    + intros (still & present' & e2 & e3 & e4 & -> & Hdel & Hlast & -> & ->).
      destruct still.
      * rewrite Hdel. cbv zeta. by rewrite Hlast.
      * subst e3. cbv zeta. by rewrite Hlast.
  - intros Hvalid w.
    assert (Hcheck : conn_indices_exists es_index (conn w)
                     = (inr (index_exists (conn w) es_index), conn w))
      by reflexivity.
    rewrite (delete_collection_run collection_id w _ _ Hne Hcheck).
    fold es_index check remove. unfold index_exists.
    destruct (indices (conn w) !! es_index) as [ix|] eqn:Hix; [|done].
    cbn [conn_indices_exists RefEngine_client]. unfold ref_indices_exists.
    unfold index_exists. rewrite Hix.
    cbn [conn_indices_delete RefEngine_client]. unfold ref_indices_delete.
    rewrite Hix. unfold set_indices. cbn [indices].
    rewrite lookup_delete_eq. split; [done|]. split; [done|].
    rewrite has_collection_ref by done. fold es_index.
    unfold index_exists, after_request. simpl.
    by rewrite lookup_delete_eq.
Qed.

Lemma delete_collection_confirmed_witness :
  let stubborn := mkWorld (mkScripted [true; true; true]) ∅ 0 [] [] in
  let present := world (mkEngine {[ "a-b" := mkIndex SETTINGS ∅ ]} 1) ∅ 0 in
  es_id "A:B" ≠ ""
  ∧ (delete_collection "A:B" stubborn).1 = inr false
  ∧ (delete_collection "A:B" present).1 = inr true
  ∧ indices (conn (delete_collection "A:B" present).2) = ∅.
Proof.
  intros stubborn present.
  assert (Hne : es_id "A:B" ≠ "") by (by vm_compute).
  destruct (delete_collection_confirmed "A:B" Hne) as [Hany Href].
  split; [exact Hne|]. split.
  - pose proof (Hany Scripted _ stubborn true (mkScripted [true; true]) eq_refl)
      as Hrun.
    cbv zeta in Hrun.
    eassert (Hdel : delete_collection "A:B" stubborn = (inr false, _)).
    { eapply (proj2 (Hrun false _)).
      exists true, true, (mkScripted [true]), (mkScripted [true]),
             (mkScripted []).
      split; [reflexivity|]. split; [reflexivity|]. split; [reflexivity|].
      split; reflexivity. }
    by rewrite Hdel.
  - specialize (Href eq_refl present).
    change (indices (conn present) !! es_id "A:B")
      with (Some (mkIndex SETTINGS ∅)) in Href.
    destruct Href as (Hr & Hi & _). split; [exact Hr|]. rewrite Hi.
    by vm_compute.
Defined.

(** ** Which index a method addresses *)

Section Addressing.

Context {E : Type} `{!EsClient E}.

Lemma has_collection_frame (collection_id : string) (w : World E) :
  ∃ rs, trace (has_collection collection_id w).2 = trace w ++ rs
        ∧ Forall (λ q, req_index q = Some (es_id collection_id)) rs
        ∧ heap (has_collection collection_id w).2 = heap w
        ∧ LOGGER (has_collection collection_id w).2 = LOGGER w.
Proof. by apply required_frame. Qed.

Lemma has_collection_addresses (collection_id : string) (w : World E) :
  ∃ rs, trace (has_collection collection_id w).2 = trace w ++ rs
        ∧ Forall (λ q, req_index q = Some (es_id collection_id)) rs.
Proof.
  destruct (has_collection_frame collection_id w) as (rs & ? & ? & _). eauto.
Qed.

Lemma add_collection_addresses (collection_id : string) (w : World E) :
  ∃ rs, trace (add_collection collection_id w).2 = trace w ++ rs
        ∧ Forall (λ q, req_index q = Some (es_id collection_id)) rs
        ∧ heap (add_collection collection_id w).2 = heap w.
Proof.
  unfold add_collection, bind.
  destruct (has_collection_frame collection_id w) as (rs1 & H1 & Hrs1 & Hh1 & _).
  destruct (has_collection collection_id w) as [[err|[]] w1]; simpl in *;
    [by exists rs1|by exists rs1|].
  destruct (required_frame (es_id collection_id) EmptyIndex
              (ReqIndicesCreate (es_id collection_id) SETTINGS)
              (conn_indices_create (es_id collection_id) SETTINGS) w1 eq_refl)
    as (rs2 & H2 & Hrs2 & Hh2 & _).
  fold (client_indices_create (es_id collection_id) SETTINGS) in H2, Hh2.
  destruct (client_indices_create _ _ w1) as [[err|[]] w2]; simpl in *.
  - exists (rs1 ++ rs2). rewrite H2, H1, <- app_assoc. split; [done|].
    split; [by apply Forall_app|congruence].
  - destruct (has_collection_frame collection_id w2) as (rs3 & H3 & Hrs3 & Hh3 & _).
    exists (rs1 ++ rs2 ++ rs3). rewrite H3, H2, H1, <- !app_assoc.
    split; [done|]. split; [by rewrite !Forall_app|congruence].
Qed.

Lemma delete_collection_addresses (collection_id : string) (w : World E) :
  ∃ rs, trace (delete_collection collection_id w).2 = trace w ++ rs
        ∧ Forall (λ q, req_index q = Some (es_id collection_id)) rs.
Proof.
  unfold delete_collection, bind.
  destruct (has_collection_frame collection_id w) as (rs1 & H1 & Hrs1 & _).
  destruct (has_collection collection_id w) as [[err|[]] w1]; simpl in *;
    [by exists rs1| |by exists rs1].
  destruct (has_collection_frame collection_id w1) as (rs2 & H2 & Hrs2 & _).
  unfold has_collection in H2.
  destruct (client_indices_exists _ w1) as [[err|still] w2]; simpl in *.
  { exists (rs1 ++ rs2). rewrite H2, H1, <- app_assoc. split; [done|].
    by apply Forall_app. }
  assert (∃ rs3, trace ((if still
                         then client_indices_delete (es_id collection_id)
                         else ret tt) w2).2 = trace w2 ++ rs3
                 ∧ Forall (λ q, req_index q = Some (es_id collection_id)) rs3)
    as (rs3 & H3 & Hrs3).
  { destruct still.
    - destruct (required_frame (es_id collection_id) EmptyIndex
                  (ReqIndicesDelete (es_id collection_id))
                  (conn_indices_delete (es_id collection_id)) w2 eq_refl)
        as (rs3 & H3 & Hrs3 & _). eauto.
    - exists []. simpl. by rewrite app_nil_r. }
  destruct ((if still then client_indices_delete (es_id collection_id)
             else ret tt) w2) as [[err|[]] w3]; simpl in *.
  { exists (rs1 ++ rs2 ++ rs3). rewrite H3, H2, H1, <- !app_assoc.
    split; [done|]. by rewrite !Forall_app. }
  destruct (has_collection_frame collection_id w3) as (rs4 & H4 & Hrs4 & _).
  destruct (has_collection collection_id w3) as [[err|b] w4]; simpl in *;
    (exists (rs1 ++ rs2 ++ rs3 ++ rs4);
     rewrite H4, H3, H2, H1, <- !app_assoc; split; [done|];
     by rewrite !Forall_app).
Qed.

(** [delete_collection_item] names the identifier it was given. *)
Lemma delete_collection_item_trace (collection_id item_id : string)
    (w : World E) :
  collection_id ≠ "" → item_id ≠ "" →
  trace (delete_collection_item collection_id item_id w).2
  = trace w ++ [ReqDelete collection_id item_id].
Proof.
  intros Hc Hi. rewrite delete_collection_item_run.
  rewrite decide_False by tauto.
  by destruct (conn_delete collection_id item_id (conn w)) as [[?|?] ?].
Qed.

End Addressing.

(** C2 (the code departs from it).  [has_collection], [add_collection] and
    [delete_collection] address [es_id collection_id] (lemmas above, and
    [upsert_addresses] below), but [delete_collection_item] hands the
    identifier to the engine as it is: for the collection ["A:B"], stored
    under ["a-b"], the request names the index ["A:B"], the engine knows no
    such index, and the item stays where it is. *)
Theorem delete_collection_item_skips_es_id :
  let e := mkEngine {[ "a-b" := mkIndex SETTINGS {[ "x" := JObj ∅ ]} ]} 1 in
  let w := world e ∅ 0 in
  es_id "A:B" = "a-b"
  ∧ (has_collection "A:B" w).1 = inr true
  ∧ trace (delete_collection_item "A:B" "x" w).2 = [ReqDelete "A:B" "x"]
  ∧ (delete_collection_item "A:B" "x" w).1
    = inl (ItemDeletionError
             (ClientException (not_found "index_not_found_exception")))
  ∧ conn (delete_collection_item "A:B" "x" w).2 = e
  ∧ (delete_collection_item "a-b" "x" w).1 = inr true.
Proof. vm_compute. repeat split. Qed.
(** ** The retention sweep *)

Lemma parse_query_by_date (before : Z) :
  parse_query (query_by_date before)
  = Some [ (["properties"; "resultTime"], before);
           (["properties"; "pubTime"], before) ].
Proof. reflexivity. Qed.

Lemma query_matches_expired (before : Z) (doc : json) :
  query_matches [ (["properties"; "resultTime"], before);
                  (["properties"; "pubTime"], before) ] doc
  = expired before doc.
Proof.
  unfold query_matches, expired, range_matches, older_or_equal, date_at.
  simpl. rewrite orb_false_r.
  f_equal.
  - by destruct (json_get "properties" doc) as [j|];
      [destruct (json_get "resultTime" j) as [[]|]|].
  - by destruct (json_get "properties" doc) as [j|];
      [destruct (json_get "pubTime" j) as [[]|]|].
Qed.

Lemma ref_delete_by_query_purges index before e ix :
  indices e !! index = Some ix →
  ∃ answer,
    ref_delete_by_query index (query_by_date before) e
    = (inr answer, set_indices e (<[index := purge before ix]> (indices e))).
Proof.
  intros Hix. unfold ref_delete_by_query. rewrite Hix, parse_query_by_date.
  eexists. f_equal. f_equal. f_equal. unfold purge. f_equal.
  apply map_filter_ext. intros k doc _.
  change (query_matches [ (["properties"; "resultTime"], before);
                          (["properties"; "pubTime"], before) ] doc = false
          ↔ expired before doc = false).
  by rewrite query_matches_expired.
Qed.

Lemma sweep_loop before (l : list string) (w : World RefEngine) :
  (∀ index, index ∈ l → is_Some (indices (conn w) !! index)) →
  for_each l (λ index,
    let* _ := request (ReqDeleteByQuery index (query_by_date before))
                (conn_delete_by_query index (query_by_date before)) in
    ret tt) w
  = (inr tt,
     mkWorld (set_indices (conn w) (purge_each before l (indices (conn w))))
             (heap w)
             (clock w + Z.of_nat (List.length l) * request_seconds (conn w))
             (trace w ++ ((λ index, ReqDeleteByQuery index (query_by_date before)) <$> l))
             (LOGGER w)).
Proof.
  revert w. induction l as [|index l IH]; intros w Hall.
  - simpl. unfold ret. destruct w as [[] ? ? ? ?]; simpl.
    rewrite app_nil_r. do 3 f_equal. lia.
  - destruct (Hall index) as [ix Hix]; [left|].
    destruct (ref_delete_by_query_purges index before (conn w) ix Hix)
      as [answer Hq].
    cbn [for_each]. unfold bind at 1. unfold bind at 1.
    rewrite (request_ok _ _ _ _ _ Hq). unfold ret at 1.
    rewrite IH.
    + unfold after_request. simpl. f_equal. f_equal.
      * unfold set_indices. simpl. f_equal.
        f_equal. apply map_eq. intros k. rewrite lookup_alter.
        case_decide as Hk; [subst k|].
        -- by rewrite lookup_insert_eq, Hix.
        -- by rewrite lookup_insert_ne.
      * lia.
      * by rewrite <- app_assoc.
    + intros k Hk. unfold after_request. simpl.
      destruct (decide (index = k)) as [->|Hne].
      * rewrite lookup_insert_eq. eauto.
      * rewrite lookup_insert_ne by done. apply Hall. by right.
Qed.

Lemma purge_each_lookup before (l : list string) :
  NoDup l → ∀ (ixs : gmap string EsIndex) k,
  purge_each before l ixs !! k
  = if decide (k ∈ l) then purge before <$> ixs !! k else ixs !! k.
Proof.
  unfold purge_each. induction 1 as [|index l Hnotin Hnd IH]; intros ixs k.
  - case_decide as Hk; [by apply elem_of_nil in Hk|done].
  - cbn [foldl]. rewrite IH, lookup_alter.
    destruct (decide (index = k)) as [->|Hne], (decide (k ∈ l)) as [Hin|Hnin],
      (decide (k ∈ _ :: l)) as [Hin'|Hnin'];
      try rewrite elem_of_cons in Hin'; try rewrite elem_of_cons in Hnin';
      try reflexivity; exfalso; try tauto.
    destruct Hin' as [->|?]; tauto.
Qed.

Lemma purge_all before (ixs : gmap string EsIndex) :
  purge_each before (map_to_list ixs).*1 ixs = purge before <$> ixs.
Proof.
  apply map_eq. intros k.
  rewrite purge_each_lookup by apply NoDup_fst_map_to_list.
  rewrite lookup_fmap. case_decide as Hk; [done|].
  destruct (ixs !! k) as [ix|] eqn:Hix; [|done].
  exfalso. apply Hk. apply list_elem_of_fmap.
  exists (k, ix). split; [done|]. by apply elem_of_map_to_list.
Qed.

(** C1. [delete_collections_by_retention days] asks the engine for all its
    indices, reads the clock once, and sends one delete-by-query per index,
    every one with the same threshold [before] (the time of that one
    reading minus [days]) although the clock moves on with each request.
    Afterwards every index holds exactly the items that are not expired at
    [before]: an item goes when its [resultTime] or its [pubTime] is at or
    before the threshold, the boundary included. *)
Theorem retention_sweep (days : Z) (w : World RefEngine) :
  let s := request_seconds (conn w) in
  let names := (map_to_list (indices (conn w))).*1 in
  let before := clock w + s - days * 86400 in
  delete_collections_by_retention days w
  = (inr tt,
     mkWorld (set_indices (conn w) (purge before <$> indices (conn w)))
             (heap w)
             (clock w + s + Z.of_nat (List.length names) * s)
             (trace w ++ ReqIndicesGet "*"
                :: ((λ index, ReqDeleteByQuery index (query_by_date before))
                      <$> names))
             (LOGGER w))
  ∧ NoDup names
  ∧ (∀ index, index ∈ names ↔ is_Some (indices (conn w) !! index))
  ∧ (∀ index ix id doc,
       indices (conn w) !! index = Some ix →
       (ix_docs (purge before ix) !! id = Some doc
        ↔ ix_docs ix !! id = Some doc ∧ expired before doc = false))
  ∧ (∀ doc t,
       date_at ["properties"; "resultTime"] doc = Some t
       ∨ date_at ["properties"; "pubTime"] doc = Some t →
       t ≤ before → expired before doc = true).
Proof.
  intros s names before.
  assert (Hnames : ∀ index,
             index ∈ names ↔ is_Some (indices (conn w) !! index)).
  { intros index. unfold names. rewrite list_elem_of_fmap. split.
    - intros ([k ix] & -> & Hin). apply elem_of_map_to_list in Hin. eauto.
    - intros [ix Hix]. exists (index, ix). split; [done|].
      by apply elem_of_map_to_list. }
  split; [|split; [apply NoDup_fst_map_to_list|split; [exact Hnames|split]]].
  - unfold delete_collections_by_retention.
    unfold bind at 1. unfold request at 1.
    change (conn_indices_get "*" (conn w)) with (inr (A:=EsException) names, conn w).
    cbv iota beta. unfold bind at 1. unfold datetime_days_ago at 1.
    cbv iota beta. unfold bind at 1.
    change (clock (after_request (ReqIndicesGet "*") (conn w) w)) with (clock w + s).
    fold before.
    rewrite sweep_loop.
    + unfold ret, after_request. simpl. fold names s before.
      unfold names at 1. rewrite purge_all.
      f_equal. f_equal. by rewrite <- app_assoc.
    + intros index Hin. simpl. by apply Hnames.
  - intros index ix id doc Hix. unfold purge. simpl.
    by rewrite map_lookup_filter_Some.
  - intros doc t Hd Ht. unfold expired, older_or_equal.
    apply orb_true_iff.
    destruct Hd as [-> | ->]; [left|right]; by apply Z.leb_le.
Qed.

(** ** The check of the required environment variables *)

Section EnvCheck.

Import Env.

Lemma lookup_assign name n v ns :
  lookup_name n (assign name v ns)
  = if String.eqb name n then v else lookup_name n ns.
Proof.
  induction ns as [|[k x] ns IH]; simpl; [done|].
  destruct (String.eqb k name) eqn:Hk; simpl.
  - apply String.eqb_eq in Hk as ->. by destruct (String.eqb name n).
  - rewrite IH.
    destruct (String.eqb k n) eqn:Hkn, (String.eqb name n) eqn:Hnn; try done.
    apply String.eqb_eq in Hkn as ->. apply String.eqb_eq in Hnn as ->.
    by rewrite String.eqb_refl in Hk.
Qed.

Lemma assign_names_ok name v ns :
  is_module_name name = true → names_ok ns → names_ok (assign name v ns).
Proof.
  intros Hname. unfold names_ok.
  induction ns as [|[k x] ns IH]; simpl; intros Hns.
  - by repeat constructor.
  - destruct (String.eqb k name); simpl.
    + exact Hns.
    + inversion Hns; subst. constructor; [done|by apply IH].
Qed.

Lemma filter_nothing {A} (P : A → Prop) `{!∀ x, Decision (P x)} (l : list A) :
  Forall (λ x, ¬ P x) l → filter P l = [].
Proof.
  induction 1 as [|x l Hx _ IH]; [done|].
  by rewrite filter_cons_False.
Qed.

Lemma str_in_Str k xs :
  str_in k xs = true → In (Str k) xs.
Proof.
  unfold str_in. intros ([]& Hin & Heq)%existsb_exists; try done.
  simpl in Heq. by apply String.eqb_eq in Heq as ->.
Qed.

Lemma check_one_quiet required st rev :
  (∀ s, In (Str s) required → is_module_name s = false) →
  names_ok (globals st) → missing_environment_variables st = [] →
  names_ok (globals (check_one required st rev))
  ∧ missing_environment_variables (check_one required st rev) = [].
Proof.
  intros Hreq Hns Hmiss. unfold check_one.
  assert (Hrev : names_ok (assign "rev" rev (globals st)))
    by (by apply assign_names_ok).
  destruct (is_None rev); [|done].
  rewrite filter_nothing.
  - simpl. split; [|done]. by apply assign_names_ok.
  - unfold names_ok in Hrev. rewrite Forall_fmap in Hrev.
    eapply Forall_impl; [exact Hrev|].
    intros [k v] Hk [_ Hin]. simpl in *.
    apply str_in_Str, Hreq in Hin. congruence.
Qed.

Lemma check_loop_quiet required (revs : list value) st :
  (∀ s, In (Str s) required → is_module_name s = false) →
  names_ok (globals st) → missing_environment_variables st = [] →
  missing_environment_variables (foldl (check_one required) st revs) = [].
Proof.
  intros Hreq. revert st.
  induction revs as [|rev revs IH]; intros st Hns Hmiss; [done|].
  simpl. destruct (check_one_quiet required st rev) as [? ?]; try done.
  by apply IH.
Qed.

Lemma check_required_quiet ns :
  names_ok ns →
  (∀ name s, In name ["DATADIR"; "DOCKER_API_URL"; "API_TYPE"; "URL"] →
             lookup_name name ns = Str s → is_module_name s = false) →
  ∃ st, check_required ns = inr st.
Proof.
  intros Hns Hval. unfold check_required.
  rewrite check_loop_quiet; [eauto| |by repeat apply assign_names_ok|done].
  intros s Hin. simpl in Hin.
  rewrite !lookup_assign in Hin. simpl in Hin.
  destruct Hin as [H|[H|[H|[H|[]]]]];
    (eapply Hval; [|exact H]); simpl; tauto.
Qed.

End EnvCheck.

(** C9 as stated fails: the membership test compares a variable's name
    with the values of the required variables, and a value can be such a
    name.  Here [URL] is unset and [API_TYPE] is ["URL"], so the name
    ["URL"] is found and the import raises the not-set error. *)
Lemma env_check_can_fire :
  environ_with_a_name !! "PYGEOBOX_URL" = None
  ∧ Env.import_module environ_with_a_name
    = inl (Env.EnvironmentError "Environment variables not set! = ['URL']").
Proof. split; vm_compute; reflexivity. Qed.

(** C9, amended.  The not-set error is raised only when the value of
    [PYGEOBOX_DOCKER_API_URL], [PYGEOBOX_API_TYPE] or [PYGEOBOX_URL] is
    itself the name of a module-level variable; for every other
    environment, whichever of the three are unset, the import does not
    raise it.  And with [PYGEOBOX_DATADIR] set and
    [PYGEOBOX_API_BACKEND_URL] unset the import has already failed with
    the [AttributeError] of [None.rstrip]. *)
Theorem env_check_fires_only_on_a_name (environ : gmap string string) :
  (Env.no_value_names_a_variable environ = true →
   Env.is_not_set_error (Env.import_module environ) = false)
  ∧ (∀ datadir,
       environ !! "PYGEOBOX_DATADIR" = Some datadir →
       environ !! "PYGEOBOX_API_BACKEND_URL" = None →
       Env.import_module environ
       = inl (Env.AttributeError "'NoneType' object has no attribute 'rstrip'")).
Proof.
  split.
  - intros Hok. unfold Env.no_value_names_a_variable in Hok.
    simpl in Hok. rewrite !andb_true_iff in Hok.
    destruct Hok as (Hdocker & Htype & Hurl & _).
    unfold Env.import_module.
    destruct (environ !! "PYGEOBOX_DATADIR") as [datadir|]; [|done].
    destruct (environ !! "PYGEOBOX_API_BACKEND_URL") as [url|]; [|done].
    assert (Hquiet : ∀ v l1 l2,
      ∃ st, Env.check_required
              (Env.assign "LOGFILE" l2 (Env.assign "LOGLEVEL" l1
                (Env.assign "STORAGE_DATA_RETENTION_DAYS" v
                  (Env.assign_from_environ environ Env.later_names
                    (Env.assign "API_BACKEND_URL" (Env.Str (PyStr.rstrip "/" url))
                      (Env.assign_from_environ environ Env.first_names
                        (Env.assign "DATADIR_CONFIG"
                           (Env.PathOf (datadir +:+ "/config"))
                           (Env.assign "DATADIR" (Env.PathOf datadir)
                              Env.initial_namespace)))))))) = inr st).
    { intros v l1 l2. apply check_required_quiet.
      - cbn [Env.assign_from_environ Env.later_names Env.first_names].
        repeat (apply assign_names_ok; [reflexivity|]).
        unfold Env.names_ok. simpl. repeat constructor.
      - intros name s Hname.
        cbn [Env.assign_from_environ Env.later_names Env.first_names].
        rewrite !lookup_assign.
        unfold Env.environ_get.
        destruct Hname as [<-|[<-|[<-|[<-|[]]]]]; simpl; try done; intros Hs.
        + destruct (environ !! "PYGEOBOX_DOCKER_API_URL"); [|done].
          injection Hs as ->. by apply negb_true_iff.
        + destruct (environ !! "PYGEOBOX_API_TYPE"); [|done].
          injection Hs as ->. by apply negb_true_iff.
        + destruct (environ !! "PYGEOBOX_URL"); [|done].
          injection Hs as ->. by apply negb_true_iff. }
    destruct (environ !! "PYGEOBOX_STORAGE_DATA_RETENTION_DAYS") as [days|].
    + destruct (Env.py_int days); [|done].
      by destruct (Hquiet (Env.Int z)
        (Env.environ_get_default environ "PYGEOBOX_LOGGING_LOGLEVEL" "ERROR")
        (Env.environ_get_default environ "PYGEOBOX_LOGGING_LOGFILE" "stdout"))
        as [st ->].
    + by destruct (Hquiet Env.PyNone
        (Env.environ_get_default environ "PYGEOBOX_LOGGING_LOGLEVEL" "ERROR")
        (Env.environ_get_default environ "PYGEOBOX_LOGGING_LOGFILE" "stdout"))
        as [st ->].
  - intros datadir Hdir Hurl. unfold Env.import_module.
    by rewrite Hdir, Hurl.
Qed.

Lemma env_check_fires_only_on_a_name_witness :
  let unset : gmap string string :=
    {[ "PYGEOBOX_DATADIR" := "/data";
       "PYGEOBOX_API_BACKEND_URL" := "http://localhost:9200" ]} in
  let no_backend : gmap string string := {[ "PYGEOBOX_DATADIR" := "/data" ]} in
  Env.is_not_set_error (Env.import_module unset) = false
  ∧ Env.import_module no_backend
    = inl (Env.AttributeError "'NoneType' object has no attribute 'rstrip'").
Proof.
  intros unset no_backend. split.
  - apply (proj1 (env_check_fires_only_on_a_name unset)). reflexivity.
  - apply (proj2 (env_check_fires_only_on_a_name no_backend) "/data");
      reflexivity.
Defined.

(** ** Serialisation *)

Lemma dumps_depth_ref (h : Heap) n l :
  dumps_depth (S n) h (VRef l)
  = match h !! l with
    | Some d =>
        if bool_decide (map_Forall (λ _ (o : option json), is_Some o)
                          (dumps_depth n h <$> d))
        then Some (JObj (omap id (dumps_depth n h <$> d)))
        else None
    | None => None
    end.
Proof. reflexivity. Qed.

Lemma dumps_depth_mono (h : Heap) n v j :
  dumps_depth n h v = Some j → dumps_depth (S n) h v = Some j.
Proof.
  revert v j. induction n as [|n IH]; intros v j.
  - by destruct v.
  - destruct v as [| | | | |l]; try done.
    rewrite !dumps_depth_ref. destruct (h !! l) as [d|]; [|done].
    case_bool_decide as Hall; [|done]. intros [= <-].
    assert (Heq : dumps_depth (S n) h <$> d = dumps_depth n h <$> d).
    { apply map_eq. intros k. rewrite !lookup_fmap.
      destruct (d !! k) as [x|] eqn:Hk; [|done].
      destruct (Hall k (dumps_depth n h x)) as [jx Hjx].
      { by rewrite lookup_fmap, Hk. }
      cbn [fmap option_fmap option_map]. rewrite Hjx. f_equal. by apply IH. }
    rewrite Heq. by rewrite bool_decide_eq_true_2.
Qed.

Lemma dumps_depth_le (h : Heap) n m v j :
  (n ≤ m)%nat → dumps_depth n h v = Some j → dumps_depth m h v = Some j.
Proof. induction 1; [done|]. intros. by apply dumps_depth_mono, IHle. Qed.

Lemma dumps_depth_field (h : Heap) n l d j k x :
  h !! l = Some d → d !! k = Some x →
  dumps_depth (S n) h (VRef l) = Some j →
  ∃ jx, dumps_depth n h x = Some jx ∧ json_get k j = Some jx.
Proof.
  intros Hl Hk. rewrite dumps_depth_ref, Hl.
  case_bool_decide as Hall; [|done]. intros [= <-].
  destruct (Hall k (dumps_depth n h x)) as [jx Hjx].
  { by rewrite lookup_fmap, Hk. }
  exists jx. split; [done|]. cbn [json_get].
  by rewrite lookup_omap, lookup_fmap, Hk.
Qed.

Arguments dumps_depth : simpl never.

(** ** One turn of the generator *)

Section Upsert.

Context {E : Type} `{!EsClient E}.

Lemma gendata_step_ok es_index feature (w w1 : World E) raw :
  gendata_step es_index feature w = (inr raw, w1) →
  ∃ lf lp d dp v,
    feature = VRef lf ∧ heap w !! lf = Some d ∧ d !! "id" = Some v
    ∧ d !! "properties" = Some (VRef lp) ∧ heap w !! lp = Some dp
    ∧ raw = (es_index, v, feature)
    ∧ w1 = set_heap w (<[lp := <["id" := v]> dp]> (heap w)).
Proof.
  unfold gendata_step, bind, py_getitem, py_setitem, ret.
  destruct feature as [| | | | |lf]; try done. simpl.
  destruct (heap w !! lf) as [d|] eqn:Hlf; [|done].
  destruct (d !! "id") as [v|] eqn:Hid; [|done].
  destruct (d !! "properties") as [[| | | | |lp]|] eqn:Hp; try done. simpl.
  destruct (_ !! lp) as [dp|] eqn:Hlp; [|done]. simpl.
  destruct (decide (lp = lf)) as [->|Hne].
  - rewrite lookup_insert_eq, lookup_insert_eq.
    intros [= <- <-]. exists lf, lf, d, dp, v. by repeat split.
  - rewrite lookup_insert_ne by done. rewrite Hlf, Hid.
    intros [= <- <-]. exists lf, lp, d, dp, v. by repeat split.
Qed.

Lemma gendata_step_enrich es_index feature (w w1 : World E) raw :
  gendata_step es_index feature w = (inr raw, w1) →
  w1 = set_heap w (enrich (heap w) feature).
Proof.
  intros (lf & lp & d & dp & v & -> & Hlf & Hid & Hp & Hlp & _ & ->)
    %gendata_step_ok.
  unfold enrich. simpl. rewrite Hlf, Hid, Hp. simpl. by rewrite Hlp.
Qed.

Lemma gendata_step_frame es_index feature (w : World E) :
  let w1 := (gendata_step es_index feature w).2 in
  conn w1 = conn w ∧ trace w1 = trace w ∧ LOGGER w1 = LOGGER w
  ∧ clock w1 = clock w.
Proof.
  unfold gendata_step, bind, py_getitem, py_setitem, ret. simpl.
  destruct (getitem (heap w) feature "id"); [done|].
  destruct (getitem (heap w) feature "properties") as [|props]; [done|].
  destruct (setitem (heap w) props "id" _); [done|]. simpl.
  by destruct (getitem _ feature "id").
Qed.

Lemma expand_action_frame (raw : string * pyval * pyval) (w : World E) :
  (expand_action raw w).2 = w.
Proof.
  destruct raw as [[index id] source].
  unfold expand_action, bind, py_dumps, ret.
  destruct (dumps (heap w) id); [done|].
  by destruct (dumps (heap w) source).
Qed.

(** What is yielded and serialised in one turn is an enriched document
    addressed to [es_index]. *)
Lemma expand_action_ok index id source (w w2 : World E) a :
  expand_action (index, id, source) w = (inr a, w2) →
  ∃ jid jsource,
    dumps_depth (S (size (heap w))) (heap w) id = Some jid
    ∧ dumps_depth (S (size (heap w))) (heap w) source = Some jsource
    ∧ a = mkAction index jid jsource ∧ w2 = w.
Proof.
  unfold expand_action, bind, py_dumps, ret, dumps.
  destruct (dumps_depth _ _ id) as [jid|] eqn:Hid; [|done].
  destruct (dumps_depth _ _ source) as [jsource|] eqn:Hsource; [|done].
  intros [= <- <-]. by exists jid, jsource.
Qed.

(** What is yielded and serialised in one turn is an enriched document
    addressed to [es_index]. *)
Lemma turn_enriched es_index feature (w w1 w2 : World E) raw a :
  gendata_step es_index feature w = (inr raw, w1) →
  expand_action raw w1 = (inr a, w2) →
  _index a = es_index ∧ enriched a.
Proof.
  intros (lf & lp & d & dp & v & -> & Hlf & Hid & Hp & Hlp & -> & ->)
    %gendata_step_ok.
  intros (jid & jsrc & Hjid & Hsrc & -> & _)%expand_action_ok.
  simpl in Hjid, Hsrc.
  set (h1 := <[lp := <["id" := v]> dp]> (heap w)) in *.
  split; [done|]. unfold enriched. simpl.
  assert (∃ d1, h1 !! lf = Some d1 ∧ d1 !! "id" = Some v
                ∧ d1 !! "properties" = Some (VRef lp))
    as (d1 & Hlf1 & Hid1 & Hp1).
  { unfold h1. destruct (decide (lp = lf)) as [->|Hne].
    - rewrite lookup_insert_eq. eexists. split; [done|].
      rewrite lookup_insert_eq. split; [done|].
      rewrite lookup_insert_ne by done. congruence.
    - rewrite lookup_insert_ne by done. eauto. }
  assert (Hlp1 : h1 !! lp = Some (<["id" := v]> dp))
    by apply lookup_insert_eq.
  destruct (dumps_depth_field _ _ _ _ _ _ _ Hlf1 Hid1 Hsrc)
    as (jv & Hjv & Hget).
  apply dumps_depth_mono in Hjv. rewrite Hjv in Hjid.
  injection Hjid as <-. rewrite Hget. split; [done|].
  destruct (dumps_depth_field _ _ _ _ _ _ _ Hlf1 Hp1 Hsrc)
    as (jp & Hjp & Hgetp).
  rewrite Hgetp.
  destruct (size h1) as [|n] eqn:Hsize; [done|].
  destruct (dumps_depth_field _ _ _ _ _ "id" v Hlp1 (lookup_insert_eq _ _ _) Hjp)
    as (jv' & Hjv' & Hget').
  rewrite Hget'. f_equal.
  apply (dumps_depth_le _ _ (S (S n))) in Hjv'; [|lia]. congruence.
Qed.

(** What is yielded and serialised in one turn is the instruction for the
    feature, as the turn has left it. *)
Lemma turn_instruction es_index feature (w w1 w2 : World E) raw a :
  gendata_step es_index feature w = (inr raw, w1) →
  expand_action raw w1 = (inr a, w2) →
  instruction es_index (enrich (heap w) feature) feature a.
Proof.
  intros Hstep Hexp.
  pose proof (gendata_step_enrich _ _ _ _ _ Hstep) as Hw1.
  apply gendata_step_ok in Hstep
    as (lf & lp & d & dp & v & -> & Hlf & Hid & Hp & Hlp & -> & Hw1').
  apply expand_action_ok in Hexp as (jid & jsrc & Hjid & Hsrc & -> & _).
  assert (Hh1 : heap w1 = enrich (heap w) (VRef lf)) by (by rewrite Hw1).
  assert (Hh1' : heap w1 = <[lp := <["id" := v]> dp]> (heap w))
    by (by rewrite Hw1').
  rewrite <- Hh1. exists v. unfold dumps. rewrite Hjid, Hsrc.
  split; [|done]. rewrite Hh1'. simpl.
  destruct (decide (lp = lf)) as [->|Hne].
  - by rewrite !lookup_insert_eq.
  - rewrite lookup_insert_ne by done. by rewrite Hlf, Hid.
Qed.

Lemma process_bulk_chunk_frame (bulk_actions : list Action) (w : World E) :
  let w' := (process_bulk_chunk bulk_actions w).2 in
  trace w' = trace w ++ [ReqBulk bulk_actions] ∧ heap w' = heap w
  ∧ LOGGER w' = LOGGER w.
Proof.
  unfold process_bulk_chunk, bind.
  pose proof (request_trace (ReqBulk bulk_actions) (conn_bulk bulk_actions) w)
    as Hreq.
  destruct (request _ _ w) as [[err|results] w1]; [done|].
  by destruct (omap id results).
Qed.

Lemma written_bulk (chunks : list (list Action)) :
  written (ReqBulk <$> chunks) = List.concat chunks.
Proof.
  unfold written. induction chunks as [|c cs IH]; [done|].
  cbn [fmap list_fmap List.concat]. rewrite bind_cons. by rewrite IH.
Qed.


Lemma instructions_nil es_index (h : Heap) (items : list pyval) :
  instructions es_index h items [].
Proof. by destruct items. Qed.

(** The bulk helper over the generator, instruction by instruction: what
    it sends, in order, is a prefix of what was pending followed by the
    instructions for the items, and all of it when it returns normally. *)
Lemma streaming_bulk_run chunk_size es_index (items : list pyval) :
  ∀ (bulk_actions : list Action) (w w' : World E) r,
  streaming_bulk chunk_size (gendata es_index items) bulk_actions w = (r, w') →
  ∃ chunks new,
    trace w' = trace w ++ (ReqBulk <$> chunks)
    ∧ LOGGER w' = LOGGER w
    ∧ instructions es_index (heap w) items new
    ∧ List.concat chunks `prefix_of` bulk_actions ++ new
    ∧ (r = inr tt →
       heap w' = foldl enrich (heap w) items
       ∧ List.concat chunks = bulk_actions ++ new
       ∧ List.length new = List.length items).
Proof.
  unfold gendata.
  induction items as [|feature rest IH]; intros bulk_actions w w' r.
  - cbn [fmap list_fmap streaming_bulk].
    destruct bulk_actions as [|a0 pending].
    + intros [= <- <-]. exists [], []. simpl. rewrite app_nil_r.
      split; [done|]. split; [done|]. split; [done|]. by split.
    + intros Hrun.
      destruct (process_bulk_chunk_frame (a0 :: pending) w) as (Ht & Hh & Hl).
      rewrite Hrun in Ht, Hh, Hl. simpl in Ht, Hh, Hl.
      exists [a0 :: pending], []. cbn [fmap list_fmap List.concat foldl].
      rewrite !app_nil_r. split; [done|]. split; [done|]. split; [done|].
      split; [done|]. by intros _.
  - rewrite fmap_cons. cbn [streaming_bulk]. unfold bind at 1.
    pose proof (gendata_step_frame es_index feature w) as (_ & Ht1 & Hl1 & _).
    destruct (gendata_step es_index feature w) as [[err|raw] w1] eqn:Hstep;
      simpl in Ht1, Hl1.
    { intros [= <- <-]. exists [], []. simpl. rewrite app_nil_r.
      split; [done|]. split; [done|]. split; [done|].
      split; [apply prefix_nil|done]. }
    unfold bind at 1.
    pose proof (expand_action_frame raw w1) as Hw2.
    destruct (expand_action raw w1) as [[err|a] w2] eqn:Hexp; simpl in Hw2;
      subst w2.
    { intros [= <- <-]. exists [], []. simpl. rewrite app_nil_r.
      split; [done|]. split; [done|]. split; [done|].
      split; [apply prefix_nil|done]. }
    pose proof (turn_enriched _ _ _ _ _ _ _ Hstep Hexp) as [_ Ha].
    pose proof (turn_instruction _ _ _ _ _ _ _ Hstep Hexp) as Hins.
    apply gendata_step_enrich in Hstep as Hw1.
    assert (Hh1 : heap w1 = enrich (heap w) feature) by (by subst w1).
    destruct bulk_actions as [|a0 pending].
    + intros Hrun.
      destruct (IH [a] w1 w' r Hrun) as (chunks & new & Ht & Hl & Hnew & Hpre & Hok).
      exists chunks, (a :: new). rewrite Ht, Ht1, Hl, Hl1. split; [done|].
      split; [done|]. rewrite Hh1 in Hnew. split; [done|]. split; [done|].
      intros Hr. destruct (Hok Hr) as (-> & -> & Hlen). rewrite Hh1.
      split; [done|]. split; [done|]. simpl. by rewrite Hlen.
    + destruct (List.length (a0 :: pending) =? chunk_size)%nat.
      * unfold bind at 1.
        destruct (process_bulk_chunk_frame (a0 :: pending) w1)
          as (Ht3 & Hh3 & Hl3).
        destruct (process_bulk_chunk (a0 :: pending) w1) as [[err|[]] w3];
          simpl in Ht3, Hh3, Hl3.
        { intros [= <- <-]. exists [a0 :: pending], []. simpl.
          rewrite Ht3, Ht1, Hl3, Hl1, !app_nil_r. split; [done|].
          split; [done|]. split; [done|]. by split. }
        intros Hrun.
        destruct (IH [a] w3 w' r Hrun)
          as (chunks & new & Ht & Hl & Hnew & Hpre & Hok).
        exists ((a0 :: pending) :: chunks), (a :: new).
        rewrite Ht, Ht3, Ht1, Hl, Hl3, Hl1, <- app_assoc.
        split; [done|]. split; [done|]. rewrite Hh3, Hh1 in Hnew.
        split; [done|]. split.
        { cbn [List.concat]. by apply prefix_app. }
        intros Hr. destruct (Hok Hr) as (-> & Hall & Hlen). rewrite Hh3, Hh1.
        split; [done|]. split; [|simpl; by rewrite Hlen].
        cbn [List.concat]. by rewrite Hall.
      * intros Hrun.
        destruct (IH ((a0 :: pending) ++ [a]) w1 w' r Hrun)
          as (chunks & new & Ht & Hl & Hnew & Hpre & Hok).
        exists chunks, (a :: new). rewrite Ht, Ht1, Hl, Hl1. split; [done|].
        split; [done|]. rewrite Hh1 in Hnew. split; [done|].
        rewrite <- app_assoc in Hpre. split; [done|].
        intros Hr. destruct (Hok Hr) as (-> & -> & Hlen). rewrite Hh1.
        split; [done|]. split; [|simpl; by rewrite Hlen].
        by rewrite <- app_assoc.
Qed.

End Upsert.

(** ** Instructions *)

Lemma instructions_Forall es_index (acts : list Action) :
  ∀ (h : Heap) (items : list pyval),
  instructions es_index h items acts →
  Forall (λ a, _index a = es_index ∧ enriched a) acts.
Proof.
  induction acts as [|a acts IH]; intros h items; [done|].
  destruct items as [|item rest]; [done|].
  intros ((id & _ & _ & _ & Hindex) & Ha & Hrest).
  constructor; [done|]. by eapply IH.
Qed.

Lemma instructions_prefix es_index (acts1 acts2 : list Action) :
  acts1 `prefix_of` acts2 →
  ∀ (h : Heap) (items : list pyval),
  instructions es_index h items acts2 → instructions es_index h items acts1.
Proof.
  intros [rest ->]. induction acts1 as [|a acts1 IH]; intros h items.
  - intros _. by destruct items.
  - destruct items as [|item items]; [done|].
    intros (Hins & Ha & Hrest). split; [done|]. split; [done|]. by apply IH.
Qed.

(** The instruction at a position is the instruction for the item at that
    position, in the heap after the turns up to and including its own. *)
Lemma instructions_lookup es_index (acts : list Action) :
  ∀ (h : Heap) (items : list pyval) i a,
  instructions es_index h items acts → acts !! i = Some a →
  ∃ item, items !! i = Some item
          ∧ instruction es_index (foldl enrich h (take (S i) items)) item a
          ∧ enriched a.
Proof.
  induction acts as [|a0 acts IH]; intros h items i a; [done|].
  destruct items as [|item rest]; [done|].
  intros (Hins & Ha & Hrest). destruct i as [|i].
  - intros [= <-]. exists item. simpl. by split.
  - intros Hi. destruct (IH _ _ _ _ Hrest Hi) as (item' & Hitem & Hins' & Ha').
    exists item'. simpl. by split.
Qed.

(** ** [upsert_collection_items], for every client *)

Section UpsertSpec.

Context {E : Type} `{!EsClient E}.

Lemma written_app (rs1 rs2 : list Req) :
  written (rs1 ++ rs2) = written rs1 ++ written rs2.
Proof. unfold written. apply bind_app. Qed.

Lemma written_named index (rs : list Req) :
  Forall (λ q, req_index q = Some index) rs → written rs = [].
Proof.
  unfold written. induction 1 as [|q rs Hq _ IH]; [done|].
  rewrite bind_cons, IH. by destruct q.
Qed.

Lemma named_all_address index (rs : list Req) :
  Forall (λ q, req_index q = Some index) rs → all_address index rs.
Proof.
  unfold all_address. intros Hrs. eapply Forall_impl; [exact Hrs|].
  intros q Hq. unfold req_indices. rewrite Hq. by repeat constructor.
Qed.

(** The requests of one call: existence checks and, for an absent
    collection, its creation, all naming [es_id collection_id]; then bulk
    requests that carry, in order, the instructions for the items.  On a
    normal return every item has had its turn and its instruction has
    been sent, and the heap is the caller's heap after the turns. *)
Lemma upsert_run (collection_id : string) (items : list pyval)
    (w w' : World E) r :
  upsert_collection_items collection_id items w = (r, w') →
  ∃ admin chunks new,
    trace w' = trace w ++ admin ++ (ReqBulk <$> chunks)
    ∧ Forall (λ q, req_index q = Some (es_id collection_id)) admin
    ∧ instructions (es_id collection_id) (heap w) items new
    ∧ List.concat chunks `prefix_of` new
    ∧ (r = inr tt →
       heap w' = foldl enrich (heap w) items
       ∧ List.concat chunks = new
       ∧ List.length new = List.length items).
Proof.
  unfold upsert_collection_items, helpers_bulk. unfold bind at 1.
  destruct (has_collection_frame collection_id w) as (rs1 & H1 & Hrs1 & Hh1 & _).
  destruct (has_collection collection_id w) as [[err|present] w1];
    simpl in H1, Hh1.
  { intros [= <- <-]. exists rs1, [], []. simpl. rewrite app_nil_r.
    split; [done|]. split; [done|]. split; [apply instructions_nil|].
    by split. }
  unfold bind at 1. destruct present; cbn [negb].
  - unfold ret at 1. intros Hrun.
    destruct (streaming_bulk_run _ _ _ _ _ _ _ Hrun)
      as (chunks & new & Ht & _ & Hnew & Hpre & Hok).
    exists rs1, chunks, new. rewrite Ht, H1, <- app_assoc, <- Hh1.
    split; [done|]. split; [done|]. split; [done|]. by split.
  - unfold bind at 1. unfold log at 1. unfold bind at 1.
    set (w2 := mkWorld (conn w1) (heap w1) (clock w1) (trace w1) _).
    destruct (add_collection_addresses (es_id collection_id) w2)
      as (rs & H3 & Hrs & Hh3).
    rewrite es_id_idem in Hrs.
    destruct (add_collection (es_id collection_id) w2) as [[err|b] w3];
      simpl in H3, Hh3.
    { intros [= <- <-]. exists (rs1 ++ rs), [], [].
      simpl. rewrite app_nil_r, H3. simpl. rewrite H1, <- app_assoc.
      split; [done|]. split; [by apply Forall_app|].
      split; [apply instructions_nil|]. by split. }
    unfold ret at 1. intros Hrun.
    destruct (streaming_bulk_run _ _ _ _ _ _ _ Hrun)
      as (chunks & new & Ht & _ & Hnew & Hpre & Hok).
    exists (rs1 ++ rs), chunks, new.
    rewrite Ht, H3. simpl. rewrite H1, <- !app_assoc.
    rewrite Hh3 in Hnew, Hok. simpl in Hnew, Hok. rewrite Hh1 in Hnew, Hok.
    split; [done|]. split; [by apply Forall_app|]. split; [done|]. by split.
Qed.

Lemma upsert_spec (collection_id : string) (items : list pyval)
    (w w' : World E) r :
  upsert_collection_items collection_id items w = (r, w') →
  ∃ admin chunks,
    trace w' = trace w ++ admin ++ (ReqBulk <$> chunks)
    ∧ Forall (λ q, req_index q = Some (es_id collection_id)) admin
    ∧ Forall (Forall (λ a, _index a = es_id collection_id ∧ enriched a)) chunks
    ∧ (r = inr tt →
       heap w' = foldl enrich (heap w) items
       ∧ List.length (List.concat chunks) = List.length items).
Proof.
  intros (admin & chunks & new & Ht & Ha & Hnew & Hpre & Hok)%upsert_run.
  exists admin, chunks. split; [done|]. split; [done|]. split.
  - apply Forall_concat. eapply instructions_Forall.
    by eapply instructions_prefix.
  - intros Hr. destruct (Hok Hr) as (-> & -> & ->). done.
Qed.

Lemma upsert_addresses (collection_id : string) (items : list pyval)
    (w : World E) :
  ∃ rs, trace (upsert_collection_items collection_id items w).2 = trace w ++ rs
        ∧ all_address (es_id collection_id) rs.
Proof.
  destruct (upsert_collection_items collection_id items w) as [r w'] eqn:Hrun.
  destruct (upsert_spec _ _ _ _ _ Hrun) as (admin & chunks & Ht & Ha & Hc & _).
  exists (admin ++ (ReqBulk <$> chunks)). split; [done|].
  apply Forall_app. split; [by apply named_all_address|].
  apply Forall_fmap. eapply Forall_impl; [exact Hc|].
  intros acts Hacts. simpl. unfold req_indices. simpl.
  apply Forall_fmap. eapply Forall_impl; [exact Hacts|]. by intros a [? _].
Qed.

End UpsertSpec.

(** ** The caller's heap after the generator has run *)

Lemma separate_features_separated (h : Heap) (items : list pyval) :
  separate_features h items = true → separated h items.
Proof.
  unfold separate_features, separated. rewrite forallb_forall.
  intros Hall. split.
  - apply Forall_forall. intros f Hf%list_elem_of_In.
    specialize (Hall f Hf). by destruct (as_feature h f).
  - intros f g lf lp v lg lq u Hf%list_elem_of_In Hg%list_elem_of_In Haf Hag.
    specialize (Hall f Hf). rewrite Haf in Hall.
    rewrite forallb_forall in Hall. specialize (Hall g Hg).
    rewrite Hag in Hall. apply andb_true_iff in Hall as [Hne Hsame].
    apply negb_true_iff, Pos.eqb_neq in Hne. split; [done|].
    intros ->. rewrite Pos.eqb_refl in Hsame. simpl in Hsame.
    by apply bool_decide_eq_true in Hsame.
Qed.

Lemma as_feature_Some (h : Heap) f lf lp v :
  as_feature h f = Some (lf, lp, v) →
  f = VRef lf ∧ field h lf "id" = Some v
  ∧ field h lf "properties" = Some (VRef lp) ∧ is_Some (h !! lp).
Proof.
  unfold as_feature. destruct f as [| | | | |l]; try done.
  destruct (field h l "id") as [x|] eqn:Hid; [|done].
  destruct (field h l "properties") as [[| | | | |p]|] eqn:Hprops; try done.
  destruct (h !! p) eqn:Hp; [|done]. intros [= -> -> ->].
  rewrite Hp. by repeat split.
Qed.

Lemma enrich_feature (h : Heap) f lf lp v :
  as_feature h f = Some (lf, lp, v) →
  ∃ dp, h !! lp = Some dp ∧ enrich h f = <[lp := <["id" := v]> dp]> h.
Proof.
  intros (-> & Hid & Hp & [dp Hdp])%as_feature_Some.
  exists dp. split; [done|]. unfold enrich, field in *. simpl.
  destruct (h !! lf) as [d|]; [|done]. rewrite Hid, Hp. simpl.
  by rewrite Hdp.
Qed.

Lemma field_insert_id (h : Heap) lp dp v l key :
  h !! lp = Some dp →
  field (<[lp := <["id" := v]> dp]> h) l key
  = if decide (l = lp ∧ key = "id") then Some v else field h l key.
Proof.
  intros Hdp. unfold field. destruct (decide (l = lp)) as [->|Hl].
  - rewrite lookup_insert_eq, Hdp.
    destruct (decide (key = "id")) as [->|Hk].
    + rewrite lookup_insert_eq. by rewrite decide_True.
    + rewrite lookup_insert_ne by done. rewrite decide_False; [done|tauto].
  - rewrite lookup_insert_ne by done. rewrite decide_False; [done|tauto].
Qed.

Lemma as_feature_insert_id (h : Heap) lp dp v g lg lq u :
  h !! lp = Some dp → lp ≠ lg →
  as_feature h g = Some (lg, lq, u) →
  as_feature (<[lp := <["id" := v]> dp]> h) g = Some (lg, lq, u).
Proof.
  intros Hdp Hne (-> & Hid & Hp & [dq Hdq])%as_feature_Some.
  unfold as_feature. rewrite !(field_insert_id _ _ _ _ _ _ Hdp).
  rewrite !decide_False by (intros [? ?]; congruence).
  rewrite Hid, Hp.
  destruct (decide (lq = lp)) as [->|Hq].
  - by rewrite lookup_insert_eq.
  - rewrite lookup_insert_ne by done. by rewrite Hdq.
Qed.

Lemma props_loc_Some (h : Heap) g l :
  props_loc h g = Some l ↔ ∃ lg u, as_feature h g = Some (lg, l, u).
Proof.
  unfold props_loc. destruct (as_feature h g) as [[[lg lq] u]|]; split.
  - intros [= ->]. eauto.
  - by intros (? & ? & [= _ -> _]).
  - done.
  - by intros (? & ? & ?).
Qed.

(** The heap after all turns: only the [id] entries of the [properties]
    dicts have changed, each of them holds the [id] of its feature, and no
    object has come or gone. *)
Lemma enrich_all_spec (items : list pyval) : ∀ h : Heap,
  separated h items →
  (∀ l key,
     key ≠ "id" ∨ Forall (λ f, props_loc h f ≠ Some l) items →
     field (foldl enrich h items) l key = field h l key)
  ∧ (∀ f lf lp v,
       f ∈ items → as_feature h f = Some (lf, lp, v) →
       field (foldl enrich h items) lp "id" = Some v)
  ∧ (∀ l, is_Some (foldl enrich h items !! l) ↔ is_Some (h !! l)).
Proof.
  induction items as [|f rest IH]; intros h [Hall Hsep].
  - split; [done|]. split; [|done]. by intros ? ? ? ? ?%elem_of_nil.
  - apply Forall_cons in Hall as [[[[lf lp] v] Hf] Hall].
    destruct (enrich_feature _ _ _ _ _ Hf) as (dp & Hdp & Hstep).
    cbn [foldl]. rewrite Hstep.
    set (h1 := <[lp := <["id" := v]> dp]> h) in *.
    assert (Hkeep : ∀ g lg lq u,
               g ∈ f :: rest → as_feature h g = Some (lg, lq, u) →
               as_feature h1 g = Some (lg, lq, u)).
    { intros g lg lq u Hg Hag. apply as_feature_insert_id; [done| |done].
      eapply (Hsep f g); [by left|done|done|done]. }
    assert (Hback : ∀ g t, g ∈ rest → as_feature h1 g = Some t →
                           as_feature h g = Some t).
    { intros g t Hg Hag.
      destruct (proj1 (Forall_forall _ _) Hall g Hg) as [[[lg lq] u] Hg0].
      rewrite (Hkeep g lg lq u) in Hag; [congruence|by right|done]. }
    assert (Hsep1 : separated h1 rest).
    { split.
      - apply Forall_forall. intros g Hg.
        destruct (proj1 (Forall_forall _ _) Hall g Hg) as [[[lg lq] u] Hg0].
        exists (lg, lq, u). apply Hkeep; [by right|done].
      - intros a b la pa va lb pb vb Ha Hb Haf Hbf.
        eapply (Hsep a b); [by right|by right|by apply Hback|by apply Hback]. }
    destruct (IH h1 Hsep1) as (HA & HB & HC).
    split; [|split].
    + intros l key Hcond. rewrite HA.
      * unfold h1. rewrite (field_insert_id _ _ _ _ _ _ Hdp).
        rewrite decide_False; [done|]. intros [-> ->].
        destruct Hcond as [?|Hno]; [done|].
        apply Forall_cons in Hno as [Hno _]. apply Hno.
        apply props_loc_Some. eauto.
      * destruct Hcond as [?|Hno]; [by left|right].
        apply Forall_cons in Hno as [_ Hno].
        apply Forall_forall. intros g Hg Hpl.
        apply props_loc_Some in Hpl as (lg & u & Hag).
        apply (proj1 (Forall_forall _ _) Hno g Hg).
        apply props_loc_Some. exists lg, u. by apply Hback.
    + intros g lg lq u Hg Hag.
      assert (Hrest : g ∈ rest → field (foldl enrich h1 rest) lq "id" = Some u).
      { intros Hin. eapply HB; [done|]. apply Hkeep; [by right|done]. }
      apply elem_of_cons in Hg as [->|Hg]; [|by apply Hrest].
      rewrite Hf in Hag. injection Hag as <- <- <-.
      destruct (decide (Exists (λ g', props_loc h1 g' = Some lp) rest))
        as [Hex|Hnone].
      * apply Exists_exists in Hex as (g' & Hg' & Hpl).
        apply props_loc_Some in Hpl as (lg' & u' & Hag').
        rewrite (HB g' lg' lp u' Hg' Hag'). f_equal. symmetry.
        eapply (Hsep f g'); [by left|by right|done|by apply Hback|done].
      * apply not_Exists_Forall in Hnone; [|apply _].
        rewrite HA; [|by right].
        unfold h1. rewrite (field_insert_id _ _ _ _ _ _ Hdp).
        by rewrite decide_True.
    + intros l. rewrite HC. unfold h1.
      destruct (decide (l = lp)) as [->|Hne].
      * rewrite lookup_insert_eq, Hdp. split; eauto.
      * by rewrite lookup_insert_ne.
Qed.

(** ** What is written for an item *)

Lemma separated_take (h : Heap) (items : list pyval) n :
  separated h items → separated h (take n items).
Proof.
  intros [Hall Hsep]. split.
  - by apply Forall_take.
  - intros f g lf lp v lg lq u Hf%subseteq_take Hg%subseteq_take.
    by apply Hsep.
Qed.

(** A feature that is no [properties] dict of the features before it, or
    of itself, goes into its turn, and comes out of it, with the [id] it
    had. *)
Lemma enrich_keeps_id (h : Heap) (items : list pyval) i item :
  separated h items → items !! i = Some item →
  getitem h item "id"
  = getitem (foldl enrich h (take (S i) items)) item "id".
Proof.
  intros Hsep Hitem.
  pose proof (separated_take h items (S i) Hsep) as Hsep'.
  destruct (enrich_all_spec _ _ Hsep') as (HA & _ & HC).
  destruct Hsep as [Hall Hsep].
  assert (Hin : item ∈ items) by (by eapply list_elem_of_lookup_2).
  destruct (proj1 (Forall_forall _ _) Hall item Hin) as [[[lf lp] v] Haf].
  destruct (as_feature_Some _ _ _ _ _ Haf) as (-> & Hid & _ & _).
  assert (Hkeep : field (foldl enrich h (take (S i) items)) lf "id" = Some v).
  { rewrite HA; [done|]. right. apply Forall_forall.
    intros g Hg%subseteq_take (lg & u & Hag)%props_loc_Some.
    by eapply (Hsep g (VRef lf)). }
  unfold field in Hid, Hkeep. unfold getitem.
  destruct (h !! lf) as [d|]; [|done].
  destruct (foldl enrich h (take (S i) items) !! lf) as [d'|]; [|done].
  by rewrite Hid, Hkeep.
Qed.

(** C5. For every client and whatever the items: the bulk instructions
    [upsert_collection_items] hands to the engine are, in the order of the
    items, the instructions for the items: the one at a position goes to
    the collection's index and carries, serialised, the item at that
    position as its turn has left it (the turns of the items before it and
    its own), under the item's top-level [id] as key; the document's
    [properties.id] and its top-level [id] are both that key.  When the
    items keep their [properties] dicts apart, the [id] is the one the
    item had when the call began.  When the call returns normally there is
    one instruction per item. *)
Theorem upsert_writes_enriched {E : Type} `{!EsClient E}
    (collection_id : string) (items : list pyval) (w : World E) :
  let res := upsert_collection_items collection_id items w in
  ∃ rs,
    trace res.2 = trace w ++ rs
    ∧ (∀ i a,
         written rs !! i = Some a →
         ∃ item,
           items !! i = Some item
           ∧ instruction (es_id collection_id)
               (foldl enrich (heap w) (take (S i) items)) item a
           ∧ json_path ["properties"; "id"] (_source a) = Some (_id a)
           ∧ json_path ["id"] (_source a) = Some (_id a)
           ∧ (separate_features (heap w) items = true →
              getitem (heap w) item "id"
              = getitem (foldl enrich (heap w) (take (S i) items)) item "id"))
    ∧ (res.1 = inr tt → List.length (written rs) = List.length items).
Proof.
  intros res. unfold res.
  destruct (upsert_collection_items collection_id items w) as [r w'] eqn:Hrun.
  destruct (upsert_run _ _ _ _ _ Hrun)
    as (admin & chunks & new & Ht & Ha & Hnew & Hpre & Hok).
  exists (admin ++ (ReqBulk <$> chunks)). simpl.
  rewrite written_app, (written_named _ _ Ha), written_bulk. simpl.
  split; [done|]. split.
  - intros i a Hi.
    pose proof (instructions_prefix _ _ _ Hpre _ _ Hnew) as Hsent.
    destruct (instructions_lookup _ _ _ _ _ _ Hsent Hi)
      as (item & Hitem & Hins & Hid & Hp).
    exists item. split; [done|]. split; [done|]. split; [done|].
    split; [done|].
    intros Hsep%separate_features_separated. by apply enrich_keeps_id.
  - intros Hr. by destruct (Hok Hr) as (_ & -> & ->).
Qed.

(** An item whose [properties] dict holds another [id] is written with
    its own. *)
Lemma upsert_writes_enriched_witness :
  let w := world (mkEngine ∅ 1) plain_heap 0 in
  let res := upsert_collection_items "A:B" [VRef 1; VRef 2] w in
  let a := mkAction "a-b" (JStr "a")
             (JObj {[ "id" := JStr "a"; "type" := JStr "Feature";
                      "properties" := JObj {[ "resultTime" := JDate 100;
                                              "id" := JStr "a" ]} ]}) in
  field plain_heap 3 "id" = Some (VStr "old")
  ∧ written (trace res.2) !! 0%nat = Some a
  ∧ json_path ["properties"; "id"] (_source a) = Some (JStr "a").
Proof.
  intros w res a. split; [reflexivity|].
  assert (Ha : written (trace res.2) !! 0%nat = Some a)
    by (vm_compute; reflexivity).
  split; [exact Ha|].
  destruct (upsert_writes_enriched "A:B" [VRef 1; VRef 2] w)
    as (rs & Ht & Hall & _).
  fold res in Ht. change (trace w) with (@nil Req) in Ht.
  rewrite app_nil_l in Ht. rewrite Ht in Ha.
  destruct (Hall 0%nat a Ha) as (item & _ & _ & Hp & _).
  exact Hp.
Defined.

(** C10 as stated fails when features share their [properties] dict: both
    turns write to the one dict, the second write wins, and after the call
    has returned the first feature's [properties['id']] is the [id] of the
    second feature, not its own. *)
Lemma upsert_shared_properties_overwritten :
  let res := upsert_collection_items "c" [VRef 1; VRef 2]
               (world (mkEngine ∅ 1) shared_heap 0) in
  res.1 = inr tt
  ∧ as_feature (heap res.2) (VRef 1) = Some (1%positive, 3%positive, VStr "a")
  ∧ field (heap res.2) 3 "id" = Some (VStr "b").
Proof. vm_compute. repeat split. Qed.

(** C10, amended.  When the items are features whose [properties] dicts
    are kept apart (none of them is itself one of the features, and none
    is shared by features with different ids), then after a call that has
    returned, for every client: each feature is the feature it was, its
    [properties['id']] is its top-level [id]; every field other than the
    [id] entry of a feature's [properties] dict is what it was; and the
    heap holds the same objects. *)
Theorem upsert_mutates_in_place {E : Type} `{!EsClient E}
    (collection_id : string) (items : list pyval) (w w' : World E) :
  separate_features (heap w) items = true →
  upsert_collection_items collection_id items w = (inr tt, w') →
  (∀ f, f ∈ items →
     ∃ lf lp v, as_feature (heap w) f = Some (lf, lp, v)
                ∧ as_feature (heap w') f = Some (lf, lp, v)
                ∧ field (heap w') lp "id" = Some v)
  ∧ (∀ l key,
       key ≠ "id" ∨ Forall (λ f, props_loc (heap w) f ≠ Some l) items →
       field (heap w') l key = field (heap w) l key)
  ∧ (∀ l, is_Some (heap w' !! l) ↔ is_Some (heap w !! l)).
Proof.
  intros Hsep%separate_features_separated Hrun.
  destruct (upsert_spec _ _ _ _ _ Hrun) as (admin & chunks & _ & _ & _ & Hok).
  destruct Hok as [-> _]; [done|].
  destruct (enrich_all_spec items (heap w) Hsep) as (HA & HB & HC).
  split; [|by split].
  intros f Hf. destruct Hsep as [Hall Hsep].
  destruct (proj1 (Forall_forall _ _) Hall f Hf) as [[[lf lp] v] Haf].
  exists lf, lp, v. split; [done|]. split; [|by eapply HB].
  destruct (as_feature_Some _ _ _ _ _ Haf) as (-> & Hid & Hp & Hlp).
  assert (Hlf : Forall (λ g, props_loc (heap w) g ≠ Some lf) items).
  { apply Forall_forall. intros g Hg (lg & u & Hag)%props_loc_Some.
    by eapply (Hsep g (VRef lf)). }
  unfold as_feature. rewrite !HA by (by right). rewrite Hid, Hp.
  apply HC in Hlp as [dp ->]. done.
Qed.

Lemma upsert_mutates_in_place_witness :
  let w := world (mkEngine ∅ 1) plain_heap 0 in
  let w' := (upsert_collection_items "c" [VRef 1; VRef 2] w).2 in
  separate_features (heap w) [VRef 1; VRef 2] = true
  ∧ field (heap w') 3 "id" = Some (VStr "a")
  ∧ field (heap w') 1 "type" = Some (VStr "Feature").
Proof.
  intros w w'.
  assert (Hsep : separate_features (heap w) [VRef 1; VRef 2] = true)
    by reflexivity.
  assert (Hrun : upsert_collection_items "c" [VRef 1; VRef 2] w = (inr tt, w'))
    by (vm_compute; reflexivity).
  destruct (upsert_mutates_in_place "c" [VRef 1; VRef 2] w w' Hsep Hrun)
    as (Hid & Hframe & _).
  split; [exact Hsep|]. split.
  - destruct (Hid (VRef 1)) as (lf & lp & v & Hf & _ & Hv); [by left|].
    vm_compute in Hf. by injection Hf as <- <- <-.
  - rewrite Hframe by (by left). reflexivity.
Defined.

(** ** Bulk writes on the reference engine *)







(** ** Items stay items while the generator runs *)






Section Turn.

Context {E : Type} `{!EsClient E}.


End Turn.

(** ** [upsert_collection_items] on the reference engine *)


Lemma add_collection_creates (collection_id : string) (w : World RefEngine) :
  valid_index_name (es_id collection_id) = true →
  indices (conn w) !! es_id collection_id = None →
  add_collection collection_id w
  = (inr true,
     mkWorld (set_indices (conn w)
                (<[es_id collection_id := mkIndex SETTINGS ∅]> (indices (conn w))))
             (heap w)
             (clock w + request_seconds (conn w) + request_seconds (conn w)
              + request_seconds (conn w))
             (trace w ++ [ReqIndicesExists (es_id collection_id);
                          ReqIndicesCreate (es_id collection_id) SETTINGS;
                          ReqIndicesExists (es_id collection_id)])
             (LOGGER w)).
Proof.
  intros Hvalid Hix.
  destruct (valid_index_name_spec _ Hvalid) as [Hne _].
  assert (Hcheck : conn_indices_exists (es_id collection_id) (conn w)
                   = (inr false, conn w)).
  { cbn [conn_indices_exists RefEngine_client].
    unfold ref_indices_exists, index_exists. by rewrite Hix. }
  rewrite (add_collection_run collection_id w _ _ Hne Hcheck).
  cbn [conn_indices_create RefEngine_client]. unfold ref_indices_create.
  rewrite Hix, Hvalid.
  cbn [conn_indices_exists RefEngine_client].
  unfold ref_indices_exists, index_exists, set_indices. cbn [indices].
  rewrite lookup_insert_eq. unfold after_request. simpl.
  by rewrite <- !app_assoc.
Qed.



(** * Further properties of the backend *)

(** ** Identifiers that collide *)


(** Two identifiers with the same index name are one collection to the
    backend: the existence check, creation, deletion and upsert of one are
    those of the other. *)
Theorem colliding_identifiers {E : Type} `{!EsClient E} (c1 c2 : string) :
  es_id c1 = es_id c2 →
  has_collection (E:=E) c1 = has_collection c2
  ∧ add_collection (E:=E) c1 = add_collection c2
  ∧ delete_collection (E:=E) c1 = delete_collection c2
  ∧ ∀ items, upsert_collection_items (E:=E) c1 items
             = upsert_collection_items c2 items.
Proof.
  intros Heq.
  unfold upsert_collection_items, add_collection, delete_collection,
    has_collection.
  by rewrite Heq.
Qed.

Lemma colliding_identifiers_witness :
  es_id "Origin:A:B" = es_id "origin-a:b"
  ∧ (add_collection "origin-a:b"
       (add_collection "Origin:A:B" (world (mkEngine ∅ 1) ∅ 0)).2).1
    = inl (CollectionExistsError "origin-a-b").
Proof.
  split; [by vm_compute|].
  destruct (colliding_identifiers (E:=RefEngine) "Origin:A:B" "origin-a:b")
    as (_ & <- & _); [by vm_compute|].
  vm_compute. reflexivity.
Defined.

(** ** Creation and deletion compose *)

Lemma set_indices_same (e : RefEngine) : set_indices e (indices e) = e.
Proof. by destruct e. Qed.

Lemma delete_collection_removes (collection_id : string) (w : World RefEngine) :
  es_id collection_id ≠ "" →
  is_Some (indices (conn w) !! es_id collection_id) →
  delete_collection collection_id w
  = (inr true,
     mkWorld (set_indices (conn w) (delete (es_id collection_id) (indices (conn w))))
             (heap w)
             (clock w + request_seconds (conn w) + request_seconds (conn w)
              + request_seconds (conn w) + request_seconds (conn w))
             (trace w ++ [ReqIndicesExists (es_id collection_id);
                          ReqIndicesExists (es_id collection_id);
                          ReqIndicesDelete (es_id collection_id);
                          ReqIndicesExists (es_id collection_id)])
             (LOGGER w)).
Proof.
  intros Hne [ix Hix].
  assert (Hcheck : conn_indices_exists (es_id collection_id) (conn w)
                   = (inr true, conn w)).
  { cbn [conn_indices_exists RefEngine_client].
    unfold ref_indices_exists, index_exists. by rewrite Hix. }
  rewrite (delete_collection_run collection_id w _ _ Hne Hcheck).
  cbn [conn_indices_exists RefEngine_client].
  unfold ref_indices_exists, index_exists. rewrite Hix.
  cbn [conn_indices_delete RefEngine_client]. unfold ref_indices_delete.
  rewrite Hix. unfold set_indices. cbn [indices].
  rewrite lookup_delete_eq. unfold after_request. simpl.
  by rewrite <- !app_assoc.
Qed.

(** Creating a collection that did not exist, under a name the engine
    accepts, and deleting it again leaves the engine exactly as it was;
    both calls answer [True]. *)
Theorem add_then_delete_restores (collection_id : string) (w : World RefEngine) :
  valid_index_name (es_id collection_id) = true →
  indices (conn w) !! es_id collection_id = None →
  ∃ w1 w2,
    add_collection collection_id w = (inr true, w1)
    ∧ delete_collection collection_id w1 = (inr true, w2)
    ∧ conn w2 = conn w ∧ heap w2 = heap w ∧ LOGGER w2 = LOGGER w.
Proof.
  intros Hvalid Hix. destruct (valid_index_name_spec _ Hvalid) as [Hne _].
  eexists _, _.
  split; [by apply add_collection_creates|].
  split.
  - apply delete_collection_removes; [done|].
    simpl. rewrite lookup_insert_eq. eauto.
  - simpl. split; [|done]. unfold set_indices. simpl.
    rewrite delete_insert_eq, delete_id by done. by destruct (conn w).
Qed.

Lemma add_then_delete_restores_witness :
  let w := world (mkEngine {[ "other" := mkIndex SETTINGS ∅ ]} 1) ∅ 0 in
  conn (delete_collection "A:B" (add_collection "A:B" w).2).2 = conn w.
Proof.
  intros w.
  destruct (add_then_delete_restores "A:B" w) as (w1 & w2 & H1 & H2 & Hc & _);
    [by vm_compute|reflexivity|].
  rewrite H1. simpl. rewrite H2. simpl. exact Hc.
Defined.

(** Deleting a collection whose name the engine accepts and creating it
    again gives an empty index with the default settings: whatever it
    held before is gone, whatever its settings were; other indices are
    untouched. *)
Theorem delete_then_add_resets (collection_id : string) (w : World RefEngine) :
  valid_index_name (es_id collection_id) = true →
  is_Some (indices (conn w) !! es_id collection_id) →
  ∃ w1 w2,
    delete_collection collection_id w = (inr true, w1)
    ∧ add_collection collection_id w1 = (inr true, w2)
    ∧ indices (conn w2)
      = <[es_id collection_id := mkIndex SETTINGS ∅]> (indices (conn w)).
Proof.
  intros Hvalid Hix. destruct (valid_index_name_spec _ Hvalid) as [Hne _].
  eexists _, _.
  split; [by apply delete_collection_removes|].
  split.
  - apply add_collection_creates; [done|]. simpl. apply lookup_delete_eq.
  - simpl. apply insert_delete_eq.
Qed.

Lemma delete_then_add_resets_witness :
  let w := world (mkEngine {[ "a-b" := mkIndex JNull {[ "x" := JObj ∅ ]} ]} 1)
                 ∅ 0 in
  indices (conn (add_collection "A:B" (delete_collection "A:B" w).2).2)
  = {[ "a-b" := mkIndex SETTINGS ∅ ]}.
Proof.
  intros w.
  destruct (delete_then_add_resets "A:B" w) as (w1 & w2 & H1 & H2 & Hc).
  { by vm_compute. }
  { vm_compute. eauto. }
  rewrite H1. simpl. rewrite H2. simpl. rewrite Hc. vm_compute. reflexivity.
Defined.

(** ** What a bulk write leaves in the engine *)












(** ** Upsert into a collection that exists *)




(** ** Empty and malformed input *)


Section Abort.

Context {E : Type} `{!EsClient E}.


End Abort.



(** ** The retention sweep, whatever the engine does *)

Section SweepAny.

Context {E : Type} `{!EsClient E}.


End SweepAny.



(** ** What the sweep keeps *)

Lemma sweep_indices (days : Z) (w : World RefEngine) :
  indices (conn (delete_collections_by_retention days w).2)
  = purge (clock w + request_seconds (conn w) - days * 86400)
      <$> indices (conn w).
Proof.
  unfold delete_collections_by_retention.
  unfold bind at 1. unfold request at 1.
  change (conn_indices_get "*" (conn w))
    with (inr (A:=EsException) (map_to_list (indices (conn w))).*1, conn w).
  cbv iota beta. unfold bind at 1. unfold datetime_days_ago at 1.
  cbv iota beta. unfold bind at 1.
  change (clock (after_request (ReqIndicesGet "*") (conn w) w))
    with (clock w + request_seconds (conn w)).
  rewrite sweep_loop.
  - unfold ret. simpl. apply purge_all.
  - intros index Hin. simpl.
    apply list_elem_of_fmap in Hin as ([k ix] & -> & Hin).
    apply elem_of_map_to_list in Hin. eauto.
Qed.

(** A document with neither a [resultTime] nor a [pubTime] date is never
    purged, whatever the number of days; and the sweep removes no index and
    changes no index settings. *)
Theorem sweep_keeps_undated (days : Z) (w : World RefEngine)
    (index id : string) (ix : EsIndex) (doc : json) :
  indices (conn w) !! index = Some ix →
  ix_docs ix !! id = Some doc →
  date_at ["properties"; "resultTime"] doc = None →
  date_at ["properties"; "pubTime"] doc = None →
  let ixs' := indices (conn (delete_collections_by_retention days w).2) in
  stored ixs' index id = Some doc
  ∧ ix_body <$> ixs' !! index = Some (ix_body ix)
  ∧ ∀ i, is_Some (ixs' !! i) ↔ is_Some (indices (conn w) !! i).
Proof.
  intros Hix Hdoc Hr Hp ixs'. unfold ixs'. rewrite sweep_indices.
  split; [|split].
  - unfold stored. rewrite lookup_fmap, Hix. simpl.
    apply map_lookup_filter_Some. split; [done|]. simpl.
    unfold expired. by rewrite Hr, Hp.
  - by rewrite lookup_fmap, Hix.
  - intros i. rewrite lookup_fmap. by rewrite fmap_is_Some.
Qed.

Lemma sweep_keeps_undated_witness :
  let doc := JObj {[ "id" := JStr "x"; "properties" := JObj ∅ ]} in
  let e := mkEngine {[ "a" := mkIndex SETTINGS {[ "x" := doc ]} ]} 1 in
  stored (indices (conn (delete_collections_by_retention (-100000)
                           (world e ∅ 0)).2)) "a" "x" = Some doc.
Proof.
  intros doc e.
  by apply (sweep_keeps_undated (-100000) (world e ∅ 0) "a" "x"
              (mkIndex SETTINGS {[ "x" := doc ]}) doc).
Defined.

(** ** The connection URL *)







(** ** What the environment module really requires *)

Section EnvOutcome.

Import Env.




End EnvOutcome.



(** * Properties of the authorisation client *)

Section AuthProps.

Import Auth.

Context {S : Type} `{!AuthService S}.

Variable AUTH_URL : option string.

Lemma choose_token (token : option string) (w : World S) :
  ∃ w1, match token with
        | None => token_hex 32
        | Some t => ret t
        end w = (inr (chosen_token token w), w1)
        ∧ service w1 = service w ∧ sent w1 = sent w ∧ echoed w1 = echoed w
        ∧ answers w1 = answers w ∧ info w1 = info w.
Proof.
  destruct token as [t|]; [by eexists|].
  unfold token_hex, chosen_token. destruct (tokens w); by eexists.
Qed.

End AuthProps.

(** When the user answers the confirmation prompt of [add_token] with no,
    the command ends normally and nothing has happened: no request has
    been sent, the service is in the state it was in, nothing is echoed. *)
Theorem add_token_declined {S : Type} `{!Auth.AuthService S}
    (AUTH_URL : option string) (path : string) (token : option string)
    (w : Auth.World S) (rest : list bool) :
  Auth.answers w = false :: rest →
  let res := Auth.add_token AUTH_URL path false token w in
  res.1 = inr tt
  ∧ Auth.sent res.2 = Auth.sent w
  ∧ Auth.service res.2 = Auth.service w
  ∧ Auth.echoed res.2 = Auth.echoed w
  ∧ Auth.answers res.2 = rest.
Proof.
  intros Hans res. unfold res. clear res.
  destruct (Auth.add_token AUTH_URL path false token w) as [r0 w0] eqn:Hrun.
  revert Hrun. unfold Auth.add_token. unfold Auth.bind at 1.
  destruct (choose_token token w) as (w1 & -> & Hs & Hsent & He & Ha & _).
  unfold Auth.bind at 1. unfold Auth.confirm at 1.
  rewrite Ha, Hans. unfold Auth.ret. intros [= <- <-]. simpl.
  by rewrite Hs, Hsent, He.
Qed.

Lemma add_token_declined_witness :
  let w := Auth.mkWorld (Auth.mkAccepting 0) [] [] [] [false] ["c0ffee"] in
  Auth.sent (Auth.add_token (Some "http://auth") "origin/a" false None w).2 = [].
Proof.
  intros w.
  by destruct (add_token_declined (Some "http://auth") "origin/a" None w [])
    as (_ & -> & _).
Defined.


